(** * KeyStonOps: the MCP Level 1 artifact validation engine

    A shallow embedding of
      - [level1/tools/validator.py]            (class [MCPValidator]) and
      - [level1/validation/extended-validator.py]
        (classes [DependencyValidator], [SemanticTypeValidator],
         [NamingSpecificationValidator], [ReferenceValidator],
         [ExtendedMCPValidator] and the CLI [main]),
    followed by the properties of the validation pipeline.

    Modelling conventions.
      - A parsed document is a [value]: null, boolean, integer, string,
        sequence or mapping with string keys (the JSON-like fragment of what
        [yaml.safe_load] returns).  A mapping keeps its insertion order, as a
        Python [dict] does, and is an association list.
      - A Python [str] is represented by its UTF-8 encoding, a [string] of
        bytes (a lone surrogate is encoded like any other code point, so
        every [str] has exactly one representation).  Equality,
        concatenation and the prefix, suffix and substring tests of two
        strings agree with those of their encodings; [len] and iteration
        count code points, and the regular-expression class [\d] is the
        set of the encodings of the decimal digits of Unicode.
      - A Python exception is a value of [exn]; a computation that may raise
        is a value of [Py].  The dependency graph, the only mutable state of
        the validators, is threaded explicitly.
      - A diagnostic is a [Message]: the template of the f-string of the
        source together with the values it interpolates. *)

From Stdlib Require Import List String Ascii NArith ZArith Bool Arith Lia DecimalString.
Import ListNotations.
Open Scope string_scope.
Open Scope list_scope.

(* ================================================================= *)
(** ** Python values and exceptions *)

#[local] Set Warnings "-register-all".

Inductive value : Type :=
| VNone
| VBool (b : bool)
| VInt (z : Z)
| VStr (s : string)
| VList (l : list value)
| VDict (d : list (string * value)).

Inductive exn : Type :=
| TypeError
| AttributeError
| KeyError (key : string)
| ValueError
| OSError
| YAMLError
| NetworkXError.

Inductive Py (A : Type) : Type :=
| Return (a : A)
| Raise (e : exn).
Arguments Return {A} a.
Arguments Raise {A} e.

Definition bind {A B : Type} (m : Py A) (k : A -> Py B) : Py B :=
  match m with
  | Return a => k a
  | Raise e => Raise e
  end.

Declare Scope py_scope.
Delimit Scope py_scope with py.
Notation "x <- m ;; k" := (bind m (fun x => k))
  (at level 61, m at next level, right associativity) : py_scope.
Notation "' pat <- m ;; k" := (bind m (fun x => match x with pat => k end))
  (at level 61, pat pattern, m at next level, right associativity) : py_scope.
Open Scope py_scope.

(** [isinstance(v, dict)], [isinstance(v, str)]. *)
Definition is_dict (v : value) : bool :=
  match v with VDict _ => true | _ => false end.
Definition is_str (v : value) : bool :=
  match v with VStr _ => true | _ => false end.

(** Objects without [__hash__]: lists and dicts. *)
Definition unhashable (v : value) : bool :=
  match v with VList _ | VDict _ => true | _ => false end.

(** Association lists: the first binding of a key is the one a lookup sees. *)
Fixpoint assoc {A : Type} (k : string) (d : list (string * A)) : option A :=
  match d with
  | [] => None
  | (k', v) :: d' => if String.eqb k k' then Some v else assoc k d'
  end.

Definition has_key {A : Type} (k : string) (d : list (string * A)) : bool :=
  match assoc k d with Some _ => true | None => false end.

(** [needle in hay] for two strings: substring test. *)
Fixpoint contains (needle hay : string) : bool :=
  String.prefix needle hay
  || match hay with
     | EmptyString => false
     | String _ hay' => contains needle hay'
     end.

(** [s.endswith(suffix)]. *)
Definition endswith (s suffix : string) : bool :=
  let n := String.length s in
  let m := String.length suffix in
  (m <=? n)%nat && String.eqb (String.substring (n - m) m s) suffix.

(** [v == "literal"]: only a string equals a string. *)
Definition eq_str (v : value) (s : string) : bool :=
  match v with VStr s' => String.eqb s' s | _ => false end.

(** [key in container], for a string [key]. *)
Definition py_in (key : string) (container : value) : Py bool :=
  match container with
  | VDict d => Return (has_key key d)
  | VList l => Return (existsb (fun x => eq_str x key) l)
  | VStr s => Return (contains key s)
  | VNone | VBool _ | VInt _ => Raise TypeError
  end.

(** [container[key]], for a string [key]. *)
Definition py_getitem (container : value) (key : string) : Py value :=
  match container with
  | VDict d =>
      match assoc key d with
      | Some v => Return v
      | None => Raise (KeyError key)
      end
  | _ => Raise TypeError
  end.

(** [container.get(key, default)]: only a dict has the method. *)
Definition py_get (container : value) (key : string) (default : value) : Py value :=
  match container with
  | VDict d =>
      match assoc key d with
      | Some v => Return v
      | None => Return default
      end
  | _ => Raise AttributeError
  end.

(** The bytes [10xxxxxx], which continue the encoding of a code point. *)
Definition is_continuation (c : ascii) : bool :=
  let n := N_of_ascii c in (128 <=? n)%N && (n <? 192)%N.

(** The number of code points of a string: the bytes that start one. *)
Fixpoint code_points (s : string) : nat :=
  match s with
  | EmptyString => 0
  | String c s' => (if is_continuation c then 0 else 1) + code_points s'
  end.

(** The characters of a string: each byte that starts a code point together
    with the continuation bytes behind it. *)
Fixpoint characters (s : string) : list string :=
  match s with
  | EmptyString => []
  | String c s' =>
      match s' with
      | EmptyString => [String c EmptyString]
      | String c' _ =>
          if is_continuation c' then
            match characters s' with
            | t :: l => String c t :: l
            | [] => [String c EmptyString]
            end
          else String c EmptyString :: characters s'
      end
  end.

(** [len(v)]. *)
Definition py_len (v : value) : Py nat :=
  match v with
  | VList l => Return (List.length l)
  | VDict d => Return (List.length d)
  | VStr s => Return (code_points s)
  | VNone | VBool _ | VInt _ => Raise TypeError
  end.

(** [for x in v]: the elements a [for] loop visits. *)
Definition py_iter (v : value) : Py (list value) :=
  match v with
  | VList l => Return l
  | VDict d => Return (map (fun kv => VStr (fst kv)) d)
  | VStr s => Return (map VStr (characters s))
  | VNone | VBool _ | VInt _ => Raise TypeError
  end.

(** [x in l] for a list [l] of string literals: compares with [==]. *)
Definition in_str_list (x : value) (l : list string) : bool :=
  existsb (eq_str x) l.

(** [x in s] for a set or dict [s] with string keys: hashes [x] first. *)
Definition in_str_keys (x : value) (keys : list string) : Py bool :=
  if unhashable x then Raise TypeError else Return (in_str_list x keys).

(** Sequencing a loop body over a list, left to right. *)
Fixpoint foldM {A B : Type} (f : B -> A -> Py B) (acc : B) (l : list A) : Py B :=
  match l with
  | [] => Return acc
  | x :: l' => acc' <- f acc x ;; foldM f acc' l'
  end.

(* ================================================================= *)
(** ** Regular expressions ([re.match])

    Every pattern of the source has the shape [^R$].  A pattern is
    represented by its body [R]; [re_match_anchored] implements the two
    anchors.  Without [re.MULTILINE], [$] matches at the end of the string
    and also just before a newline that is the last character. *)

Inductive regex : Type :=
| Empty
| Eps
| Chr (c : ascii)
| CharSet (ranges : list (ascii * ascii))
| Cat (r1 r2 : regex)
| Alt (r1 r2 : regex)
| Star (r : regex).

Definition Plus (r : regex) : regex := Cat r (Star r).

Definition in_range (c : ascii) (rg : ascii * ascii) : bool :=
  let n := nat_of_ascii c in
  (nat_of_ascii (fst rg) <=? n)%nat && (n <=? nat_of_ascii (snd rg))%nat.

Fixpoint nullable (r : regex) : bool :=
  match r with
  | Empty => false
  | Eps => true
  | Chr _ => false
  | CharSet _ => false
  | Cat r1 r2 => nullable r1 && nullable r2
  | Alt r1 r2 => nullable r1 || nullable r2
  | Star _ => true
  end.

Fixpoint deriv (c : ascii) (r : regex) : regex :=
  match r with
  | Empty => Empty
  | Eps => Empty
  | Chr c' => if Ascii.eqb c c' then Eps else Empty
  | CharSet ranges => if existsb (in_range c) ranges then Eps else Empty
  | Cat r1 r2 =>
      if nullable r1
      then Alt (Cat (deriv c r1) r2) (deriv c r2)
      else Cat (deriv c r1) r2
  | Alt r1 r2 => Alt (deriv c r1) (deriv c r2)
  | Star r1 => Cat (deriv c r1) (Star r1)
  end.

Fixpoint fullmatch (r : regex) (s : string) : bool :=
  match s with
  | EmptyString => nullable r
  | String c s' => fullmatch (deriv c r) s'
  end.

Definition newline : ascii := ascii_of_nat 10.

(** [Some s'] when [s] is [s'] followed by one final newline. *)
Fixpoint strip_final_newline (s : string) : option string :=
  match s with
  | EmptyString => None
  | String c EmptyString =>
      if Ascii.eqb c newline then Some EmptyString else None
  | String c s' =>
      match strip_final_newline s' with
      | Some t => Some (String c t)
      | None => None
      end
  end.

Definition re_match_anchored (r : regex) (s : string) : bool :=
  fullmatch r s
  || match strip_final_newline s with
     | Some s' => fullmatch r s'
     | None => false
     end.

(** [re.match(pattern, v)] as a truth value; a non-string raises. *)
Definition re_match (r : regex) (v : value) : Py bool :=
  match v with
  | VStr s => Return (re_match_anchored r s)
  | _ => Raise TypeError
  end.

Definition dot : regex := Chr ".".
Definition lower_alnum : regex := CharSet [("a", "z"); ("0", "9")]%char.
(** [[a-z0-9-]] and [[a-z0-9.-]] *)
Definition name_char : regex := CharSet [("a", "z"); ("0", "9"); ("-", "-")]%char.
Definition namespace_char : regex :=
  CharSet [("a", "z"); ("0", "9"); (".", "."); ("-", "-")]%char.
(** [[a-zA-Z0-9-]] *)
Definition tag_char : regex :=
  CharSet [("a", "z"); ("A", "Z"); ("0", "9"); ("-", "-")]%char.

Fixpoint lit (s : string) : regex :=
  match s with
  | EmptyString => Eps
  | String c s' => Cat (Chr c) (lit s')
  end.

(** One of the strings of [l]. *)
Fixpoint one_of (l : list string) : regex :=
  match l with
  | [] => Empty
  | s :: l' => Alt (lit s) (one_of l')
  end.

(** *** The class [\d]

    The patterns of the source are [str] patterns compiled without
    [re.ASCII], so [\d] matches every character of the Unicode category
    [Nd], not only [0-9].  The characters of that category come in runs of
    ten, the digits 0 to 9 of a script; [decimal_zeros] lists the digit zero
    of each run, from the Unicode Character Database 14.0 (the one of
    CPython 3.11).  A later version of the database adds runs and changes
    nothing else. *)
Definition decimal_zeros : list N :=
  [ 0x30; 0x660; 0x6F0; 0x7C0; 0x966; 0x9E6;
    0xA66; 0xAE6; 0xB66; 0xBE6; 0xC66; 0xCE6;
    0xD66; 0xDE6; 0xE50; 0xED0; 0xF20; 0x1040;
    0x1090; 0x17E0; 0x1810; 0x1946; 0x19D0; 0x1A80;
    0x1A90; 0x1B50; 0x1BB0; 0x1C40; 0x1C50; 0xA620;
    0xA8D0; 0xA900; 0xA9D0; 0xA9F0; 0xAA50; 0xABF0;
    0xFF10; 0x104A0; 0x10D30; 0x11066; 0x110F0; 0x11136;
    0x111D0; 0x112F0; 0x11450; 0x114D0; 0x11650; 0x116C0;
    0x11730; 0x118E0; 0x11950; 0x11C50; 0x11D50; 0x11DA0;
    0x16A60; 0x16AC0; 0x16B50; 0x1D7CE; 0x1D7D8; 0x1D7E2;
    0x1D7EC; 0x1D7F6; 0x1E140; 0x1E2F0; 0x1E950; 0x1FBF0 ]%N.

Definition byte (n : N) : ascii := ascii_of_N n.

(** The UTF-8 encoding of a code point. *)
Definition utf8 (c : N) : string :=
  (if c <? 0x80 then String (byte c) EmptyString
   else if c <? 0x800 then
     String (byte (0xC0 + c / 0x40))
       (String (byte (0x80 + c mod 0x40)) EmptyString)
   else if c <? 0x10000 then
     String (byte (0xE0 + c / 0x1000))
       (String (byte (0x80 + (c / 0x40) mod 0x40))
          (String (byte (0x80 + c mod 0x40)) EmptyString))
   else
     String (byte (0xF0 + c / 0x40000))
       (String (byte (0x80 + (c / 0x1000) mod 0x40))
          (String (byte (0x80 + (c / 0x40) mod 0x40))
             (String (byte (0x80 + c mod 0x40)) EmptyString))))%N.

(** The 660 decimal digits, each as the string of its encoding. *)
Definition decimal_digits : list string :=
  Eval vm_compute in
  flat_map (fun zero => map (fun k => utf8 (zero + k)%N) [0; 1; 2; 3; 4; 5; 6; 7; 8; 9]%N)
           decimal_zeros.

Definition digit : regex := one_of decimal_digits.
Arguments digit : simpl never.

(** [\d+\.\d+\.\d+] *)
Definition semver_body : regex :=
  Cat (Plus digit) (Cat dot (Cat (Plus digit) (Cat dot (Plus digit)))).

(* ================================================================= *)
(** ** Diagnostics

    One constructor per f-string of the two source files; the arguments are
    the interpolated values.  The comment gives the template. *)

Inductive Message : Type :=
(* validator.py *)
| MissingRequiredField (field : string)          (* Missing required field: {field} *)
| MissingRequiredMetadataField (field : string)  (* Missing required metadata field: {field} *)
| InvalidNameFormat (name : value)               (* Invalid name format: '{name}'. Must match pattern: ... *)
| InvalidSemverFormat (version : value)          (* Invalid version format: '{version}'. Must follow ... *)
| NamingRegistryFormatShould                     (* Naming registry format should be 'reverse-DNS' *)
| DependsOnMustBeArray                           (* dependsOn must be an array *)
| DependencyMustBeObject (index : nat)           (* Dependency {i} must be an object *)
| DependencyMissingQuoted (index : nat) (field : string)
                                                 (* Dependency {i} missing '{field}' field *)
| MissingSemanticType                            (* Missing semanticType in metadata *)
| InvalidSemanticTypeOneOf (semantic_type : value)
                                                 (* Invalid semanticType: '{semantic_type}'. Must be one of: ... *)
| SchemaValidationMessage (text : string)        (* Schema validation error: ... / Schema validation failed: ... *)
| FailedToLoadArtifact (e : exn)                 (* Failed to load artifact: {str(e)} *)
(* extended-validator.py *)
| DependencyMissingRequiredField (index : nat) (field : string)
                                                 (* Dependency {index} missing required field: {field} *)
| DependencyNotInRegistry (artifact_name : value)
                                                 (* Dependency artifact not found in registry: {artifact_name} *)
| InvalidVersionConstraint (version : value)     (* Invalid version constraint: {version} *)
| CircularDependenciesDetected (cycles : list (list (value * value)))
                                                 (* Circular dependencies detected: {cycles} *)
| InvalidSemanticType (semantic_type : value)    (* Invalid semantic type: {semantic_type} *)
| MissingRequiredFieldFor (semantic_type : value) (field : string)
                                                 (* Missing required field for {semantic_type}: {field} *)
| UnexpectedFieldFor (semantic_type : value) (field : value)
                                                 (* Unexpected field for {semantic_type}: {field} *)
| CannotDependOn (semantic_type : value) (dep_type : value) (allowed : list string)
                                                 (* {semantic_type} cannot depend on {dep_type}. Allowed: ... *)
| MissingMetadata                                (* Missing metadata *)
| NamingRegistryFormatMust                       (* Naming registry format must be 'reverse-DNS' *)
| NamespaceRequiresVerification (namespace : value)
                                                 (* Namespace {namespace} requires verification *)
| NamespaceNotVerified (namespace : value)       (* Namespace {namespace} is not verified *)
| InvalidNamespaceFormat (namespace : value)     (* Invalid namespace format: {namespace} *)
| InvalidArtifactNameFormat (name : value)       (* Invalid artifact name format: {name} *)
| ArtifactNameTooLong (max_len : Z)              (* Artifact name too long (max {max_len} characters) *)
| ArtifactNameTooShort (min_len : Z)             (* Artifact name too short (min {min_len} characters) *)
| ArtifactNameReserved (name : value)            (* Artifact name uses reserved word: {name} *)
| UsingPrereleaseVersion                         (* Using prerelease version *)
| UsingBuildVersion                              (* Using build version with metadata *)
| InvalidVersionFormat (version : value)         (* Invalid version format: {version} *)
| InvalidReferenceFormatAt (field : string)      (* Invalid reference format at {reference['field']} *)
| ReferenceTargetNotFound (ref_value : value)    (* Reference target not found in registry: {ref_value} *)
| InvalidReferenceFormat (ref_value : value)     (* Invalid reference format: {ref_value} *)
| EndpointMessage (text : string).               (* the diagnostics of EndpointValidator *)

(* ================================================================= *)
(** ** validator.py: [MCPValidator] *)

Module ValidationStatus.
Inductive t : Type := PASSED | FAILED | WARNING.
End ValidationStatus.

Record ValidationResult : Type := mkValidationResult {
  vr_status : ValidationStatus.t;
  vr_errors : list Message;
  vr_warnings : list Message;
  vr_artifact_type : option value
}.

(** The loop [for field in fields: if field not in container: errors.append(..)]. *)
Definition missing_fields (mk : string -> Message) (fields : list string)
    (container : value) : Py (list Message) :=
  foldM (fun errors field =>
           present <- py_in field container ;;
           Return (if present then errors else errors ++ [mk field]))
        [] fields.

Definition _validate_structure (artifact : value) : Py (list Message) :=
  errors <- missing_fields MissingRequiredField ["apiVersion"; "kind"; "metadata"] artifact ;;
  has_metadata <- py_in "metadata" artifact ;;
  if has_metadata then
    metadata <- py_getitem artifact "metadata" ;;
    more <- missing_fields MissingRequiredMetadataField
              ["name"; "version"; "semanticType"] metadata ;;
    Return (errors ++ more)
  else Return errors.

(** [^[a-z0-9.-]+/[a-z0-9-]+$] *)
Definition qualified_name_pattern : regex :=
  Cat (Plus namespace_char) (Cat (Chr "/") (Plus name_char)).

(** [^\d+\.\d+\.\d+$] *)
Definition semver_pattern : regex := semver_body.

Definition _validate_naming (artifact : value) : Py (list Message * list Message) :=
  has_metadata <- py_in "metadata" artifact ;;
  if negb has_metadata then Return ([], []) else
  metadata <- py_getitem artifact "metadata" ;;
  has_name <- py_in "name" metadata ;;
  errors1 <- (if has_name then
                name <- py_getitem metadata "name" ;;
                ok <- re_match qualified_name_pattern name ;;
                Return (if ok then [] else [InvalidNameFormat name])
              else Return []) ;;
  has_version <- py_in "version" metadata ;;
  errors2 <- (if has_version then
                version <- py_getitem metadata "version" ;;
                ok <- re_match semver_pattern version ;;
                Return (if ok then [] else [InvalidSemverFormat version])
              else Return []) ;;
  has_registry <- py_in "namingRegistry" metadata ;;
  warnings <- (if has_registry then
                 naming_registry <- py_getitem metadata "namingRegistry" ;;
                 fmt <- py_get naming_registry "format" VNone ;;
                 Return (if eq_str fmt "reverse-DNS" then []
                         else [NamingRegistryFormatShould])
               else Return []) ;;
  Return (errors1 ++ errors2, warnings).

(** The body of the loop over [enumerate(depends_on)]. *)
Definition basic_dependency_errors (i : nat) (dep : value) : Py (list Message) :=
  if negb (is_dict dep) then Return [DependencyMustBeObject i] else
  has_artifact <- py_in "artifact" dep ;;
  has_purpose <- py_in "purpose" dep ;;
  Return ((if has_artifact then [] else [DependencyMissingQuoted i "artifact"])
          ++ (if has_purpose then [] else [DependencyMissingQuoted i "purpose"])).

Fixpoint basic_dependencies_loop (i : nat) (deps : list value) : Py (list Message) :=
  match deps with
  | [] => Return []
  | dep :: deps' =>
      errs <- basic_dependency_errors i dep ;;
      rest <- basic_dependencies_loop (S i) deps' ;;
      Return (errs ++ rest)
  end.

Definition _validate_dependencies (artifact : value) : Py (list Message) :=
  has_deps <- py_in "dependsOn" artifact ;;
  if negb has_deps then Return [] else
  depends_on <- py_getitem artifact "dependsOn" ;;
  match depends_on with
  | VList deps => basic_dependencies_loop 0 deps
  | _ => Return [DependsOnMustBeArray]
  end.

Definition valid_types : list string :=
  ["manifest"; "schema"; "spec"; "index"; "taxonomy";
   "governance"; "policy"; "role"; "toolchain"; "documentation"].

Definition _validate_semantic_type (artifact : value) : Py (list Message) :=
  has_metadata <- py_in "metadata" artifact ;;
  if negb has_metadata then Return [] else
  metadata <- py_getitem artifact "metadata" ;;
  has_type <- py_in "semanticType" metadata ;;
  if negb has_type then Return [MissingSemanticType] else
  semantic_type <- py_getitem metadata "semanticType" ;;
  Return (if in_str_list semantic_type valid_types then []
          else [InvalidSemanticTypeOneOf semantic_type]).

(** Truth value of a list: non-empty. *)
Definition truthy {A : Type} (l : list A) : bool :=
  match l with [] => false | _ :: _ => true end.

(** Lines 119-126: [if errors / elif warnings and strict / elif warnings / else]. *)
Definition basic_status (errors warnings : list Message) (strict : bool)
  : ValidationStatus.t :=
  if truthy errors then ValidationStatus.FAILED
  else if truthy warnings && strict then ValidationStatus.FAILED
  else if truthy warnings then ValidationStatus.WARNING
  else ValidationStatus.PASSED.

(** The state of the [try] block of [validate_artifact] when an exception
    reaches its [except Exception] clause. *)
Definition load_failure (errors warnings : list Message) (artifact_type : option value)
    (e : exn) : ValidationResult :=
  mkValidationResult ValidationStatus.FAILED (errors ++ [FailedToLoadArtifact e]) warnings artifact_type.

(** [MCPValidator.validate_artifact].  [file] is the outcome of opening the
    path and parsing it with [yaml.safe_load]; [schema] is [self.schema]
    together with [jsonschema.validate]: [None] when no schema is loaded,
    otherwise the errors [_validate_against_schema] reports, which catches
    every exception itself. *)
Definition validate_artifact (schema : option (value -> list Message))
    (file : Py value) (strict : bool) : ValidationResult :=
  match file with
  | Raise e => load_failure [] [] None e
  | Return artifact =>
  match py_get artifact "kind" (VStr "Unknown") with
  | Raise e => load_failure [] [] None e
  | Return kind =>
  let artifact_type := Some kind in
  match _validate_structure artifact with
  | Raise e => load_failure [] [] artifact_type e
  | Return structure_errors =>
  let errors := structure_errors in
  match _validate_naming artifact with
  | Raise e => load_failure errors [] artifact_type e
  | Return (naming_errors, naming_warnings) =>
  let errors := errors ++ naming_errors in
  let warnings := naming_warnings in
  match _validate_dependencies artifact with
  | Raise e => load_failure errors warnings artifact_type e
  | Return dep_errors =>
  let errors := errors ++ dep_errors in
  let errors := match schema with
                | Some check => errors ++ check artifact
                | None => errors
                end in
  match _validate_semantic_type artifact with
  | Raise e => load_failure errors warnings artifact_type e
  | Return semantic_errors =>
  let errors := errors ++ semantic_errors in
  mkValidationResult (basic_status errors warnings strict)
                     errors warnings artifact_type
  end end end end end end.

(* ================================================================= *)
(** ** The dependency graph ([networkx.DiGraph])

    Nodes are hashable Python objects, compared with [==]; [None] is refused
    as a node.  The graph of a [DependencyValidator] is created once, in
    [__init__], and mutated in place by [add_node] and [add_edge]: it is the
    state that [St] threads.  A mutation made before an exception is raised
    stays in the graph. *)

Record DiGraph : Type := mkDiGraph {
  nodes : list value;
  edges : list (value * value)
}.

Definition empty_graph : DiGraph := mkDiGraph [] [].

Definition node_eqb (a b : value) : bool :=
  match a, b with
  | VNone, VNone => true
  | VBool x, VBool y => Bool.eqb x y
  | VInt x, VInt y => Z.eqb x y
  | VBool x, VInt y => Z.eqb (if x then 1 else 0) y
  | VInt x, VBool y => Z.eqb x (if y then 1 else 0)
  | VStr x, VStr y => String.eqb x y
  | _, _ => false
  end.

Definition has_node (g : DiGraph) (n : value) : bool :=
  existsb (node_eqb n) (nodes g).

Definition has_edge (g : DiGraph) (u v : value) : bool :=
  existsb (fun e => node_eqb u (fst e) && node_eqb v (snd e)) (edges g).

Definition St (A : Type) : Type := DiGraph -> Py A * DiGraph.

Definition retS {A : Type} (a : A) : St A := fun g => (Return a, g).

Definition liftS {A : Type} (m : Py A) : St A := fun g => (m, g).

Definition bindS {A B : Type} (m : St A) (k : A -> St B) : St B :=
  fun g =>
    match m g with
    | (Return a, g') => k a g'
    | (Raise e, g') => (Raise e, g')
    end.

Notation "x <~ m ;; k" := (bindS m (fun x => k))
  (at level 61, m at next level, right associativity) : py_scope.

(** [G.add_node(n)] *)
Definition add_node (n : value) : St unit :=
  fun g =>
    if unhashable n then (Raise TypeError, g)
    else if has_node g n then (Return tt, g)
    else match n with
         | VNone => (Raise ValueError, g)
         | _ => (Return tt, mkDiGraph (nodes g ++ [n]) (edges g))
         end.

(** [G.add_edge(u, v)]: adds the missing end points, [u] first, then the edge. *)
Definition add_edge (u v : value) : St unit :=
  _ <~ add_node u ;;
  _ <~ add_node v ;;
  fun g =>
    if has_edge g u v then (Return tt, g)
    else (Return tt, mkDiGraph (nodes g) (edges g ++ [(u, v)])).

(** [nx.find_cycles(G)].  The module [networkx] exports [find_cycle],
    [simple_cycles], [cycle_basis], [recursive_simple_cycles],
    [minimum_cycle_basis], [chordless_cycles] and [girth]; it has no
    attribute [find_cycles], so evaluating [nx.find_cycles] raises
    [AttributeError] before any graph algorithm runs. *)
Definition nx_find_cycles (G : DiGraph) : Py (list (list (value * value))) :=
  Raise AttributeError.

(** [g'] has every node and every edge of [g]. *)
Definition extends (g g' : DiGraph) : Prop :=
  incl (nodes g) (nodes g') /\ incl (edges g) (edges g').

(** A computation that only ever adds to the graph, whether it returns or
    raises. *)
Definition accumulating {A : Type} (m : St A) : Prop :=
  forall g, extends g (snd (m g)).

(* ================================================================= *)
(** ** extended-validator.py: [DependencyValidator] *)

(** The registry: a dict from artifact identifier to metadata.  An absent
    registry is the empty dict ([artifact_registry or {}]). *)
Definition Registry : Type := list (string * value).

Record SingleDependencyResult : Type := mkSingleDependencyResult {
  sd_valid : bool;
  sd_errors : list Message;
  sd_warnings : list Message;
  sd_missing_dependencies : list value;
  sd_invalid_versions : list value
}.

Record DependencyResult : Type := mkDependencyResult {
  dr_valid : bool;
  dr_errors : list Message;
  dr_warnings : list Message;
  dr_missing_dependencies : list value;
  dr_invalid_versions : list value;
  dr_circular_dependencies : list (list (value * value))
}.

(** The five patterns of [_is_valid_version_constraint]. *)
Definition version_constraint_patterns : list regex :=
  [ semver_body;                       (* ^\d+\.\d+\.\d+$   *)
    Cat (Chr "^") semver_body;         (* ^\^\d+\.\d+\.\d+$ *)
    Cat (Chr "~") semver_body;         (* ^~\d+\.\d+\.\d+$  *)
    Cat (lit ">=") semver_body;        (* ^>=\d+\.\d+\.\d+$ *)
    Cat (lit "<=") semver_body ].      (* ^<=\d+\.\d+\.\d+$ *)

(** [any(re.match(pattern, v) for pattern in patterns)] *)
Fixpoint any_match (patterns : list regex) (v : value) : Py bool :=
  match patterns with
  | [] => Return false
  | p :: ps =>
      m <- re_match p v ;;
      if m then Return true else any_match ps v
  end.

Definition _is_valid_version_constraint (version : value) : Py bool :=
  any_match version_constraint_patterns version.

Definition _validate_single_dependency (artifact_registry : Registry)
    (dep : value) (index : nat) : Py SingleDependencyResult :=
  if negb (is_dict dep) then
    Return (mkSingleDependencyResult false [DependencyMustBeObject index] [] [] [])
  else
  missing <- missing_fields (DependencyMissingRequiredField index)
               ["artifact"; "purpose"] dep ;;
  let valid := negb (truthy missing) in
  let errors := missing in
  has_artifact <- py_in "artifact" dep ;;
  '(missing_dependencies, warnings) <-
     (if has_artifact && truthy artifact_registry then
        artifact_name <- py_getitem dep "artifact" ;;
        registered <- in_str_keys artifact_name (map fst artifact_registry) ;;
        Return (if registered then ([], [])
                else ([artifact_name], [DependencyNotInRegistry artifact_name]))
      else Return ([], [])) ;;
  has_version <- py_in "version" dep ;;
  '(invalid_versions, warnings2) <-
     (if has_version then
        version <- py_getitem dep "version" ;;
        ok <- _is_valid_version_constraint version ;;
        Return (if ok then ([], [])
                else ([version], [InvalidVersionConstraint version]))
      else Return ([], [])) ;;
  Return (mkSingleDependencyResult valid errors (warnings ++ warnings2)
            missing_dependencies invalid_versions).

(** [artifact.get("metadata", {}).get("name", "unknown")] *)
Definition artifact_node (artifact : value) : Py value :=
  metadata <- py_get artifact "metadata" (VDict []) ;;
  py_get metadata "name" (VStr "unknown").

(** The body of [for i, dep in enumerate(dependencies)]. *)
Fixpoint dependencies_loop (artifact_registry : Registry) (artifact : value)
    (i : nat) (dependencies : list value) (result : DependencyResult)
  : St DependencyResult :=
  match dependencies with
  | [] => retS result
  | dep :: rest =>
      dep_result <~ liftS (_validate_single_dependency artifact_registry dep i) ;;
      let result :=
        mkDependencyResult
          (if sd_valid dep_result then dr_valid result else false)
          (if sd_valid dep_result then dr_errors result
           else dr_errors result ++ sd_errors dep_result)
          (dr_warnings result ++ sd_warnings dep_result)
          (dr_missing_dependencies result ++ sd_missing_dependencies dep_result)
          (dr_invalid_versions result ++ sd_invalid_versions dep_result)
          (dr_circular_dependencies result) in
      has_artifact <~ liftS (py_in "artifact" dep) ;;
      _ <~ (if has_artifact then
              source <~ liftS (artifact_node artifact) ;;
              target <~ liftS (py_getitem dep "artifact") ;;
              add_edge source target
            else retS tt) ;;
      dependencies_loop artifact_registry artifact (S i) rest result
  end.

Definition empty_dependency_result : DependencyResult :=
  mkDependencyResult true [] [] [] [] [].

(** [DependencyValidator.validate_dependencies] *)
Definition validate_dependencies (artifact_registry : Registry) (artifact : value)
  : St DependencyResult :=
  let result := empty_dependency_result in
  has_deps <~ liftS (py_in "dependsOn" artifact) ;;
  if negb has_deps then retS result else
  dependencies <~ liftS (py_getitem artifact "dependsOn") ;;
  match dependencies with
  | VList deps =>
      node <~ liftS (artifact_node artifact) ;;
      _ <~ add_node node ;;
      result <~ dependencies_loop artifact_registry artifact 0 deps result ;;
      fun g =>
        match nx_find_cycles g with
        | Return cycles =>
            if truthy cycles then
              (Return (mkDependencyResult false
                         (dr_errors result ++ [CircularDependenciesDetected cycles])
                         (dr_warnings result)
                         (dr_missing_dependencies result)
                         (dr_invalid_versions result)
                         cycles), g)
            else (Return result, g)
        | Raise NetworkXError => (Return result, g)   (* except nx.NetworkXError: pass *)
        | Raise e => (Raise e, g)
        end
  | _ =>
      retS (mkDependencyResult false [DependsOnMustBeArray] [] [] [] [])
  end.

(* ================================================================= *)
(** ** extended-validator.py: [SemanticTypeValidator] *)

Record SemanticSchema : Type := mkSemanticSchema {
  required_fields : list string;
  optional_fields : list string;
  can_depend_on : list string
}.

(** [_load_semantic_schemas] *)
Definition semantic_type_schemas : list (string * SemanticSchema) :=
  [ ("manifest", mkSemanticSchema ["apiVersion"; "kind"; "metadata"; "spec"]
                   ["dependsOn"; "governance"]
                   ["schema"; "spec"; "governance"; "policy"]);
    ("schema", mkSemanticSchema ["apiVersion"; "kind"; "metadata"; "schema"]
                 ["dependsOn"]
                 ["manifest"; "governance"]);
    ("spec", mkSemanticSchema ["apiVersion"; "kind"; "metadata"; "specification"]
               ["dependsOn"; "examples"]
               ["manifest"; "schema"; "governance"]);
    ("governance", mkSemanticSchema ["apiVersion"; "kind"; "metadata"; "policies"]
                     ["dependsOn"; "roles"]
                     ["manifest"]);
    ("policy", mkSemanticSchema ["apiVersion"; "kind"; "metadata"; "rules"]
                 ["dependsOn"]
                 ["manifest"; "governance"]);
    ("role", mkSemanticSchema ["apiVersion"; "kind"; "metadata"; "permissions"]
               ["dependsOn"]
               ["manifest"; "governance"; "policy"]);
    ("toolchain", mkSemanticSchema ["apiVersion"; "kind"; "metadata"; "tools"]
                    ["dependsOn"]
                    ["manifest"; "spec"; "schema"]);
    ("index", mkSemanticSchema ["apiVersion"; "kind"; "metadata"; "artifacts"]
                ["dependsOn"]
                ["manifest"; "schema"]);
    ("documentation", mkSemanticSchema ["apiVersion"; "kind"; "metadata"; "content"]
                        ["dependsOn"]
                        ["manifest"; "spec"; "examples"]) ].

(** [self.semantic_type_schemas.get(semantic_type, {})]; [None] is the
    empty dict of the default. *)
Definition schemas_get (semantic_type : value) : Py (option SemanticSchema) :=
  match semantic_type with
  | VList _ | VDict _ => Raise TypeError
  | VStr t => Return (assoc t semantic_type_schemas)
  | _ => Return None
  end.

(** [schema.get(key, [])] *)
Definition schema_field (f : SemanticSchema -> list string)
    (schema : option SemanticSchema) : list string :=
  match schema with Some sch => f sch | None => [] end.

Definition common_fields : list string :=
  ["apiVersion"; "kind"; "metadata"; "dependsOn"].

Definition _validate_against_semantic_schema (artifact semantic_type : value)
  : Py (list Message) :=
  schema <- schemas_get semantic_type ;;
  violations <- foldM (fun violations field =>
                         present <- py_in field artifact ;;
                         Return (if present then violations
                                 else violations ++ [MissingRequiredFieldFor semantic_type field]))
                      [] (schema_field required_fields schema) ;;
  let allowed_fields :=
    schema_field required_fields schema ++ schema_field optional_fields schema
    ++ common_fields in
  fields <- py_iter artifact ;;
  foldM (fun violations field =>
           allowed <- in_str_keys field allowed_fields ;;
           Return (if allowed then violations
                   else violations ++ [UnexpectedFieldFor semantic_type field]))
        violations fields.

(** The body of [for dep in artifact["dependsOn"]]. *)
Definition relationship_step (semantic_type : value) (allowed_dependencies : list string)
    (violations : list Message) (dep : value) : Py (list Message) :=
  has_type <- py_in "semanticType" dep ;;
  if has_type then
    dep_type <- py_getitem dep "semanticType" ;;
    Return (if in_str_list dep_type allowed_dependencies then violations
            else violations ++ [CannotDependOn semantic_type dep_type allowed_dependencies])
  else Return violations.

Definition _validate_semantic_relationships (artifact semantic_type : value)
  : Py (list Message) :=
  schema <- schemas_get semantic_type ;;
  let allowed_dependencies := schema_field can_depend_on schema in
  has_deps <- py_in "dependsOn" artifact ;;
  if has_deps then
    depends_on <- py_getitem artifact "dependsOn" ;;
    deps <- py_iter depends_on ;;
    foldM (relationship_step semantic_type allowed_dependencies) [] deps
  else Return [].

Record SemanticResult : Type := mkSemanticResult {
  sr_valid : bool;
  sr_errors : list Message;
  sr_warnings : list Message;
  sr_type_violations : list Message;
  sr_relationship_violations : list Message
}.

(** [SemanticTypeValidator.validate_semantic_consistency] *)
Definition validate_semantic_consistency (artifact : value) : Py SemanticResult :=
  has_metadata <- py_in "metadata" artifact ;;
  undeclared <- (if negb has_metadata then Return true
                 else metadata <- py_getitem artifact "metadata" ;;
                      has_type <- py_in "semanticType" metadata ;;
                      Return (negb has_type)) ;;
  if undeclared then
    Return (mkSemanticResult false [MissingSemanticType] [] [] [])
  else
  metadata <- py_getitem artifact "metadata" ;;
  semantic_type <- py_getitem metadata "semanticType" ;;
  known <- in_str_keys semantic_type (map fst semantic_type_schemas) ;;
  if negb known then
    Return (mkSemanticResult false [InvalidSemanticType semantic_type] [] [] [])
  else
  schema_violations <- _validate_against_semantic_schema artifact semantic_type ;;
  has_deps <- py_in "dependsOn" artifact ;;
  relationship_violations <-
    (if has_deps then _validate_semantic_relationships artifact semantic_type
     else Return []) ;;
  Return (mkSemanticResult (negb (truthy schema_violations))
            schema_violations
            relationship_violations
            schema_violations
            relationship_violations).

(* ================================================================= *)
(** ** extended-validator.py: [NamingSpecificationValidator] *)

Record SimpleResult : Type := mkSimpleResult {
  res_valid : bool;
  res_errors : list Message;
  res_warnings : list Message
}.

Record NamespaceFormat : Type := mkNamespaceFormat {
  nf_pattern : regex;
  nf_verification_required : bool;
  nf_verification_methods : list string
}.

(** [[a-z0-9]+([.-][a-z0-9]+)*] *)
Definition dns_labels : regex :=
  Cat (Plus lower_alnum)
      (Star (Cat (CharSet [(".", "."); ("-", "-")]%char) (Plus lower_alnum))).

(** [naming_rules["namespace_formats"]] *)
Definition namespace_formats : list (string * NamespaceFormat) :=
  [ ("io.github.*",
     mkNamespaceFormat (Cat (lit "io.github.") dns_labels) true ["github-oauth"]);
    ("com.*",
     mkNamespaceFormat (Cat (lit "com.") dns_labels) true ["dns-txt"; "http-well-known"]);
    ("org.*",
     mkNamespaceFormat (Cat (lit "org.") dns_labels) true ["dns-txt"; "http-well-known"]) ].

(** The heterogeneous values of [naming_rules["artifact_patterns"]]. *)
Inductive rule_value : Type :=
| RulePattern (r : regex)
| RuleInt (n : Z)
| RuleWords (words : list string).

(** [naming_rules["artifact_patterns"]]: the keys are [format], [max_length],
    [min_length] and [reserved_words]. *)
Definition artifact_patterns : list (string * rule_value) :=
  [ ("format", RulePattern (Plus name_char));       (* ^[a-z0-9-]+$ *)
    ("max_length", RuleInt 50);
    ("min_length", RuleInt 3);
    ("reserved_words", RuleWords ["mcp"; "system"; "core"; "api"; "internal"]) ].

(** [naming_rules["version_patterns"]] *)
Definition version_patterns : list (string * regex) :=
  [ ("semver", semver_body);
    ("prerelease", Cat semver_body (Cat (Chr "-") (Plus tag_char)));
    ("build", Cat semver_body (Cat (Chr "+") (Plus tag_char))) ].

Definition rule_getitem (rules : list (string * rule_value)) (key : string)
  : Py rule_value :=
  match assoc key rules with
  | Some v => Return v
  | None => Raise (KeyError key)
  end.

(** The loop over [namespace_formats.values()], with its [break]: returns
    [namespace_valid] and the warnings recorded. *)
Fixpoint namespace_loop (formats : list (string * NamespaceFormat))
    (naming_registry namespace : value) : Py (bool * list Message) :=
  match formats with
  | [] => Return (false, [])
  | (_, pattern_info) :: rest =>
      matched <- re_match (nf_pattern pattern_info) namespace ;;
      if matched then
        if nf_verification_required pattern_info then
          has_status <- py_in "verificationStatus" naming_registry ;;
          if negb has_status then
            Return (true, [NamespaceRequiresVerification namespace])
          else
            status <- py_get naming_registry "verificationStatus" VNone ;;
            Return (true, if eq_str status "verified" then []
                          else [NamespaceNotVerified namespace])
        else Return (true, [])
      else namespace_loop rest naming_registry namespace
  end.

Definition _validate_naming_registry (naming_registry : value) : Py SimpleResult :=
  fmt <- py_get naming_registry "format" VNone ;;
  let format_ok := eq_str fmt "reverse-DNS" in
  let errors := if format_ok then [] else [NamingRegistryFormatMust] in
  namespace <- py_get naming_registry "namespace" (VStr "") ;;
  '(namespace_valid, warnings) <-
     namespace_loop namespace_formats naming_registry namespace ;;
  Return (if namespace_valid then mkSimpleResult format_ok errors warnings
          else mkSimpleResult false (errors ++ [InvalidNamespaceFormat namespace]) warnings).

Definition rule_re_match (pattern : rule_value) (v : value) : Py bool :=
  match pattern with
  | RulePattern r => re_match r v
  | _ => Raise TypeError
  end.

Definition rule_int (v : rule_value) : Py Z :=
  match v with RuleInt n => Return n | _ => Raise TypeError end.

Definition rule_contains (v : rule_value) (x : value) : Py bool :=
  match v with
  | RuleWords words => Return (in_str_list x words)
  | _ => Raise TypeError
  end.

(** [_validate_artifact_name]: the first statement reads the key [pattern],
    which [artifact_patterns] does not have. *)
Definition _validate_artifact_name (name : value) : Py SimpleResult :=
  pattern <- rule_getitem artifact_patterns "pattern" ;;
  matched <- rule_re_match pattern name ;;
  let errors := if matched then [] else [InvalidArtifactNameFormat name] in
  max_rule <- rule_getitem artifact_patterns "max_length" ;;
  min_rule <- rule_getitem artifact_patterns "min_length" ;;
  len <- py_len name ;;
  max_len <- rule_int max_rule ;;
  let errors := if (max_len <? Z.of_nat len)%Z
                then errors ++ [ArtifactNameTooLong max_len] else errors in
  min_len <- rule_int min_rule ;;
  let errors := if (Z.of_nat len <? min_len)%Z
                then errors ++ [ArtifactNameTooShort min_len] else errors in
  reserved <- rule_getitem artifact_patterns "reserved_words" ;;
  is_reserved <- rule_contains reserved name ;;
  Return (mkSimpleResult (negb (truthy errors)) errors
            (if is_reserved then [ArtifactNameReserved name] else [])).

(** The loop over [patterns.items()], with its [break]. *)
Fixpoint version_loop (patterns : list (string * regex)) (version : value)
  : Py (bool * list Message) :=
  match patterns with
  | [] => Return (false, [])
  | (pattern_name, pattern) :: rest =>
      matched <- re_match pattern version ;;
      if matched then
        Return (true,
                if String.eqb pattern_name "prerelease" then [UsingPrereleaseVersion]
                else if String.eqb pattern_name "build" then [UsingBuildVersion]
                else [])
      else version_loop rest version
  end.

Definition _validate_version (version : value) : Py SimpleResult :=
  '(valid, warnings) <- version_loop version_patterns version ;;
  Return (if valid then mkSimpleResult true [] warnings
          else mkSimpleResult false [InvalidVersionFormat version] warnings).

Record NamingResult : Type := mkNamingResult {
  nr_valid : bool;
  nr_errors : list Message;
  nr_warnings : list Message;
  nr_namespace_compliance : option SimpleResult;
  nr_artifact_name_compliance : option SimpleResult;
  nr_version_compliance : option SimpleResult
}.

(** One of the three blocks of [validate_naming_specifications]:
    [if key in metadata: sub = check(metadata[key]); ... ]. *)
Definition naming_block (key : string) (check : value -> Py SimpleResult)
    (metadata : value) (acc : SimpleResult) : Py (SimpleResult * option SimpleResult) :=
  present <- py_in key metadata ;;
  if present then
    item <- py_getitem metadata key ;;
    sub <- check item ;;
    Return (mkSimpleResult
              (if res_valid sub then res_valid acc else false)
              (if res_valid sub then res_errors acc
               else res_errors acc ++ res_errors sub)
              (res_warnings acc ++ res_warnings sub),
            Some sub)
  else Return (acc, None).

(** [NamingSpecificationValidator.validate_naming_specifications] *)
Definition validate_naming_specifications (artifact : value) : Py NamingResult :=
  has_metadata <- py_in "metadata" artifact ;;
  if negb has_metadata then
    Return (mkNamingResult false [MissingMetadata] [] None None None)
  else
  metadata <- py_getitem artifact "metadata" ;;
  let acc := mkSimpleResult true [] [] in
  '(acc, namespace_compliance) <-
     naming_block "namingRegistry" _validate_naming_registry metadata acc ;;
  '(acc, artifact_name_compliance) <-
     naming_block "name" _validate_artifact_name metadata acc ;;
  '(acc, version_compliance) <-
     naming_block "version" _validate_version metadata acc ;;
  Return (mkNamingResult (res_valid acc) (res_errors acc) (res_warnings acc)
            namespace_compliance artifact_name_compliance version_compliance).

(* ================================================================= *)
(** ** extended-validator.py: [ReferenceValidator] *)

(** An entry of the list [_extract_references] builds; its third key,
    [type], is the constant ["direct_reference"]. *)
Record Reference : Type := mkReference {
  field : string;
  reference : value
}.

(** [str(i)] for a list index. *)
Definition str_of_nat (i : nat) : string :=
  DecimalString.NilEmpty.string_of_uint (Nat.to_uint i).

Definition nonempty (s : string) : bool :=
  match s with EmptyString => false | String _ _ => true end.

Fixpoint _extract_references (artifact : value) (path : string) {struct artifact}
  : list Reference :=
  match artifact with
  | VDict d =>
      (fix items (d : list (string * value)) : list Reference :=
         match d with
         | [] => []
         | (key, v) :: d' =>
             let current_path :=
               if nonempty path then (path ++ "." ++ key)%string else key in
             (if endswith key "Ref" || endswith key "Reference" then
                [mkReference current_path v]
              else
                match v with
                | VDict _ | VList _ => _extract_references v current_path
                | _ => []
                end)
             ++ items d'
         end) d
  | VList l =>
      (fix elements (l : list value) (i : nat) : list Reference :=
         match l with
         | [] => []
         | item :: l' =>
             let current_path :=
               if nonempty path then (path ++ "[" ++ str_of_nat i ++ "]")%string
               else ("[" ++ str_of_nat i ++ "]")%string in
             match item with
             | VDict _ | VList _ => _extract_references item current_path
             | _ => []
             end
             ++ elements l' (S i)
         end) l 0%nat
  | _ => []
  end.

(** The two patterns of [_is_valid_reference_format]:
    [^[a-z0-9.-]+/[a-z0-9-]+$] and [^[a-z0-9.-]+/[a-z0-9-]+:\d+\.\d+\.\d+$]. *)
Definition reference_patterns : list regex :=
  [ Cat (Plus namespace_char) (Cat (Chr "/") (Plus name_char));
    Cat (Plus namespace_char)
        (Cat (Chr "/") (Cat (Plus name_char) (Cat (Chr ":") semver_body))) ].

Definition _is_valid_reference_format (reference : string) : bool :=
  existsb (fun pattern => re_match_anchored pattern reference) reference_patterns.

Record SingleReferenceResult : Type := mkSingleReferenceResult {
  rr_valid : bool;
  rr_errors : list Message;
  rr_warnings : list Message;
  rr_broken : bool;
  rr_target_exists : bool
}.

Definition _validate_reference (artifact_registry : Registry) (ref : Reference)
  : SingleReferenceResult :=
  match reference ref with
  | VStr ref_value =>
      let unregistered :=
        truthy artifact_registry && negb (has_key ref_value artifact_registry) in
      let warnings :=
        if unregistered then [ReferenceTargetNotFound (VStr ref_value)] else [] in
      if _is_valid_reference_format ref_value then
        mkSingleReferenceResult true [] warnings false (negb unregistered)
      else
        mkSingleReferenceResult false [InvalidReferenceFormat (VStr ref_value)]
          warnings true (negb unregistered)
  | _ =>
      mkSingleReferenceResult false [InvalidReferenceFormatAt (field ref)] [] true true
  end.

Record ReferenceResult : Type := mkReferenceResult {
  rf_valid : bool;
  rf_errors : list Message;
  rf_warnings : list Message;
  rf_broken_references : list Reference;
  rf_missing_targets : list Reference
}.

(** The body of [for ref in references]. *)
Definition reference_step (artifact_registry : Registry) (result : ReferenceResult)
    (ref : Reference) : ReferenceResult :=
  let ref_result := _validate_reference artifact_registry ref in
  mkReferenceResult
    (if rr_valid ref_result then rf_valid result else false)
    (if rr_valid ref_result then rf_errors result
     else rf_errors result ++ rr_errors ref_result)
    (rf_warnings result ++ rr_warnings ref_result)
    (if rr_broken ref_result then rf_broken_references result ++ [ref]
     else rf_broken_references result)
    (if rr_target_exists ref_result then rf_missing_targets result
     else rf_missing_targets result ++ [ref]).

(** [ReferenceValidator.validate_references] *)
Definition validate_references (artifact_registry : Registry) (artifact : value)
  : ReferenceResult :=
  fold_left (reference_step artifact_registry)
            (_extract_references artifact "")
            (mkReferenceResult true [] [] [] []).

(* ================================================================= *)
(** ** extended-validator.py: [ExtendedMCPValidator] and [main] *)

Module ExtendedValidationStatus.
Inductive t : Type := PASSED | FAILED | WARNING | SKIPPED.
End ExtendedValidationStatus.

Record PerformanceMetrics : Type := mkPerformanceMetrics {
  dependency_count : nat;
  endpoint_count : nat;
  reference_count : nat
}.

(** [ExtendedValidationResult].  A section left at its default, the empty
    dict, is [None]; [validation_time_seconds], the wall-clock duration, is
    not part of the model. *)
Record ExtendedValidationResult : Type := mkExtendedValidationResult {
  status : ExtendedValidationStatus.t;
  artifact_type : option value;
  errors : list Message;
  warnings : list Message;
  dependency_results : option DependencyResult;
  semantic_results : option SemanticResult;
  endpoint_results : option SimpleResult;
  naming_results : option NamingResult;
  reference_results : option ReferenceResult;
  circular_dependency_detected : bool;
  performance_metrics : option PerformanceMetrics
}.

(** The instance attributes of an [ExtendedMCPValidator] that validation
    reads: [self.schema] (see [validate_artifact]), [self.artifact_registry],
    and [self.endpoint_validator.validate_endpoints], whose HTTP probes are
    summarised by the result they produce for a document. *)
Record ExtendedMCPValidator : Type := mkExtendedMCPValidator {
  schema : option (value -> list Message);
  artifact_registry : Registry;
  endpoint_validator : value -> Py SimpleResult
}.

(** Lines 759-766. *)
Definition final_status (errors warnings : list Message) (strict : bool)
  : ExtendedValidationStatus.t :=
  if truthy errors then ExtendedValidationStatus.FAILED
  else if truthy warnings && strict then ExtendedValidationStatus.FAILED
  else if truthy warnings then ExtendedValidationStatus.WARNING
  else ExtendedValidationStatus.PASSED.

(** [len(artifact.get(key, []))] *)
Definition count_of (artifact : value) (key : string) : Py nat :=
  v <- py_get artifact key (VList []) ;;
  py_len v.

(** [ExtendedMCPValidator.validate_artifact_extended].  [file] is the outcome
    of opening [artifact_path] and parsing it with [yaml.safe_load]; the
    basic validation opens and parses the same file again. *)
Definition validate_artifact_extended (self : ExtendedMCPValidator)
    (file : Py value) (strict validate_endpoints : bool)
  : St ExtendedValidationResult :=
  match file with
  | Raise e =>
      retS (mkExtendedValidationResult ExtendedValidationStatus.FAILED None
              [FailedToLoadArtifact e] [] None None None None None false None)
  | Return artifact =>
      let basic_result := validate_artifact (schema self) file strict in
      dependency <~ validate_dependencies (artifact_registry self) artifact ;;
      semantic <~ liftS (validate_semantic_consistency artifact) ;;
      naming <~ liftS (validate_naming_specifications artifact) ;;
      let references := validate_references (artifact_registry self) artifact in
      endpoint <~ liftS (if validate_endpoints then endpoint_validator self artifact
                         else Return (mkSimpleResult true [] [])) ;;
      let errors :=
        vr_errors basic_result ++ dr_errors dependency ++ sr_errors semantic
        ++ nr_errors naming ++ rf_errors references ++ res_errors endpoint in
      let warnings :=
        vr_warnings basic_result ++ dr_warnings dependency ++ sr_warnings semantic
        ++ nr_warnings naming ++ rf_warnings references ++ res_warnings endpoint in
      let status := final_status errors warnings strict in
      n_deps <~ liftS (count_of artifact "dependsOn") ;;
      n_endpoints <~ liftS (count_of artifact "endpoints") ;;
      kind <~ liftS (py_get artifact "kind" (VStr "Unknown")) ;;
      retS (mkExtendedValidationResult status (Some kind) errors warnings
              (Some dependency) (Some semantic) (Some endpoint) (Some naming)
              (Some references)
              (truthy (dr_circular_dependencies dependency))
              (Some (mkPerformanceMetrics n_deps n_endpoints
                       (List.length (rf_broken_references references)))))
  end.

(** Line 953: [sys.exit(0 if result.status == ExtendedValidationStatus.PASSED else 1)]. *)
Definition exit_code (result : ExtendedValidationResult) : Z :=
  match status result with
  | ExtendedValidationStatus.PASSED => 0%Z
  | _ => 1%Z
  end.

(** What [parser.parse_args()] makes of the command line.  [argparse]
    ends the process itself in two cases: with status 0 after printing the
    help ([-h], [--help]), and with status 2 after a usage error (no
    [--artifact], an unknown option, a [--format] other than [text] or
    [json]).  Otherwise it returns the parsed arguments. *)
Inductive command_line (A : Type) : Type :=
| HelpRequested
| UsageError
| Parsed (args : A).
Arguments HelpRequested {A}.
Arguments UsageError {A}.
Arguments Parsed {A} args.

(** The arguments of the extended validator that decide what is validated
    and how; [--format] and [--show-metrics] only change what is printed. *)
Record Args : Type := mkArgs {
  args_strict : bool;
  args_validate_endpoints : bool
}.

(** [main].  [argv] is the outcome of [parser.parse_args()] (line 863);
    [artifact_exists] is [args.artifact.exists()] (line 866); [validator] is
    the outcome of lines 870-880, which read the registry file and the
    schema file and create the validator, and raise if either file cannot
    be read or parsed; [file] is the outcome of loading the artifact.  The
    validator is fresh, so its graph is empty.  Printing the report (lines
    890-950) is not modelled: [json.dumps] and the f-strings raise nothing
    on a report made of the values of [value].  The value is the exit
    status the process ends with; an exception that [main] does not catch
    is the value [Raise]. *)
Definition main (argv : command_line Args) (artifact_exists : bool)
    (validator : Py ExtendedMCPValidator) (file : Py value) : Py Z :=
  match argv with
  | HelpRequested => Return 0%Z
  | UsageError => Return 2%Z
  | Parsed args =>
      if negb artifact_exists then Return 1%Z else
      self <- validator ;;
      result <- fst (validate_artifact_extended self file (args_strict args)
                       (args_validate_endpoints args) empty_graph) ;;
      Return (exit_code result)
  end.

(* ================================================================= *)
(** ** extended-validator.py: [EndpointValidator]

    The HTTP probe is the one place where the validators reach outside the
    process.  [requests.get] and [response.json] are described by what they
    do to the caller: the [except] clause an exception reaches, or the
    response.  The elapsed time, [(end_time - start_time)], is counted in
    microseconds, the resolution of [timedelta]. *)

Inductive json_outcome : Type :=
| JsonObject                       (* [response.json()] is a dict *)
| JsonOther                        (* it is some other JSON value *)
| JsonDecodeError                  (* it raises [json.JSONDecodeError] *)
| JsonRaises (text : string).      (* it raises another exception [e]; [text] is [str(e)] *)

Inductive http_outcome : Type :=
| HttpTimeout                      (* [requests.exceptions.Timeout] *)
| HttpConnectionError              (* [requests.exceptions.ConnectionError] *)
| HttpRaises (text : string)       (* any other exception [e]; [text] is [str(e)] *)
| HttpResponse (status_code : Z) (elapsed : N) (body : json_outcome).

(** [f"{n}"] for an integer. *)
Definition str_of_Z (n : Z) : string :=
  DecimalString.NilEmpty.string_of_int (Z.to_int n).

Record SingleEndpointResult : Type := mkSingleEndpointResult {
  se_valid : bool;
  se_errors : list Message;
  se_warnings : list Message;
  se_status : string;
  se_response_time : option N
}.

(** The URL that is requested: [url] itself when it starts with [http://]
    or [https://], otherwise [f"{base_url}{url}"]. *)
Definition effective_url (base_url url : string) : string :=
  if String.prefix "http://" url || String.prefix "https://" url then url
  else (base_url ++ url)%string.

(** The [try] block of [_validate_single_endpoint], once [url] is known. *)
Definition probe_endpoint (http : string -> http_outcome) (url : string)
  : SingleEndpointResult :=
  match http url with
  | HttpResponse status_code elapsed body =>
      let status := str_of_Z status_code in
      let failed := (400 <=? status_code)%Z in
      let errors :=
        if failed
        then [EndpointMessage ("Endpoint returned error status: " ++ status)]
        else [] in
      match body with
      | JsonObject =>
          mkSingleEndpointResult (negb failed) errors [] status (Some elapsed)
      | JsonOther =>
          mkSingleEndpointResult (negb failed) errors
            [EndpointMessage "Endpoint response is not a valid JSON object"]
            status (Some elapsed)
      | JsonDecodeError =>
          mkSingleEndpointResult (negb failed) errors
            [EndpointMessage "Endpoint response is not valid JSON"]
            status (Some elapsed)
      | JsonRaises text =>
          mkSingleEndpointResult false
            (errors ++ [EndpointMessage ("Endpoint validation failed: " ++ text)])
            [] status (Some elapsed)
      end
  | HttpTimeout =>
      mkSingleEndpointResult false [EndpointMessage "Endpoint request timed out"]
        [] "timeout" None
  | HttpConnectionError =>
      mkSingleEndpointResult false [EndpointMessage "Could not connect to endpoint"]
        [] "connection_error" None
  | HttpRaises text =>
      mkSingleEndpointResult false
        [EndpointMessage ("Endpoint validation failed: " ++ text)] [] "unknown" None
  end.

(** [EndpointValidator._validate_single_endpoint] *)
Definition _validate_single_endpoint (http : string -> http_outcome)
    (endpoint : value) (base_url : string) : Py SingleEndpointResult :=
  has_url <- py_in "url" endpoint ;;
  if negb has_url then
    Return (mkSingleEndpointResult false
              [EndpointMessage "Endpoint missing 'url' field"] [] "unknown" None)
  else
  url <- py_getitem endpoint "url" ;;
  match url with
  | VStr u => Return (probe_endpoint http (effective_url base_url u))
  | _ => Raise AttributeError           (* [url.startswith] *)
  end.

(** [d[key] = v] on a dict whose keys are arbitrary hashable objects. *)
Fixpoint dict_update {A : Type} (key : value) (v : A) (d : list (value * A))
  : list (value * A) :=
  match d with
  | [] => [(key, v)]
  | (k, x) :: d' =>
      if node_eqb key k then (k, v) :: d' else (k, x) :: dict_update key v d'
  end.

Definition dict_set {A : Type} (key : value) (v : A) (d : list (value * A))
  : Py (list (value * A)) :=
  if unhashable key then Raise TypeError else Return (dict_update key v d).

Record EndpointResult : Type := mkEndpointResult {
  er_valid : bool;
  er_errors : list Message;
  er_warnings : list Message;
  er_endpoint_status : list (value * string);
  er_response_times : list (value * N)
}.

(** Truth value of [endpoint_result["response_time"]]: a float other than 0. *)
Definition elapsed_truthy (t : option N) : bool :=
  match t with
  | Some n => negb (N.eqb n 0)
  | None => false
  end.

(** The body of [for endpoint in endpoints]. *)
Definition endpoint_step (http : string -> http_outcome) (base_url : string)
    (result : EndpointResult) (endpoint : value) : Py EndpointResult :=
  endpoint_result <- _validate_single_endpoint http endpoint base_url ;;
  name <- py_get endpoint "name" (VStr "unknown") ;;
  statuses <- dict_set name (se_status endpoint_result) (er_endpoint_status result) ;;
  times <- (match se_response_time endpoint_result with
            | Some t =>
                if elapsed_truthy (Some t) then
                  name' <- py_get endpoint "name" (VStr "unknown") ;;
                  dict_set name' t (er_response_times result)
                else Return (er_response_times result)
            | None => Return (er_response_times result)
            end) ;;
  Return (mkEndpointResult
            (if se_valid endpoint_result then er_valid result else false)
            (if se_valid endpoint_result then er_errors result
             else er_errors result ++ se_errors endpoint_result)
            (er_warnings result ++ se_warnings endpoint_result)
            statuses times).

(** [EndpointValidator.validate_endpoints] *)
Definition validate_endpoints (http : string -> http_outcome) (artifact : value)
    (base_url : string) : Py EndpointResult :=
  let result := mkEndpointResult true [] [] [] [] in
  has_endpoints <- py_in "endpoints" artifact ;;
  if negb has_endpoints then Return result else
  endpoints <- py_getitem artifact "endpoints" ;;
  match endpoints with
  | VList l => foldM (endpoint_step http base_url) result l
  | _ => Return (mkEndpointResult false [EndpointMessage "endpoints must be an array"]
                   [] [] [])
  end.

(* ================================================================= *)
(** ** validator.py: [main] *)



(* ================================================================= *)
(** * Properties *)

(** ** Sample documents *)

Definition plain_validator : ExtendedMCPValidator :=
  mkExtendedMCPValidator None [] (fun _ => Return (mkSimpleResult true [] [])).

(** [{apiVersion: v1, kind: Manifest, metadata: {name: test-artifact,
      version: 1.0.0, semanticType: manifest}, spec: {},
      dependsOn: [{artifact: a, purpose: config}]}] *)
Definition scenario_document : value :=
  VDict [ ("apiVersion", VStr "v1");
          ("kind", VStr "Manifest");
          ("metadata", VDict [ ("name", VStr "test-artifact");
                               ("version", VStr "1.0.0");
                               ("semanticType", VStr "manifest") ]);
          ("spec", VDict []);
          ("dependsOn", VList [ VDict [ ("artifact", VStr "a");
                                        ("purpose", VStr "config") ] ]) ].

(** The two artifacts of [test_validate_circular_dependencies]. *)
Definition artifact_a : value :=
  VDict [ ("metadata", VDict [ ("name", VStr "artifact-a") ]);
          ("dependsOn", VList [ VDict [ ("artifact", VStr "artifact-b");
                                        ("purpose", VStr "reference") ] ]) ].

Definition artifact_b : value :=
  VDict [ ("metadata", VDict [ ("name", VStr "artifact-b") ]);
          ("dependsOn", VList [ VDict [ ("artifact", VStr "artifact-a");
                                        ("purpose", VStr "reference") ] ]) ].

(** The artifact of [test_validate_semantic_relationships]. *)
Definition relationship_artifact : list (string * value) :=
  [ ("metadata", VDict [ ("name", VStr "test-manifest");
                         ("semanticType", VStr "manifest") ]);
    ("apiVersion", VStr "mcp.io/v1");
    ("kind", VStr "Manifest");
    ("spec", VDict []);
    ("dependsOn", VList [ VDict [ ("artifact", VStr "com.example/invalid-dependency");
                                  ("semanticType", VStr "invalid-type");
                                  ("purpose", VStr "reference") ] ]) ].

(** The report on the empty mapping [{}], validated by a fresh validator. *)
Definition empty_document_report : ExtendedValidationResult :=
  mkExtendedValidationResult ExtendedValidationStatus.FAILED
    (Some (VStr "Unknown"))
    [ MissingRequiredField "apiVersion"; MissingRequiredField "kind";
      MissingRequiredField "metadata"; MissingSemanticType; MissingMetadata ]
    []
    (Some empty_dependency_result)
    (Some (mkSemanticResult false [MissingSemanticType] [] [] []))
    (Some (mkSimpleResult true [] []))
    (Some (mkNamingResult false [MissingMetadata] [] None None None))
    (Some (mkReferenceResult true [] [] [] []))
    false
    (Some (mkPerformanceMetrics 0 0 0)).

(** ["a/b\n"] *)
Definition newline_reference : string := "a/b" ++ String newline EmptyString.




(** The reference grammar in the specification's words:
    [namespace/artifact-name] or [namespace/artifact-name:X.Y.Z], with
    lowercase alphanumerics, dots and hyphens in the namespace, lowercase
    alphanumerics and hyphens in the name, and a three-part numeric
    version. *)
Definition is_lower (c : ascii) : bool :=
  (nat_of_ascii "a" <=? nat_of_ascii c)%nat && (nat_of_ascii c <=? nat_of_ascii "z")%nat.

Definition is_digit (c : ascii) : bool :=
  (nat_of_ascii "0" <=? nat_of_ascii c)%nat && (nat_of_ascii c <=? nat_of_ascii "9")%nat.

Definition is_namespace_char (c : ascii) : bool :=
  is_lower c || is_digit c || Ascii.eqb c "." || Ascii.eqb c "-".

Definition is_name_char (c : ascii) : bool :=
  is_lower c || is_digit c || Ascii.eqb c "-".

Fixpoint all_chars (p : ascii -> bool) (s : string) : bool :=
  match s with
  | EmptyString => true
  | String c s' => p c && all_chars p s'
  end.

(** A non-empty string of characters of the class [p]. *)
Definition word_of (p : ascii -> bool) (s : string) : Prop :=
  nonempty s = true /\ all_chars p s = true.

Definition numeric_version (v : string) : Prop :=
  exists x y z,
    word_of is_digit x /\ word_of is_digit y /\ word_of is_digit z
    /\ v = (x ++ "." ++ y ++ "." ++ z)%string.

(** The characters a reference of the grammar is made of. *)
Definition is_reference_char (c : ascii) : bool :=
  is_namespace_char c || Ascii.eqb c "/" || Ascii.eqb c ":".

Definition grammatical_reference (s : string) : Prop :=
  exists namespace name,
    word_of is_namespace_char namespace /\ word_of is_name_char name
    /\ (s = (namespace ++ "/" ++ name)%string
        \/ exists v, numeric_version v
                     /\ s = (namespace ++ "/" ++ name ++ ":" ++ v)%string).

(** The warnings the specification asks of the relationship check: one per
    dependency declaration that carries a [semanticType] outside the
    [can_depend_on] set of the source type, in the order of [dependsOn]. *)
Definition expected_relationship_warnings (semantic_type : value)
    (allowed : list string) (deps : list value) : list Message :=
  flat_map (fun dep =>
              match dep with
              | VDict entry =>
                  match assoc "semanticType" entry with
                  | Some dep_type =>
                      if in_str_list dep_type allowed then []
                      else [CannotDependOn semantic_type dep_type allowed]
                  | None => []
                  end
              | _ => []
              end) deps.

(** The diagnostics of the schema check of a semantic type. *)
Definition is_schema_violation (m : Message) : Prop :=
  match m with
  | MissingRequiredFieldFor _ _ | UnexpectedFieldFor _ _ => True
  | _ => False
  end.

(** The naming registries of
    [test_validate_naming_specifications_invalid_namespace] and
    [test_validate_naming_specifications_invalid_version]. *)
Definition invalid_namespace_registry : list (string * value) :=
  [ ("format", VStr "reverse-DNS"); ("namespace", VStr "invalid-namespace") ].

Definition unverified_namespace_registry : list (string * value) :=
  [ ("format", VStr "reverse-DNS"); ("namespace", VStr "io.github.username") ].

(** The language of a regular expression, as the documentation of [re]
    defines it; [fullmatch] is checked against it below. *)
Inductive matches : regex -> string -> Prop :=
| MEps : matches Eps EmptyString
| MChr (c : ascii) : matches (Chr c) (String c EmptyString)
| MCharSet (c : ascii) (ranges : list (ascii * ascii)) :
    existsb (in_range c) ranges = true ->
    matches (CharSet ranges) (String c EmptyString)
| MCat (r1 r2 : regex) (s1 s2 : string) :
    matches r1 s1 -> matches r2 s2 -> matches (Cat r1 r2) (s1 ++ s2)%string
| MAltL (r1 r2 : regex) (s : string) : matches r1 s -> matches (Alt r1 r2) s
| MAltR (r1 r2 : regex) (s : string) : matches r2 s -> matches (Alt r1 r2) s
| MStarNil (r : regex) : matches (Star r) EmptyString
| MStarApp (r : regex) (s1 s2 : string) :
    matches r s1 -> matches (Star r) s2 -> matches (Star r) (s1 ++ s2)%string.

(** [P] holds of [s], or of [s] without its final newline: what a pattern
    [^R$] accepts when [R] accepts [P]. *)
Definition up_to_newline (P : string -> Prop) (s : string) : Prop :=
  P s \/ exists s', s = (s' ++ String newline EmptyString)%string /\ P s'.

(** What [\d+] accepts: a non-empty sequence of decimal digits, of any
    script, each the string of its encoding. *)
Definition decimal_digit (t : string) : Prop := In t decimal_digits.

Inductive sequence_of (P : string -> Prop) : string -> Prop :=
| sequence_one (d : string) : P d -> sequence_of P d
| sequence_more (d s : string) :
    P d -> sequence_of P s -> sequence_of P (d ++ s)%string.

Definition decimal_number : string -> Prop := sequence_of decimal_digit.

(** [X.Y.Z], each part a decimal number. *)
Definition decimal_version (v : string) : Prop :=
  exists x y z,
    decimal_number x /\ decimal_number y /\ decimal_number z
    /\ v = (x ++ "." ++ y ++ "." ++ z)%string.

(** [namespace/artifact-name] or [namespace/artifact-name:X.Y.Z], with
    [X.Y.Z] as the patterns of the source read it. *)
Definition reference_form (s : string) : Prop :=
  exists namespace name,
    word_of is_namespace_char namespace /\ word_of is_name_char name
    /\ (s = (namespace ++ "/" ++ name)%string
        \/ exists v, decimal_version v
                     /\ s = (namespace ++ "/" ++ name ++ ":" ++ v)%string).

(** The version [1.2.3] in Arabic-Indic digits (U+0661, U+0662, U+0663). *)
Definition arabic_indic_version : string :=
  (utf8 0x661 ++ "." ++ utf8 0x662 ++ "." ++ utf8 0x663)%string.

Definition is_tag_char (c : ascii) : bool :=
  is_lower c
  || ((nat_of_ascii "A" <=? nat_of_ascii c)%nat && (nat_of_ascii c <=? nat_of_ascii "Z")%nat)
  || is_digit c || Ascii.eqb c "-".

(** [X.Y.Z-tag] and [X.Y.Z+tag] *)
Definition prerelease_version (s : string) : Prop :=
  exists v tag, decimal_version v /\ word_of is_tag_char tag
                /\ s = (v ++ "-" ++ tag)%string.

Definition build_version (s : string) : Prop :=
  exists v tag, decimal_version v /\ word_of is_tag_char tag
                /\ s = (v ++ "+" ++ tag)%string.

(** A three-part decimal version behind one of the operators
    of [_is_valid_version_constraint]. *)
Definition constraint_operators : list string := [""; "^"; "~"; ">="; "<="].

Definition version_constraint (s : string) : Prop :=
  exists op v, In op constraint_operators /\ decimal_version v
               /\ s = (op ++ v)%string.

(** A dependency declaration the loop of [validate_dependencies] gets
    through: a mapping whose [artifact] is the string [target] and whose
    [version], if any, is a string. *)
Definition well_formed_dependency (dep : value) (target : string) : Prop :=
  exists entry,
    dep = VDict entry
    /\ assoc "artifact" entry = Some (VStr target)
    /\ (forall v, assoc "version" entry = Some v -> is_str v = true).

(** A key that marks a reference. *)
Definition is_reference_key (key : string) : bool :=
  endswith key "Ref" || endswith key "Reference".

(** [reference_value_at doc v]: [v] is the value of a reference key of
    [doc], reached through keys that are not reference keys and through
    list items. *)
Inductive reference_value_at : value -> value -> Prop :=
| reference_here (d : list (string * value)) (key : string) (v : value) :
    In (key, v) d -> is_reference_key key = true ->
    reference_value_at (VDict d) v
| reference_below_key (d : list (string * value)) (key : string) (x v : value) :
    In (key, x) d -> is_reference_key key = false ->
    reference_value_at x v ->
    reference_value_at (VDict d) v
| reference_below_item (l : list value) (x v : value) :
    In x l -> reference_value_at x v ->
    reference_value_at (VList l) v.

(** Induction on documents, through their lists and mappings. *)
Fixpoint value_nested_ind (P : value -> Prop)
    (HNone : P VNone) (HBool : forall b, P (VBool b)) (HInt : forall z, P (VInt z))
    (HStr : forall s, P (VStr s))
    (HList : forall l, Forall P l -> P (VList l))
    (HDict : forall d, Forall (fun kv => P (snd kv)) d -> P (VDict d))
    (v : value) {struct v} : P v :=
  match v with
  | VNone => HNone
  | VBool b => HBool b
  | VInt z => HInt z
  | VStr s => HStr s
  | VList l =>
      HList l
        ((fix items (l : list value) : Forall P l :=
            match l with
            | [] => Forall_nil P
            | x :: l' =>
                Forall_cons x
                  (value_nested_ind P HNone HBool HInt HStr HList HDict x)
                  (items l')
            end) l)
  | VDict d =>
      HDict d
        ((fix entries (d : list (string * value))
            : Forall (fun kv => P (snd kv)) d :=
            match d with
            | [] => Forall_nil _
            | kv :: d' =>
                Forall_cons kv
                  (value_nested_ind P HNone HBool HInt HStr HList HDict (snd kv))
                  (entries d')
            end) d)
  end.

(** What the basic validator asks of a document with no schema loaded: the
    three top-level fields; a name [namespace/artifact-name], a version
    [MAJOR.MINOR.PATCH] and a known semantic type in [metadata], the name
    and the version as the patterns of the source read them (with or
    without one final newline, in the decimal digits of any script); a
    naming registry, if any, in the format ["reverse-DNS"]; and a
    [dependsOn], if any, that is a list of mappings with [artifact] and
    [purpose]. *)
Definition qualified_name (s : string) : Prop :=
  exists namespace name,
    word_of is_namespace_char namespace /\ word_of is_name_char name
    /\ s = (namespace ++ "/" ++ name)%string.

Definition acceptable_dependency (dep : value) : Prop :=
  exists entry,
    dep = VDict entry
    /\ has_key "artifact" entry = true /\ has_key "purpose" entry = true.

Definition acceptable_metadata_naming (metadata : list (string * value)) : Prop :=
  (exists n, assoc "name" metadata = Some (VStr n) /\ up_to_newline qualified_name n)
  /\ (exists v, assoc "version" metadata = Some (VStr v)
                /\ up_to_newline decimal_version v)
  /\ (assoc "namingRegistry" metadata = None
      \/ exists registry,
           assoc "namingRegistry" metadata = Some (VDict registry)
           /\ assoc "format" registry = Some (VStr "reverse-DNS")).

Definition acceptable_metadata (metadata : list (string * value)) : Prop :=
  acceptable_metadata_naming metadata
  /\ exists t, assoc "semanticType" metadata = Some (VStr t) /\ In t valid_types.

Definition basic_acceptable (d : list (string * value)) : Prop :=
  has_key "apiVersion" d = true
  /\ has_key "kind" d = true
  /\ (exists metadata,
         assoc "metadata" d = Some (VDict metadata) /\ acceptable_metadata metadata)
  /\ (assoc "dependsOn" d = None
      \/ exists deps, assoc "dependsOn" d = Some (VList deps)
                      /\ Forall acceptable_dependency deps).

(** A document the basic validator accepts. *)
Definition qualified_document : list (string * value) :=
  [ ("apiVersion", VStr "mcp.io/v1");
    ("kind", VStr "Manifest");
    ("metadata", VDict [ ("name", VStr "io.github.user/tool");
                         ("version", VStr "2.1.0");
                         ("semanticType", VStr "toolchain") ]);
    ("dependsOn", VList [ VDict [ ("artifact", VStr "com.example/config");
                                  ("purpose", VStr "configuration") ] ]) ].

(** An endpoint that answers: its [url] is a string, and the request to the
    effective URL gets a response with a status below 400 whose body can be
    examined. *)
Definition endpoint_answers (http : string -> http_outcome) (base_url : string)
    (endpoint : value) : Prop :=
  exists u status_code elapsed body,
    py_in "url" endpoint = Return true
    /\ py_getitem endpoint "url" = Return (VStr u)
    /\ http (effective_url base_url u) = HttpResponse status_code elapsed body
    /\ (status_code < 400)%Z
    /\ (forall text, body <> JsonRaises text).

(** A probe for the examples: [/api/v1/status] answers 200 with a JSON
    object, everything else 404 with a page that is not JSON. *)
Definition sample_http (url : string) : http_outcome :=
  if String.eqb url "http://localhost:8080/api/v1/status"
  then HttpResponse 200 1500 JsonObject
  else HttpResponse 404 900 JsonDecodeError.

(** [d.get(key)] on a dict whose keys are arbitrary hashable objects. *)
Fixpoint dict_lookup {A : Type} (key : value) (d : list (value * A)) : option A :=
  match d with
  | [] => None
  | (k, x) :: d' => if node_eqb key k then Some x else dict_lookup key d'
  end.

Definition dict_has {A : Type} (key : value) (d : list (value * A)) : Prop :=
  dict_lookup key d <> None.

(* ================================================================= *)
(** ** The monads *)

Lemma empty_document_run :
  validate_artifact_extended plain_validator (Return (VDict [])) false false empty_graph
  = (Return empty_document_report, empty_graph).
Proof. reflexivity. Qed.

Lemma bind_Return {A B : Type} (m : Py A) (k : A -> Py B) (b : B) :
  bind m k = Return b -> exists a, m = Return a /\ k a = Return b.
Proof.
  destruct m as [a | e]; simpl; intros H; [eauto | discriminate].
Qed.

Lemma bindS_Return {A B : Type} (m : St A) (k : A -> St B) g b g2 :
  bindS m k g = (Return b, g2) ->
  exists a g1, m g = (Return a, g1) /\ k a g1 = (Return b, g2).
Proof.
  unfold bindS. destruct (m g) as [[a | e] g1]; intros H.
  - eauto.
  - discriminate.
Qed.

Lemma bindS_Raise {A B : Type} (m : St A) (k : A -> St B) g e g1 :
  m g = (Raise e, g1) -> bindS m k g = (Raise e, g1).
Proof. unfold bindS. intros ->. reflexivity. Qed.

Lemma bindS_step {A B : Type} (m : St A) (k : A -> St B) g a g1 :
  m g = (Return a, g1) -> bindS m k g = k a g1.
Proof. unfold bindS. intros ->. reflexivity. Qed.

(* ================================================================= *)
(** ** Cycle detection (C1) *)

(** No call of [validate_dependencies] on an artifact with a list-valued
    [dependsOn] returns a result: the ones that reach the cycle check stop
    at [nx.find_cycles]. *)
Lemma validate_dependencies_list_never_returns registry d deps g :
  assoc "dependsOn" d = Some (VList deps) ->
  exists e g', validate_dependencies registry (VDict d) g = (Raise e, g').
Proof.
  intros Hdeps. unfold validate_dependencies, bindS, liftS, retS.
  cbn [py_in py_getitem]. unfold has_key. rewrite Hdeps. cbn [negb].
  destruct (artifact_node (VDict d)) as [node | e]; [| eauto].
  destruct (add_node node g) as [[[] | e] g1]; [| eauto].
  destruct (dependencies_loop registry (VDict d) 0 deps empty_dependency_result g1)
    as [[result | e] g2]; [| eauto].
  unfold nx_find_cycles. eauto.
Qed.

(** C1 (the code departs from the claim).  The batch of
    [test_validate_circular_dependencies]: the artifact [artifact-a], which
    depends on [artifact-b], and then [artifact-b], which depends on
    [artifact-a], are validated by one [DependencyValidator].  After the
    second call the graph holds the cycle [artifact-a -> artifact-b ->
    artifact-a], but neither call returns a result with [valid = false] and
    the cycle listed: each raises [AttributeError], because [networkx] has
    no function [find_cycles]. *)
Theorem validate_dependencies_cycle_raises :
  let first := validate_dependencies [] artifact_a empty_graph in
  let second := validate_dependencies [] artifact_b (snd first) in
  fst first = Raise AttributeError
  /\ fst second = Raise AttributeError
  /\ edges (snd second) =
       [ (VStr "artifact-a", VStr "artifact-b");
         (VStr "artifact-b", VStr "artifact-a") ].
Proof. vm_compute. repeat split. Qed.

(* ================================================================= *)
(** ** The scenario document (C2) *)

(** C2 (the code departs from the claim).  On the scenario document, with no
    registry, no schema and strict mode off, [validate_artifact_extended]
    does not report [passed]: it raises [AttributeError] in the dependency
    section (the missing [nx.find_cycles]).  Independently of that, the
    basic validation it runs first rejects the name [test-artifact], which
    has no [namespace/] part, and the naming section raises [KeyError] on
    the key [pattern]. *)
Theorem scenario_document_not_passed :
  fst (validate_artifact_extended plain_validator (Return scenario_document)
         false false empty_graph) = Raise AttributeError
  /\ vr_errors (validate_artifact None (Return scenario_document) false)
     = [InvalidNameFormat (VStr "test-artifact")]
  /\ validate_naming_specifications scenario_document = Raise (KeyError "pattern").
Proof. vm_compute. repeat split. Qed.

(* ================================================================= *)
(** ** The reference grammar (C7) *)

Lemma fullmatch_Empty s : fullmatch Empty s = false.
Proof. induction s; simpl; auto. Qed.

Lemma fullmatch_Alt r1 r2 s :
  fullmatch (Alt r1 r2) s = fullmatch r1 s || fullmatch r2 s.
Proof.
  revert r1 r2. induction s as [| c s IH]; intros r1 r2; simpl.
  - reflexivity.
  - apply IH.
Qed.

(** Concatenation: a match of [r1] followed by a match of [r2]. *)
Lemma fullmatch_Cat r1 r2 s1 s2 :
  fullmatch r1 s1 = true -> fullmatch r2 s2 = true ->
  fullmatch (Cat r1 r2) (s1 ++ s2)%string = true.
Proof.
  revert r1. induction s1 as [| c s1 IH]; intros r1 H1 H2; simpl in *.
  - destruct s2 as [| c s2]; simpl in *.
    + rewrite H1, H2. reflexivity.
    + rewrite H1. rewrite fullmatch_Alt, H2. apply orb_true_r.
  - destruct (nullable r1).
    + rewrite fullmatch_Alt, (IH _ H1 H2). reflexivity.
    + apply IH; assumption.
Qed.

Lemma fullmatch_Eps_Cat r s : fullmatch (Cat Eps r) s = fullmatch r s.
Proof.
  destruct s as [| c s]; simpl.
  - reflexivity.
  - rewrite fullmatch_Alt.
    assert (H : forall t, fullmatch (Cat Empty r) t = false).
    { induction t; simpl; auto. }
    rewrite H. reflexivity.
Qed.

Lemma fullmatch_Star_CharSet ranges s :
  all_chars (fun c => existsb (in_range c) ranges) s = true ->
  fullmatch (Star (CharSet ranges)) s = true.
Proof.
  induction s as [| c s IH]; simpl; intros H.
  - reflexivity.
  - apply andb_true_iff in H. destruct H as [Hc Hs].
    rewrite Hc. rewrite fullmatch_Eps_Cat. apply IH, Hs.
Qed.

Lemma all_chars_ext p q s :
  (forall c, p c = q c) -> all_chars p s = all_chars q s.
Proof.
  intros H. induction s as [| c s IH]; simpl; [reflexivity |].
  rewrite H, IH. reflexivity.
Qed.

(** [[...]+] matches the non-empty words over the class. *)
Lemma fullmatch_Plus_CharSet p ranges s :
  (forall c, p c = existsb (in_range c) ranges) ->
  word_of p s -> fullmatch (Plus (CharSet ranges)) s = true.
Proof.
  intros Hp [Hne Hall]. rewrite (all_chars_ext _ _ _ Hp) in Hall.
  destruct s as [| c s]; [discriminate Hne |].
  simpl in *. apply andb_true_iff in Hall. destruct Hall as [Hc Hs].
  rewrite Hc. rewrite fullmatch_Eps_Cat. apply fullmatch_Star_CharSet, Hs.
Qed.

Lemma namespace_char_class c :
  is_namespace_char c = existsb (in_range c) [("a", "z"); ("0", "9"); (".", "."); ("-", "-")]%char.
Proof. destruct c as [[] [] [] [] [] [] [] []]; reflexivity. Qed.

Lemma name_char_class c :
  is_name_char c = existsb (in_range c) [("a", "z"); ("0", "9"); ("-", "-")]%char.
Proof. destruct c as [[] [] [] [] [] [] [] []]; reflexivity. Qed.

(** One more match of [r] in front of a match of [r*]. *)
Lemma fullmatch_Star_app r s1 s2 :
  s1 <> EmptyString ->
  fullmatch r s1 = true -> fullmatch (Star r) s2 = true ->
  fullmatch (Star r) (s1 ++ s2)%string = true.
Proof.
  destruct s1 as [| c t]; [congruence |]. intros _ H1 H2.
  change (fullmatch (Cat (deriv c r) (Star r)) (t ++ s2)%string = true).
  apply fullmatch_Cat; assumption.
Qed.

(** The digits [0-9] are decimal digits, so [\d] matches them. *)
Lemma fullmatch_ascii_digit c :
  is_digit c = true -> fullmatch digit (String c EmptyString) = true.
Proof.
  destruct c as [[] [] [] [] [] [] [] []]; intros H; try discriminate H;
    vm_compute; reflexivity.
Qed.

Lemma fullmatch_Star_digits s :
  all_chars is_digit s = true -> fullmatch (Star digit) s = true.
Proof.
  induction s as [| c s IH]; intros H; [reflexivity |].
  cbn [all_chars] in H. apply andb_true_iff in H. destruct H as [Hc Hs].
  change (String c s) with (String c EmptyString ++ s)%string.
  apply fullmatch_Star_app; [discriminate | apply fullmatch_ascii_digit, Hc | apply IH, Hs].
Qed.

Lemma fullmatch_Plus_digits s :
  word_of is_digit s -> fullmatch (Plus digit) s = true.
Proof.
  intros [Hne Hall]. destruct s as [| c s]; [discriminate Hne |].
  cbn [all_chars] in Hall. apply andb_true_iff in Hall. destruct Hall as [Hc Hs].
  change (String c s) with (String c EmptyString ++ s)%string.
  apply fullmatch_Cat; [apply fullmatch_ascii_digit, Hc | apply fullmatch_Star_digits, Hs].
Qed.

Lemma fullmatch_semver v : numeric_version v -> fullmatch semver_body v = true.
Proof.
  intros (x & y & z & Hx & Hy & Hz & ->). unfold semver_body.
  apply fullmatch_Cat; [apply fullmatch_Plus_digits, Hx |].
  apply (fullmatch_Cat dot _ "."); [reflexivity |].
  apply fullmatch_Cat; [apply fullmatch_Plus_digits, Hy |].
  apply (fullmatch_Cat dot _ "."); [reflexivity |].
  apply fullmatch_Plus_digits, Hz.
Qed.

(** The first half of C7 holds: every reference of the grammar is reported
    valid and not broken, with or without a registry. *)
Lemma grammatical_reference_accepted registry field_path s :
  grammatical_reference s ->
  let r := _validate_reference registry (mkReference field_path (VStr s)) in
  _is_valid_reference_format s = true
  /\ rr_valid r = true /\ rr_broken r = false /\ rr_errors r = [].
Proof.
  intros (ns & name & Hns & Hname & Hs).
  assert (Hfmt : _is_valid_reference_format s = true).
  { unfold _is_valid_reference_format, reference_patterns, re_match_anchored.
    cbn [existsb].
    destruct Hs as [-> | (v & Hv & ->)].
    - apply orb_true_iff. left. apply orb_true_iff. left.
      apply fullmatch_Cat;
        [apply (fullmatch_Plus_CharSet is_namespace_char), Hns; apply namespace_char_class |].
      apply (fullmatch_Cat (Chr "/") _ "/"); [reflexivity |].
      apply (fullmatch_Plus_CharSet is_name_char), Hname. apply name_char_class.
    - apply orb_true_iff. right. apply orb_true_iff. left.
      apply orb_true_iff. left.
      apply fullmatch_Cat;
        [apply (fullmatch_Plus_CharSet is_namespace_char), Hns; apply namespace_char_class |].
      apply (fullmatch_Cat (Chr "/") _ "/"); [reflexivity |].
      apply fullmatch_Cat;
        [apply (fullmatch_Plus_CharSet is_name_char), Hname; apply name_char_class |].
      apply (fullmatch_Cat (Chr ":") _ ":"); [reflexivity |].
      apply fullmatch_semver, Hv. }
  cbv zeta. split; [exact Hfmt |].
  unfold _validate_reference. cbn [reference]. rewrite Hfmt.
  repeat split; reflexivity.
Qed.

Lemma all_chars_app p s1 s2 :
  all_chars p (s1 ++ s2)%string = all_chars p s1 && all_chars p s2.
Proof.
  induction s1 as [| c s1 IH]; simpl; [reflexivity |].
  rewrite IH. apply andb_assoc.
Qed.

Lemma all_chars_weaken (p q : ascii -> bool) s :
  (forall c, p c = true -> q c = true) ->
  all_chars p s = true -> all_chars q s = true.
Proof.
  intros Hpq. induction s as [| c s IH]; simpl; [reflexivity |].
  intros H. apply andb_true_iff in H. destruct H as [Hc Hs].
  rewrite (Hpq c Hc), (IH Hs). reflexivity.
Qed.

Lemma word_reference_chars p s :
  (forall c, p c = true -> is_reference_char c = true) ->
  word_of p s -> all_chars is_reference_char s = true.
Proof. intros Hp [_ Hall]. exact (all_chars_weaken _ _ _ Hp Hall). Qed.

Lemma namespace_char_reference c :
  is_namespace_char c = true -> is_reference_char c = true.
Proof.
  unfold is_reference_char. intros ->. reflexivity.
Qed.

Lemma name_char_reference c :
  is_name_char c = true -> is_reference_char c = true.
Proof.
  unfold is_reference_char, is_name_char, is_namespace_char.
  destruct (is_lower c), (is_digit c), (Ascii.eqb c "-"), (Ascii.eqb c ".");
    simpl; intros H; (reflexivity || discriminate H).
Qed.

Lemma digit_reference c : is_digit c = true -> is_reference_char c = true.
Proof.
  unfold is_reference_char, is_namespace_char. intros ->.
  rewrite orb_true_r. reflexivity.
Qed.

(** Every character of a reference of the grammar is a lowercase
    alphanumeric, a dot, a hyphen, a slash or a colon. *)
Lemma grammatical_reference_chars s :
  grammatical_reference s -> all_chars is_reference_char s = true.
Proof.
  intros (ns & name & Hns & Hname & Hs).
  pose proof (word_reference_chars _ _ namespace_char_reference Hns) as Hns'.
  pose proof (word_reference_chars _ _ name_char_reference Hname) as Hname'.
  destruct Hs as [-> | (v & (x & y & z & Hx & Hy & Hz & ->) & ->)].
  - rewrite all_chars_app, Hns'. cbn [andb].
    change ("/" ++ name)%string with (String "/" name). cbn [all_chars].
    rewrite Hname'. reflexivity.
  - pose proof (word_reference_chars _ _ digit_reference Hx) as Hx'.
    pose proof (word_reference_chars _ _ digit_reference Hy) as Hy'.
    pose proof (word_reference_chars _ _ digit_reference Hz) as Hz'.
    rewrite all_chars_app, Hns'. cbn [andb].
    change ("/" ++ name ++ ":" ++ x ++ "." ++ y ++ "." ++ z)%string
      with (String "/" (name ++ String ":" (x ++ String "." (y ++ String "." z))))%string.
    cbn [all_chars].
    rewrite all_chars_app, Hname'. cbn [all_chars].
    rewrite all_chars_app, Hx'. cbn [all_chars].
    rewrite all_chars_app, Hy'. cbn [all_chars].
    rewrite Hz'. reflexivity.
Qed.

Lemma newline_reference_not_grammatical : ~ grammatical_reference newline_reference.
Proof.
  intros H. apply grammatical_reference_chars in H. discriminate H.
Qed.

(** C7 (the code departs from the claim).  The string ["a/b\n"], which ends
    in a newline and so is outside the grammar [namespace/artifact-name],
    is accepted: [$] matches before a final newline.  The reference is
    reported valid and is not recorded in [broken_references]. *)
Theorem reference_with_trailing_newline_accepted :
  ~ grammatical_reference newline_reference
  /\ _is_valid_reference_format newline_reference = true
  /\ _validate_reference [] (mkReference "configRef" (VStr newline_reference))
     = mkSingleReferenceResult true [] [] false true
  /\ validate_references [] (VDict [("configRef", VStr newline_reference)])
     = mkReferenceResult true [] [] [] [].
Proof.
  split; [exact newline_reference_not_grammatical |].
  vm_compute. repeat split.
Qed.

(* ================================================================= *)
(** ** The aggregation *)

Lemma liftS_Return {A : Type} (m : Py A) g a g1 :
  liftS m g = (Return a, g1) -> m = Return a /\ g1 = g.
Proof. unfold liftS. intros H. injection H as -> ->. split; reflexivity. Qed.

(** What a run of [validate_artifact_extended] that returns has done: the
    sections that ran, and the report assembled from them. *)
Lemma validate_artifact_extended_inv self artifact strict validate_endpoints g result g' :
  validate_artifact_extended self (Return artifact) strict validate_endpoints g
    = (Return result, g') ->
  exists dependency semantic naming endpoint n_deps n_endpoints kind,
    validate_dependencies (artifact_registry self) artifact g = (Return dependency, g')
    /\ validate_semantic_consistency artifact = Return semantic
    /\ validate_naming_specifications artifact = Return naming
    /\ (if validate_endpoints then endpoint_validator self artifact
        else Return (mkSimpleResult true [] [])) = Return endpoint
    /\ count_of artifact "dependsOn" = Return n_deps
    /\ count_of artifact "endpoints" = Return n_endpoints
    /\ py_get artifact "kind" (VStr "Unknown") = Return kind
    /\ let basic_result := validate_artifact (schema self) (Return artifact) strict in
       let references := validate_references (artifact_registry self) artifact in
       let all_errors :=
         vr_errors basic_result ++ dr_errors dependency ++ sr_errors semantic
         ++ nr_errors naming ++ rf_errors references ++ res_errors endpoint in
       let all_warnings :=
         vr_warnings basic_result ++ dr_warnings dependency ++ sr_warnings semantic
         ++ nr_warnings naming ++ rf_warnings references ++ res_warnings endpoint in
       result =
         mkExtendedValidationResult (final_status all_errors all_warnings strict)
           (Some kind) all_errors all_warnings
           (Some dependency) (Some semantic) (Some endpoint) (Some naming)
           (Some references)
           (truthy (dr_circular_dependencies dependency))
           (Some (mkPerformanceMetrics n_deps n_endpoints
                    (List.length (rf_broken_references references)))).
Proof.
  unfold validate_artifact_extended. intros H.
  apply bindS_Return in H. destruct H as (dependency & g1 & Hdep & H).
  apply bindS_Return in H. destruct H as (semantic & g2 & Hsem & H).
  apply liftS_Return in Hsem. destruct Hsem as [Hsem ->].
  apply bindS_Return in H. destruct H as (naming & g3 & Hnam & H).
  apply liftS_Return in Hnam. destruct Hnam as [Hnam ->].
  apply bindS_Return in H. destruct H as (endpoint & g4 & Hep & H).
  apply liftS_Return in Hep. destruct Hep as [Hep ->].
  apply bindS_Return in H. destruct H as (n_deps & g5 & Hnd & H).
  apply liftS_Return in Hnd. destruct Hnd as [Hnd ->].
  apply bindS_Return in H. destruct H as (n_endpoints & g6 & Hne & H).
  apply liftS_Return in Hne. destruct Hne as [Hne ->].
  apply bindS_Return in H. destruct H as (kind & g7 & Hkind & H).
  apply liftS_Return in Hkind. destruct Hkind as [Hkind ->].
  unfold retS in H. injection H as <- <-.
  exists dependency, semantic, naming, endpoint, n_deps, n_endpoints, kind.
  repeat (split; [assumption |]). reflexivity.
Qed.

(** Strict mode changes neither the errors nor the warnings of the basic
    validation, only its status. *)
Lemma validate_artifact_strict_irrelevant sch file :
  vr_errors (validate_artifact sch file true) = vr_errors (validate_artifact sch file false)
  /\ vr_warnings (validate_artifact sch file true)
     = vr_warnings (validate_artifact sch file false).
Proof.
  unfold validate_artifact.
  destruct file as [artifact | e]; [| split; reflexivity].
  destruct (py_get artifact "kind" (VStr "Unknown")); [| split; reflexivity].
  destruct (_validate_structure artifact); [| split; reflexivity].
  destruct (_validate_naming artifact) as [[ne nw] |]; [| split; reflexivity].
  destruct (_validate_dependencies artifact); [| split; reflexivity].
  destruct (_validate_semantic_type artifact); split; reflexivity.
Qed.

(** A run that returns with strict mode off returns with strict mode on as
    well, from the same sections. *)
Lemma validate_artifact_extended_strict self file validate_endpoints g result g' :
  validate_artifact_extended self file false validate_endpoints g = (Return result, g') ->
  exists result',
    validate_artifact_extended self file true validate_endpoints g = (Return result', g')
    /\ errors result' = errors result
    /\ warnings result' = warnings result
    /\ status result = final_status (errors result) (warnings result) false
    /\ status result' = final_status (errors result) (warnings result) true.
Proof.
  destruct file as [artifact | e].
  - intros H. apply validate_artifact_extended_inv in H.
    destruct H as (dependency & semantic & naming & endpoint & n_deps & n_endpoints
                   & kind & Hdep & Hsem & Hnam & Hep & Hnd & Hne & Hkind & Hres).
    cbv zeta in Hres.
    destruct (validate_artifact_strict_irrelevant (schema self) (Return artifact))
      as [He Hw].
    eexists. split.
    + unfold validate_artifact_extended.
      rewrite (bindS_step _ _ _ _ _ Hdep).
      unfold liftS, bindS, retS.
      rewrite Hsem, Hnam, Hep, Hnd, Hne, Hkind. reflexivity.
    + subst result. cbn [errors warnings status]. rewrite He, Hw.
      repeat split; reflexivity.
  - simpl. unfold retS. intros H. injection H as <- <-.
    eexists. split; [reflexivity |]. repeat split; reflexivity.
Qed.

(* ================================================================= *)
(** ** Every report carries an error

    The basic validation wants [metadata.name]; the naming section raises
    as soon as [metadata.name] is there, because [_validate_artifact_name]
    reads a key that [artifact_patterns] does not have.  So whenever
    [validate_artifact_extended] returns a report, the report has an error
    and its status is [failed]. *)

Lemma _validate_artifact_name_raises name :
  _validate_artifact_name name = Raise (KeyError "pattern").
Proof. reflexivity. Qed.

Lemma foldM_cons {A B : Type} (f : B -> A -> Py B) acc x l :
  foldM f acc (x :: l) = bind (f acc x) (fun acc' => foldM f acc' l).
Proof. reflexivity. Qed.

Lemma missing_fields_loop_prefix (mk : string -> Message) container fields :
  forall acc res,
    foldM (fun errors field =>
             present <- py_in field container ;;
             Return (if present then errors else errors ++ [mk field]))
          acc fields = Return res ->
    exists rest, res = acc ++ rest.
Proof.
  induction fields as [| f fields IH]; simpl; intros acc res H.
  - injection H as <-. exists []. symmetry. apply app_nil_r.
  - apply bind_Return in H. destruct H as (acc' & Hstep & Hrest).
    apply bind_Return in Hstep. destruct Hstep as (present & _ & Hacc').
    injection Hacc' as <-.
    apply IH in Hrest. destruct Hrest as (rest & ->).
    destruct present.
    + exists rest. reflexivity.
    + exists ([mk f] ++ rest). rewrite app_assoc. reflexivity.
Qed.

Lemma _validate_structure_missing_name artifact metadata structure_errors :
  py_in "metadata" artifact = Return true ->
  py_getitem artifact "metadata" = Return metadata ->
  py_in "name" metadata = Return false ->
  _validate_structure artifact = Return structure_errors ->
  structure_errors <> [].
Proof.
  intros Hin Hget Hname H. unfold _validate_structure in H.
  apply bind_Return in H. destruct H as (errors1 & _ & H).
  rewrite Hin in H. cbn [bind] in H. rewrite Hget in H. cbn [bind] in H.
  apply bind_Return in H. destruct H as (more & Hmore & H).
  injection H as <-.
  unfold missing_fields in Hmore. rewrite foldM_cons in Hmore.
  rewrite Hname in Hmore. cbn [bind app] in Hmore.
  apply missing_fields_loop_prefix in Hmore. destruct Hmore as (rest & ->).
  intros Habs. apply app_eq_nil in Habs. destruct Habs as [_ Habs].
  discriminate Habs.
Qed.

Lemma app_not_nil_l {A : Type} (l l' : list A) : l <> [] -> l ++ l' <> [].
Proof. intros H Habs. apply app_eq_nil in Habs. apply H, Habs. Qed.

Lemma app_not_nil_r {A : Type} (l l' : list A) : l' <> [] -> l ++ l' <> [].
Proof. intros H Habs. apply app_eq_nil in Habs. apply H, Habs. Qed.

Lemma validate_artifact_missing_name sch artifact metadata strict :
  py_in "metadata" artifact = Return true ->
  py_getitem artifact "metadata" = Return metadata ->
  py_in "name" metadata = Return false ->
  vr_errors (validate_artifact sch (Return artifact) strict) <> [].
Proof.
  intros Hin Hget Hname. unfold validate_artifact, load_failure.
  destruct (py_get artifact "kind" (VStr "Unknown")); [| discriminate].
  destruct (_validate_structure artifact) as [structure_errors | e] eqn:Hs;
    [| discriminate].
  pose proof (_validate_structure_missing_name _ _ _ Hin Hget Hname Hs) as Hne.
  destruct (_validate_naming artifact) as [[ne nw] | e]; cbn [vr_errors];
    [| apply app_not_nil_l, Hne].
  destruct (_validate_dependencies artifact) as [de | e]; cbn [vr_errors];
    [| apply app_not_nil_l, app_not_nil_l, Hne].
  destruct (_validate_semantic_type artifact) as [se | e], sch; cbn [vr_errors];
    repeat apply app_not_nil_l; exact Hne.
Qed.

(** A naming section that returns has found no [metadata], or a [metadata]
    without [name]. *)
Lemma validate_naming_specifications_returns artifact naming :
  validate_naming_specifications artifact = Return naming ->
  nr_errors naming <> []
  \/ exists metadata,
       py_in "metadata" artifact = Return true
       /\ py_getitem artifact "metadata" = Return metadata
       /\ py_in "name" metadata = Return false.
Proof.
  unfold validate_naming_specifications. intros H.
  apply bind_Return in H. destruct H as (has_metadata & Hin & H).
  destruct has_metadata; cbn [negb] in H.
  2: { injection H as <-. left. discriminate. }
  apply bind_Return in H. destruct H as (metadata & Hget & H).
  apply bind_Return in H. destruct H as ([acc1 c1] & _ & H).
  apply bind_Return in H. destruct H as ([acc2 c2] & Hname & _).
  right. exists metadata. split; [exact Hin |]. split; [exact Hget |].
  unfold naming_block in Hname.
  apply bind_Return in Hname. destruct Hname as (present & Hpresent & Hname).
  destruct present; [| exact Hpresent].
  apply bind_Return in Hname. destruct Hname as (item & _ & Hname).
  rewrite _validate_artifact_name_raises in Hname. discriminate Hname.
Qed.

Lemma validate_artifact_extended_reports_errors
    self file strict validate_endpoints g result g' :
  validate_artifact_extended self file strict validate_endpoints g = (Return result, g') ->
  errors result <> [] /\ status result = ExtendedValidationStatus.FAILED.
Proof.
  intros H.
  assert (Hstatus : errors result <> [] ->
                    final_status (errors result) (warnings result) strict
                    = ExtendedValidationStatus.FAILED).
  { unfold final_status. destruct (errors result); [congruence | reflexivity]. }
  destruct file as [artifact | e].
  - apply validate_artifact_extended_inv in H.
    destruct H as (dependency & semantic & naming & endpoint & n_deps & n_endpoints
                   & kind & _ & _ & Hnam & _ & _ & _ & _ & Hres).
    cbv zeta in Hres.
    assert (Hne : errors result <> []).
    { subst result. cbn [errors].
      destruct (validate_naming_specifications_returns _ _ Hnam)
        as [Hnaming | (metadata & Hin & Hget & Hname)].
      - do 3 apply app_not_nil_r. apply app_not_nil_l, Hnaming.
      - apply app_not_nil_l.
        exact (validate_artifact_missing_name _ _ _ _ Hin Hget Hname). }
    split; [exact Hne |].
    rewrite <- (Hstatus Hne). subst result. reflexivity.
  - simpl in H. unfold retS in H. injection H as <- <-.
    split; [discriminate | reflexivity].
Qed.

(** The outcome of a run, but for the status of the report, is the same
    with and without strict mode. *)
Lemma validate_artifact_extended_strict_raise self file validate_endpoints g e g' :
  validate_artifact_extended self file false validate_endpoints g = (Raise e, g') ->
  validate_artifact_extended self file true validate_endpoints g = (Raise e, g').
Proof.
  destruct file as [artifact | e0]; [| discriminate].
  unfold validate_artifact_extended, bindS, liftS, retS.
  destruct (validate_dependencies (artifact_registry self) artifact g)
    as [[dependency | e1] g1]; [| exact (fun H => H)].
  destruct (validate_semantic_consistency artifact); [| exact (fun H => H)].
  destruct (validate_naming_specifications artifact); [| exact (fun H => H)].
  destruct (if validate_endpoints then endpoint_validator self artifact
            else Return (mkSimpleResult true [] [])); [| exact (fun H => H)].
  destruct (count_of artifact "dependsOn"); [| exact (fun H => H)].
  destruct (count_of artifact "endpoints"); [| exact (fun H => H)].
  destruct (py_get artifact "kind" (VStr "Unknown")); [discriminate | exact (fun H => H)].
Qed.

(* ================================================================= *)
(** ** The status rule (C3) *)



(* ================================================================= *)
(** ** Strict mode (C6) *)



(* ================================================================= *)
(** ** The exit code (C4) *)

(** Line 953 on its own: only the status [passed] gives the exit status 0.
    A report with the status [warning] would give 1 whatever the strict
    flag; no run of the validator produces one. *)
Lemma exit_code_zero_iff_passed result :
  exit_code result = 0%Z <-> status result = ExtendedValidationStatus.PASSED.
Proof.
  unfold exit_code. destruct (status result); split; intros H;
    (reflexivity || discriminate H).
Qed.



(* ================================================================= *)
(** ** Documents that are not mappings (C10) *)

(** On a list or a string, the dependency section either returns the empty
    result without touching the graph or raises. *)
Lemma validate_dependencies_non_mapping registry artifact g :
  is_dict artifact = false ->
  validate_dependencies registry artifact g = (Return empty_dependency_result, g)
  \/ exists e, validate_dependencies registry artifact g = (Raise e, g).
Proof.
  intros Hnd. unfold validate_dependencies, bindS, liftS, retS.
  destruct artifact as [| b | z | s | l | d]; try discriminate Hnd;
    cbn [py_in py_getitem]; try (right; eexists; reflexivity).
  - destruct (contains "dependsOn" s); cbn [negb];
      [right; eexists; reflexivity | left; reflexivity].
  - destruct (existsb _ l); cbn [negb];
      [right; eexists; reflexivity | left; reflexivity].
Qed.

(** C10.  If the file parses to a document that is not a mapping (null, a
    boolean, a number, a string or a list), [validate_artifact_extended]
    does not return a report: it raises.  The early return with a single
    error is taken exactly when loading the file raises. *)
Theorem non_mapping_document_raises self artifact strict validate_endpoints g :
  is_dict artifact = false ->
  (exists e g',
      validate_artifact_extended self (Return artifact) strict validate_endpoints g
        = (Raise e, g'))
  /\ (unhashable artifact = false -> is_str artifact = false ->
      validate_artifact_extended self (Return artifact) strict validate_endpoints g
      = (Raise TypeError, g))
  /\ (forall e,
         validate_artifact_extended self (Raise e) strict validate_endpoints g
         = (Return (mkExtendedValidationResult ExtendedValidationStatus.FAILED None
                      [FailedToLoadArtifact e] [] None None None None None false None),
            g)).
Proof.
  intros Hnd. split; [| split; [| intros e; reflexivity]].
  2: { destruct artifact; intros Hh Hs; try discriminate; reflexivity. }
  unfold validate_artifact_extended.
  destruct (validate_dependencies_non_mapping (artifact_registry self) artifact g Hnd)
    as [Hdep | [e Hdep]].
  2: { exists e, g. apply bindS_Raise. exact Hdep. }
  rewrite (bindS_step _ _ _ _ _ Hdep).
  unfold bindS, liftS, retS.
  destruct (validate_semantic_consistency artifact) as [semantic | e]; [| eauto].
  destruct (validate_naming_specifications artifact) as [naming | e]; [| eauto].
  destruct (if validate_endpoints then endpoint_validator self artifact
            else Return (mkSimpleResult true [] [])) as [endpoint | e]; [| eauto].
  assert (Hcount : count_of artifact "dependsOn" = Raise AttributeError).
  { destruct artifact; try discriminate Hnd; reflexivity. }
  rewrite Hcount. eauto.
Qed.

Lemma non_mapping_document_raises_witness :
  exists e g',
    validate_artifact_extended plain_validator (Return VNone) false false empty_graph
    = (Raise e, g').
Proof.
  apply (non_mapping_document_raises plain_validator VNone false false empty_graph).
  reflexivity.
Defined.

(* ================================================================= *)
(** ** The lifetime of the dependency graph (C5) *)

Lemma extends_refl g : extends g g.
Proof. split; apply incl_refl. Qed.

Lemma extends_trans g1 g2 g3 : extends g1 g2 -> extends g2 g3 -> extends g1 g3.
Proof. intros [? ?] [? ?]. split; eapply incl_tran; eassumption. Qed.

Lemma accumulating_retS {A : Type} (a : A) : accumulating (retS a).
Proof. intros g. apply extends_refl. Qed.

Lemma accumulating_liftS {A : Type} (m : Py A) : accumulating (liftS m).
Proof. intros g. apply extends_refl. Qed.

Lemma accumulating_bindS {A B : Type} (m : St A) (k : A -> St B) :
  accumulating m -> (forall a, accumulating (k a)) -> accumulating (bindS m k).
Proof.
  intros Hm Hk g. unfold bindS. specialize (Hm g).
  destruct (m g) as [[a | e] g1]; simpl in Hm.
  - eapply extends_trans; [exact Hm | apply Hk].
  - exact Hm.
Qed.

Lemma accumulating_add_node n : accumulating (add_node n).
Proof.
  intros g. unfold add_node.
  destruct (unhashable n); [apply extends_refl |].
  destruct (has_node g n); [apply extends_refl |].
  destruct n; simpl; try apply extends_refl;
    (split; simpl; [apply incl_appl, incl_refl | apply incl_refl]).
Qed.

Lemma accumulating_add_edge u v : accumulating (add_edge u v).
Proof.
  unfold add_edge.
  apply accumulating_bindS; [apply accumulating_add_node | intros _].
  apply accumulating_bindS; [apply accumulating_add_node | intros _].
  intros g. destruct (has_edge g u v); simpl; [apply extends_refl |].
  split; simpl; [apply incl_refl | apply incl_appl, incl_refl].
Qed.

Lemma accumulating_dependencies_loop registry artifact deps :
  forall i result, accumulating (dependencies_loop registry artifact i deps result).
Proof.
  induction deps as [| dep rest IH]; intros i result; simpl.
  - apply accumulating_retS.
  - apply accumulating_bindS; [apply accumulating_liftS | intros dep_result].
    apply accumulating_bindS; [apply accumulating_liftS | intros has_artifact].
    apply accumulating_bindS; [| intros _; apply IH].
    destruct has_artifact; [| apply accumulating_retS].
    apply accumulating_bindS; [apply accumulating_liftS | intros source].
    apply accumulating_bindS; [apply accumulating_liftS | intros target].
    apply accumulating_add_edge.
Qed.

Lemma accumulating_validate_dependencies registry artifact :
  accumulating (validate_dependencies registry artifact).
Proof.
  unfold validate_dependencies.
  apply accumulating_bindS; [apply accumulating_liftS | intros has_deps].
  destruct (negb has_deps); [apply accumulating_retS |].
  apply accumulating_bindS; [apply accumulating_liftS | intros dependencies].
  destruct dependencies; try apply accumulating_retS.
  apply accumulating_bindS; [apply accumulating_liftS | intros node].
  apply accumulating_bindS; [apply accumulating_add_node | intros _].
  apply accumulating_bindS; [apply accumulating_dependencies_loop | intros result].
  intros g. destruct (nx_find_cycles g) as [cycles | e].
  - destruct (truthy cycles); apply extends_refl.
  - destruct e; apply extends_refl.
Qed.

(** Only the dependency section touches the graph. *)
Lemma validate_artifact_extended_graph self artifact strict validate_endpoints g :
  snd (validate_artifact_extended self (Return artifact) strict validate_endpoints g)
  = snd (validate_dependencies (artifact_registry self) artifact g).
Proof.
  unfold validate_artifact_extended, bindS at 1.
  destruct (validate_dependencies (artifact_registry self) artifact g)
    as [[dependency | e] g1]; [| reflexivity].
  unfold bindS, liftS, retS. simpl.
  destruct (validate_semantic_consistency artifact); [| reflexivity].
  destruct (validate_naming_specifications artifact); [| reflexivity].
  destruct (if validate_endpoints then endpoint_validator self artifact
            else Return (mkSimpleResult true [] [])); [| reflexivity].
  destruct (count_of artifact "dependsOn"); [| reflexivity].
  destruct (count_of artifact "endpoints"); [| reflexivity].
  destruct (py_get artifact "kind" (VStr "Unknown")); reflexivity.
Qed.

Lemma has_node_extends g g' n :
  extends g g' -> has_node g n = true -> has_node g' n = true.
Proof.
  intros [Hn _]. unfold has_node. rewrite !existsb_exists.
  intros (x & Hin & Heq). exists x. split; [apply Hn, Hin | exact Heq].
Qed.

Lemma add_node_str n g : has_node (snd (add_node (VStr n) g)) (VStr n) = true.
Proof.
  unfold add_node. cbn [unhashable].
  destruct (has_node g (VStr n)) eqn:E; simpl; [exact E |].
  unfold has_node. simpl. rewrite existsb_app. simpl.
  rewrite String.eqb_refl. apply orb_true_iff. right. reflexivity.
Qed.

(** A call that returns a result has neither read nor written the graph:
    it returns the same result on every graph. *)
Lemma validate_dependencies_any_graph registry artifact g r g' :
  validate_dependencies registry artifact g = (Return r, g') ->
  forall g0, validate_dependencies registry artifact g0 = (Return r, g0).
Proof.
  unfold validate_dependencies, bindS, liftS, retS.
  destruct (py_in "dependsOn" artifact) as [[|] | e]; cbn [negb].
  - destruct (py_getitem artifact "dependsOn") as [v | e]; [| discriminate].
    destruct v as [| b | z | sv | deps | dv];
      try (intros H g0; injection H as <- <-; reflexivity).
    destruct (artifact_node artifact) as [node | e]; [| discriminate].
    destruct (add_node node g) as [[[] | e] g1]; [| discriminate].
    destruct (dependencies_loop registry artifact 0 deps empty_dependency_result g1)
      as [[result | e] g2]; discriminate.
  - intros H g0. injection H as <- <-. reflexivity.
  - discriminate.
Qed.

Lemma validate_artifact_extended_any_graph
    self file strict validate_endpoints g result g' :
  validate_artifact_extended self file strict validate_endpoints g = (Return result, g') ->
  forall g0,
    validate_artifact_extended self file strict validate_endpoints g0
    = (Return result, g0).
Proof.
  destruct file as [artifact | e].
  - intros H g0. apply validate_artifact_extended_inv in H.
    destruct H as (dependency & semantic & naming & endpoint & n_deps & n_endpoints
                   & kind & Hdep & Hsem & Hnam & Hep & Hnd & Hne & Hkind & Hres).
    cbv zeta in Hres.
    pose proof (validate_dependencies_any_graph _ _ _ _ _ Hdep g0) as Hdep0.
    unfold validate_artifact_extended.
    rewrite (bindS_step _ _ _ _ _ Hdep0).
    unfold liftS, bindS, retS.
    rewrite Hsem, Hnam, Hep, Hnd, Hne, Hkind. subst result. reflexivity.
  - simpl. unfold retS. intros H g0. injection H as <- <-. reflexivity.
Qed.

(** C5, as stated, fails: the dependency graph does persist from one
    validate call into the next.  A fresh validator validates [artifact-a]
    (a call that raises, after it has put the node and the edge of
    [artifact-a] into the graph) and then the empty mapping.  The second
    call returns its report, the same as on a fresh instance, but the graph
    it runs on and leaves behind is the one of the first call, not the
    empty graph that the call leaves on a fresh instance. *)
Lemma dependency_graph_persists :
  let first :=
    validate_artifact_extended plain_validator (Return artifact_a) false false
      empty_graph in
  let second :=
    validate_artifact_extended plain_validator (Return (VDict [])) false false
      (snd first) in
  let alone :=
    validate_artifact_extended plain_validator (Return (VDict [])) false false
      empty_graph in
  fst second = Return empty_document_report
  /\ fst alone = Return empty_document_report
  /\ snd alone = empty_graph
  /\ snd second = mkDiGraph [VStr "artifact-a"; VStr "artifact-b"]
                    [(VStr "artifact-a", VStr "artifact-b")]
  /\ snd second <> snd alone.
Proof.
  vm_compute. repeat split. discriminate.
Qed.

(** C5 (amended).  The report that [validate_artifact_extended] returns is
    determined by the document, the registry and the flags: a call that
    returns a report returns the same report whatever the earlier calls on
    the same instance have left in the graph.  The graph itself is state of
    the validator instance and accumulates: every node and every edge
    present before a call is still present after it, whether the call
    returns or raises; and a call on a mapping with a list-valued
    [dependsOn] and a string name leaves that name in the graph as a node. *)
Theorem dependency_graph_accumulates self file strict validate_endpoints g :
  let g' := snd (validate_artifact_extended self file strict validate_endpoints g) in
  (forall result,
      fst (validate_artifact_extended self file strict validate_endpoints g)
        = Return result ->
      g' = g
      /\ forall g0,
           validate_artifact_extended self file strict validate_endpoints g0
           = (Return result, g0))
  /\ extends g g'
  /\ (forall d deps n,
         file = Return (VDict d) ->
         assoc "dependsOn" d = Some (VList deps) ->
         artifact_node (VDict d) = Return (VStr n) ->
         has_node g' (VStr n) = true).
Proof.
  cbv zeta. split; [| split].
  - intros result Hfst.
    destruct (validate_artifact_extended self file strict validate_endpoints g)
      as [out g1] eqn:E. cbn [fst snd] in *. subst out.
    pose proof (validate_artifact_extended_any_graph _ _ _ _ _ _ _ E) as Hany.
    split; [| exact Hany].
    pose proof (Hany g) as Hg. rewrite E in Hg. injection Hg as ->. reflexivity.
  - destruct file as [artifact | e]; [| apply extends_refl].
    rewrite validate_artifact_extended_graph.
    apply accumulating_validate_dependencies.
  - intros d deps n -> Hdeps Hnode.
    rewrite validate_artifact_extended_graph.
    unfold validate_dependencies, bindS at 1, liftS at 1.
    cbn [py_in]. unfold has_key. rewrite Hdeps. cbn [negb].
    unfold bindS at 1, liftS at 1. cbn [py_getitem]. rewrite Hdeps.
    unfold bindS at 1, liftS at 1. rewrite Hnode.
    unfold bindS at 1.
    pose proof (add_node_str n g) as Hadded.
    destruct (add_node (VStr n) g) as [[[] | e] g1]; simpl in Hadded |- *;
      [| exact Hadded].
    match goal with
    | |- has_node (snd (bindS ?m ?k g1)) _ = true =>
        assert (Hacc : accumulating (bindS m k))
    end.
    { apply accumulating_bindS; [apply accumulating_dependencies_loop | intros result].
      intros g0. destruct (nx_find_cycles g0) as [cycles | e].
      - destruct (truthy cycles); apply extends_refl.
      - destruct e; apply extends_refl. }
    eapply has_node_extends; [apply Hacc | exact Hadded].
Qed.

Lemma dependency_graph_accumulates_witness :
  (forall g0,
      validate_artifact_extended plain_validator (Return (VDict [])) false false g0
      = (Return empty_document_report, g0))
  /\ has_node (snd (validate_artifact_extended plain_validator (Return artifact_a)
                      false false empty_graph))
              (VStr "artifact-a") = true.
Proof.
  split.
  - apply (dependency_graph_accumulates plain_validator (Return (VDict [])) false false
             empty_graph).
    reflexivity.
  - apply (dependency_graph_accumulates plain_validator (Return artifact_a) false false
             empty_graph)
      with (d := [ ("metadata", VDict [ ("name", VStr "artifact-a") ]);
                   ("dependsOn", VList [ VDict [ ("artifact", VStr "artifact-b");
                                                 ("purpose", VStr "reference") ] ]) ])
           (deps := [ VDict [ ("artifact", VStr "artifact-b");
                              ("purpose", VStr "reference") ] ]);
      reflexivity.
Defined.

(* ================================================================= *)
(** ** The namespace check (C8) *)

Lemma namespace_loop_no_match formats naming_registry ns :
  forallb (fun f => negb (re_match_anchored (nf_pattern (snd f)) ns)) formats = true ->
  namespace_loop formats naming_registry (VStr ns) = Return (false, []).
Proof.
  induction formats as [| [key pattern_info] rest IH]; simpl; intros H.
  - reflexivity.
  - apply andb_true_iff in H. destruct H as [Hhead Hrest].
    apply negb_true_iff in Hhead. rewrite Hhead. apply IH, Hrest.
Qed.

Lemma namespace_loop_unverified formats d ns :
  (forall f, In f formats -> nf_verification_required (snd f) = true) ->
  existsb (fun f => re_match_anchored (nf_pattern (snd f)) ns) formats = true ->
  (forall v, assoc "verificationStatus" d = Some v -> eq_str v "verified" = false) ->
  namespace_loop formats (VDict d) (VStr ns)
  = Return (true, [ if has_key "verificationStatus" d
                    then NamespaceNotVerified (VStr ns)
                    else NamespaceRequiresVerification (VStr ns) ]).
Proof.
  intros Hreq Hmatch Hstatus.
  induction formats as [| [key pattern_info] rest IH]; simpl in *.
  - discriminate.
  - destruct (re_match_anchored (nf_pattern pattern_info) ns) eqn:Hm.
    + pose proof (Hreq (key, pattern_info) (or_introl eq_refl)) as Hr.
      simpl in Hr. rewrite Hr.
      unfold has_key. destruct (assoc "verificationStatus" d) as [v |] eqn:Hv; simpl.
      * rewrite (Hstatus v eq_refl). reflexivity.
      * reflexivity.
    + apply IH; [intros f Hf; apply Hreq; right; exact Hf | exact Hmatch].
Qed.

Lemma namespace_formats_all_required :
  forall f, In f namespace_formats -> nf_verification_required (snd f) = true.
Proof.
  intros f Hf. simpl in Hf.
  destruct Hf as [<- | [<- | [<- | []]]]; reflexivity.
Qed.

(** C8.  Let the naming registry hold the namespace string [ns].  If [ns]
    matches none of the configured patterns, [_validate_naming_registry]
    returns [valid = false] with the error "Invalid namespace format".  If
    [ns] matches a pattern that requires verification and the registry has
    no [verificationStatus], or one other than ["verified"], the check
    records exactly one warning and no error, and [valid] is what the format
    check before it left. *)
Theorem naming_registry_namespace_check d ns :
  assoc "namespace" d = Some (VStr ns) ->
  let format_ok :=
    eq_str (match assoc "format" d with Some v => v | None => VNone end)
           "reverse-DNS" in
  (forallb (fun f => negb (re_match_anchored (nf_pattern (snd f)) ns))
           namespace_formats = true ->
   exists r,
     _validate_naming_registry (VDict d) = Return r
     /\ res_valid r = false
     /\ In (InvalidNamespaceFormat (VStr ns)) (res_errors r)
     /\ res_warnings r = [])
  /\ (existsb (fun f => re_match_anchored (nf_pattern (snd f)) ns
                        && nf_verification_required (snd f))
              namespace_formats = true ->
      (forall v, assoc "verificationStatus" d = Some v ->
                 eq_str v "verified" = false) ->
      exists r,
        _validate_naming_registry (VDict d) = Return r
        /\ res_warnings r =
             [ if has_key "verificationStatus" d
               then NamespaceNotVerified (VStr ns)
               else NamespaceRequiresVerification (VStr ns) ]
        /\ res_errors r = (if format_ok then [] else [NamingRegistryFormatMust])
        /\ res_valid r = format_ok).
Proof.
  intros Hns. cbv zeta.
  assert (Hfmt : py_get (VDict d) "format" VNone
                 = Return (match assoc "format" d with Some v => v | None => VNone end)).
  { simpl. destruct (assoc "format" d); reflexivity. }
  assert (Hnamespace : py_get (VDict d) "namespace" (VStr "") = Return (VStr ns)).
  { simpl. rewrite Hns. reflexivity. }
  split.
  - intros Hnone. unfold _validate_naming_registry.
    rewrite Hfmt. cbn [bind]. rewrite Hnamespace. cbn [bind].
    rewrite (namespace_loop_no_match _ _ _ Hnone). cbn [bind].
    eexists. split; [reflexivity |]. cbn [res_valid res_errors res_warnings].
    split; [reflexivity |]. split; [| reflexivity].
    apply in_or_app. right. left. reflexivity.
  - intros Hmatch Hstatus. unfold _validate_naming_registry.
    rewrite Hfmt. cbn [bind]. rewrite Hnamespace. cbn [bind].
    rewrite (namespace_loop_unverified namespace_formats d ns
               namespace_formats_all_required).
    + cbn [bind]. eexists. split; [reflexivity |].
      cbn [res_valid res_errors res_warnings]. repeat split; reflexivity.
    + rewrite existsb_exists in Hmatch |- *.
      destruct Hmatch as (f & Hin & Hf). exists f. split; [exact Hin |].
      apply andb_true_iff in Hf. apply Hf.
    + exact Hstatus.
Qed.

Lemma naming_registry_namespace_check_witness :
  (exists r,
      _validate_naming_registry (VDict invalid_namespace_registry) = Return r
      /\ res_valid r = false)
  /\ (exists r,
         _validate_naming_registry (VDict unverified_namespace_registry) = Return r
         /\ res_warnings r = [NamespaceRequiresVerification (VStr "io.github.username")]
         /\ res_valid r = true).
Proof.
  split.
  - destruct (naming_registry_namespace_check invalid_namespace_registry
                "invalid-namespace" eq_refl) as [Hnone _].
    destruct (Hnone eq_refl) as (r & Hrun & Hvalid & _).
    exists r. split; assumption.
  - destruct (naming_registry_namespace_check unverified_namespace_registry
                "io.github.username" eq_refl) as [_ Hmatch].
    destruct (Hmatch eq_refl) as (r & Hrun & Hwarn & _ & Hvalid).
    + intros v Hv. discriminate Hv.
    + exists r. repeat split; assumption.
Defined.

(* ================================================================= *)
(** ** Relationship violations are warnings (C9) *)

(** A loop whose body always returns, and keeps an invariant of the
    accumulator, returns and keeps it. *)
Lemma foldM_invariant {A B : Type} (P : B -> Prop) (f : B -> A -> Py B) l :
  (forall acc x, In x l -> P acc -> exists acc', f acc x = Return acc' /\ P acc') ->
  forall acc, P acc -> exists res, foldM f acc l = Return res /\ P res.
Proof.
  induction l as [| x l IH]; intros Hstep acc Hacc; simpl.
  - eauto.
  - destruct (Hstep acc x (or_introl eq_refl) Hacc) as (acc' & -> & Hacc').
    simpl. apply IH; [| exact Hacc'].
    intros acc0 y Hy. apply Hstep. right. exact Hy.
Qed.

Lemma Forall_snoc {A : Type} (P : A -> Prop) l x :
  Forall P l -> P x -> Forall P (l ++ [x]).
Proof. intros Hl Hx. apply Forall_app. split; [exact Hl | constructor; [exact Hx | constructor]]. Qed.

(** On a mapping and a string type, the schema check returns, and reports
    schema violations only. *)
Lemma _validate_against_semantic_schema_total d t :
  exists violations,
    _validate_against_semantic_schema (VDict d) (VStr t) = Return violations
    /\ Forall is_schema_violation violations.
Proof.
  unfold _validate_against_semantic_schema. cbn [schemas_get bind].
  set (schema := assoc t semantic_type_schemas).
  destruct (foldM_invariant (Forall is_schema_violation)
              (fun violations field =>
                 present <- py_in field (VDict d) ;;
                 Return (if present then violations
                         else violations ++ [MissingRequiredFieldFor (VStr t) field]))
              (schema_field required_fields schema)) with (acc := @nil Message)
    as (violations & Hrun & Hviol).
  { intros acc x _ Hacc. cbn [py_in bind].
    destruct (has_key x d); eexists; (split; [reflexivity |]);
      [exact Hacc | apply Forall_snoc; [exact Hacc | exact I]]. }
  { constructor. }
  rewrite Hrun. cbn [bind py_iter].
  apply foldM_invariant; [| exact Hviol].
  intros acc x Hx Hacc.
  apply in_map_iff in Hx. destruct Hx as ([key v] & <- & _).
  unfold in_str_keys. cbn [unhashable bind fst].
  destruct (in_str_list _ _); eexists; (split; [reflexivity |]);
    [exact Hacc | apply Forall_snoc; [exact Hacc | exact I]].
Qed.

(** On dependency declarations that are mappings, the relationship loop
    returns the warnings the specification asks for. *)
Lemma relationship_loop_spec semantic_type allowed deps :
  Forall (fun dep => is_dict dep = true) deps ->
  forall acc,
    foldM (relationship_step semantic_type allowed) acc deps
    = Return (acc ++ expected_relationship_warnings semantic_type allowed deps).
Proof.
  induction 1 as [| dep deps Hdep _ IH]; intros acc; simpl.
  - rewrite app_nil_r. reflexivity.
  - destruct dep as [| | | | | entry]; try discriminate Hdep.
    unfold relationship_step at 1. cbn [py_in py_getitem bind]. unfold has_key.
    destruct (assoc "semanticType" entry) as [dep_type |]; cbn [bind].
    + destruct (in_str_list dep_type allowed); rewrite IH.
      * reflexivity.
      * rewrite <- app_assoc. reflexivity.
    + rewrite IH. reflexivity.
Qed.

(** C9.  Let the artifact declare the semantic type [t] of the schema table
    and a [dependsOn] list of dependency declarations.  Then
    [validate_semantic_consistency] returns; its warnings and its
    [relationship_violations] are exactly one message per declaration whose
    [semanticType] is outside [can_depend_on] of [t]; its errors are the
    schema violations only, so no relationship violation is an error; and
    [valid] is false only if there is a schema violation. *)
Theorem relationship_violations_are_warnings d md t sch deps :
  assoc "metadata" d = Some (VDict md) ->
  assoc "semanticType" md = Some (VStr t) ->
  assoc t semantic_type_schemas = Some sch ->
  assoc "dependsOn" d = Some (VList deps) ->
  Forall (fun dep => is_dict dep = true) deps ->
  exists r,
    validate_semantic_consistency (VDict d) = Return r
    /\ sr_warnings r = expected_relationship_warnings (VStr t) (can_depend_on sch) deps
    /\ sr_relationship_violations r = sr_warnings r
    /\ sr_errors r = sr_type_violations r
    /\ _validate_against_semantic_schema (VDict d) (VStr t) = Return (sr_type_violations r)
    /\ sr_valid r = negb (truthy (sr_type_violations r))
    /\ (forall entry dep_type,
           In (VDict entry) deps ->
           assoc "semanticType" entry = Some dep_type ->
           in_str_list dep_type (can_depend_on sch) = false ->
           In (CannotDependOn (VStr t) dep_type (can_depend_on sch)) (sr_warnings r)
           /\ ~ In (CannotDependOn (VStr t) dep_type (can_depend_on sch)) (sr_errors r)).
Proof.
  intros Hmd Htype Hsch Hdeps Hdicts.
  destruct (_validate_against_semantic_schema_total d t) as (violations & Hschema & Hviol).
  assert (Hknown : in_str_keys (VStr t) (map fst semantic_type_schemas) = Return true).
  { unfold in_str_keys. cbn [unhashable]. f_equal.
    unfold in_str_list. apply existsb_exists.
    clear - Hsch. induction semantic_type_schemas as [| [k v] rest IH]; simpl in *.
    - discriminate.
    - destruct (String.eqb t k) eqn:E.
      + exists k. split; [left; reflexivity | exact E].
      + destruct (IH Hsch) as (x & Hin & Hx). exists x. split; [right; exact Hin | exact Hx]. }
  assert (Hrel : _validate_semantic_relationships (VDict d) (VStr t)
                 = Return (expected_relationship_warnings (VStr t) (can_depend_on sch) deps)).
  { unfold _validate_semantic_relationships. cbn [schemas_get bind py_in py_getitem].
    rewrite Hsch. unfold has_key. rewrite Hdeps. cbn [bind py_iter schema_field].
    rewrite (relationship_loop_spec _ _ _ Hdicts). reflexivity. }
  exists (mkSemanticResult (negb (truthy violations)) violations
            (expected_relationship_warnings (VStr t) (can_depend_on sch) deps)
            violations
            (expected_relationship_warnings (VStr t) (can_depend_on sch) deps)).
  split.
  { unfold validate_semantic_consistency. cbn [py_in py_getitem bind].
    unfold has_key. rewrite Hmd. cbn [negb bind py_in py_getitem].
    unfold has_key. rewrite Htype. cbn [negb bind].
    rewrite Hknown. cbn [negb bind]. rewrite Hschema. cbn [bind].
    rewrite Hdeps. rewrite Hrel. reflexivity. }
  cbn [sr_valid sr_errors sr_warnings sr_type_violations sr_relationship_violations].
  repeat (split; [reflexivity || assumption |]).
  intros entry dep_type Hin Hentry Hnot. split.
  - unfold expected_relationship_warnings. apply in_flat_map.
    exists (VDict entry). split; [exact Hin |].
    rewrite Hentry, Hnot. left. reflexivity.
  - intros Habs. rewrite Forall_forall in Hviol.
    exact (Hviol _ Habs).
Qed.

Lemma relationship_violations_are_warnings_witness :
  exists r,
    validate_semantic_consistency (VDict relationship_artifact) = Return r
    /\ sr_valid r = true
    /\ sr_errors r = []
    /\ sr_warnings r =
         [ CannotDependOn (VStr "manifest") (VStr "invalid-type")
             ["schema"; "spec"; "governance"; "policy"] ].
Proof.
  destruct (relationship_violations_are_warnings relationship_artifact
              [ ("name", VStr "test-manifest"); ("semanticType", VStr "manifest") ]
              "manifest"
              (mkSemanticSchema ["apiVersion"; "kind"; "metadata"; "spec"]
                 ["dependsOn"; "governance"]
                 ["schema"; "spec"; "governance"; "policy"])
              [ VDict [ ("artifact", VStr "com.example/invalid-dependency");
                        ("semanticType", VStr "invalid-type");
                        ("purpose", VStr "reference") ] ]
              eq_refl eq_refl eq_refl eq_refl)
    as (r & Hrun & Hwarn & _ & Herr & Hschema & Hvalid & _).
  { repeat constructor. }
  exists r. split; [exact Hrun |].
  assert (Hnone : _validate_against_semantic_schema (VDict relationship_artifact)
                    (VStr "manifest") = Return []) by reflexivity.
  rewrite Hnone in Hschema. injection Hschema as Hschema.
  rewrite Hvalid, Herr, <- Hschema, Hwarn. repeat split; reflexivity.
Defined.

(* ================================================================= *)
(** * Further properties *)

(** ** The matcher agrees with the language of the pattern *)

Lemma string_app_nil_r (s : string) : (s ++ "")%string = s.
Proof. induction s as [| c s IH]; simpl; [reflexivity | rewrite IH; reflexivity]. Qed.

Lemma string_app_assoc (s1 s2 s3 : string) :
  ((s1 ++ s2) ++ s3)%string = (s1 ++ (s2 ++ s3))%string.
Proof. induction s1 as [| c s1 IH]; simpl; [reflexivity | rewrite IH; reflexivity]. Qed.

Lemma string_app_eq_nil (s1 s2 : string) :
  (s1 ++ s2)%string = EmptyString -> s1 = EmptyString /\ s2 = EmptyString.
Proof. destruct s1; simpl; intros H; [split; [reflexivity | exact H] | discriminate H]. Qed.

Lemma matches_nil_nullable r : matches r EmptyString -> nullable r = true.
Proof.
  intros H. remember EmptyString as s eqn:Hs.
  induction H; simpl; try discriminate Hs; try reflexivity.
  - apply string_app_eq_nil in Hs. destruct Hs as [-> ->].
    rewrite IHmatches1, IHmatches2; reflexivity.
  - rewrite IHmatches; [reflexivity | exact Hs].
  - rewrite IHmatches; [apply orb_true_r | exact Hs].
Qed.

Lemma nullable_matches_nil r : nullable r = true -> matches r EmptyString.
Proof.
  induction r; simpl; intros H; try discriminate H.
  - constructor.
  - apply andb_true_iff in H. destruct H as [H1 H2].
    change EmptyString with (EmptyString ++ EmptyString)%string.
    constructor; auto.
  - apply orb_true_iff in H. destruct H as [H | H];
      [apply MAltL | apply MAltR]; auto.
  - constructor.
Qed.

Lemma matches_deriv c r : forall s, matches (deriv c r) s -> matches r (String c s).
Proof.
  induction r; simpl; intros s H.
  - inversion H.
  - inversion H.
  - destruct (Ascii.eqb_spec c c0) as [-> |]; inversion H; subst. constructor.
  - destruct (existsb (in_range c) ranges) eqn:E; inversion H; subst.
    constructor. exact E.
  - assert (Hcat : forall t, matches (Cat (deriv c r1) r2) t ->
                             matches (Cat r1 r2) (String c t)).
    { intros t Ht. inversion Ht; subst.
      change (String c (s1 ++ s2)) with (String c s1 ++ s2)%string.
      constructor; auto. }
    destruct (nullable r1) eqn:E.
    + inversion H; subst.
      * apply Hcat. assumption.
      * change (String c s) with (EmptyString ++ String c s)%string.
        constructor; [apply nullable_matches_nil, E | auto].
    + apply Hcat, H.
  - inversion H; subst; [apply MAltL | apply MAltR]; auto.
  - inversion H; subst.
    change (String c (s1 ++ s2)) with (String c s1 ++ s2)%string.
    constructor; auto.
Qed.

Lemma deriv_matches c r s : matches r (String c s) -> matches (deriv c r) s.
Proof.
  intros H. remember (String c s) as t eqn:Ht.
  revert c s Ht.
  induction H; intros c0 s0 Ht; simpl; try discriminate Ht.
  - injection Ht as -> <-. rewrite Ascii.eqb_refl. constructor.
  - injection Ht as -> <-. rewrite H. constructor.
  - destruct s1 as [| c1 s1]; simpl in Ht.
    + subst s2. rewrite (matches_nil_nullable _ H).
      apply MAltR. apply IHmatches2. reflexivity.
    + injection Ht as -> <-.
      assert (Hc : matches (Cat (deriv c0 r1) r2) (s1 ++ s2)%string).
      { constructor; [apply IHmatches1; reflexivity | exact H0]. }
      destruct (nullable r1); [apply MAltL |]; exact Hc.
  - apply MAltL. apply IHmatches. exact Ht.
  - apply MAltR. apply IHmatches. exact Ht.
  - destruct s1 as [| c1 s1]; simpl in Ht.
    + apply IHmatches2. exact Ht.
    + injection Ht as -> <-.
      constructor; [apply IHmatches1; reflexivity | exact H0].
Qed.

Lemma fullmatch_iff_matches r s : fullmatch r s = true <-> matches r s.
Proof.
  revert r. induction s as [| c s IH]; intros r; simpl.
  - split; [apply nullable_matches_nil | apply matches_nil_nullable].
  - rewrite IH. split; [apply matches_deriv | apply deriv_matches].
Qed.

Lemma strip_final_newline_app s' :
  strip_final_newline (s' ++ String newline EmptyString) = Some s'.
Proof.
  induction s' as [| c t IH].
  - reflexivity.
  - destruct t as [| a t'].
    + reflexivity.
    + change (strip_final_newline (String c (String a t') ++ String newline ""))
        with (match strip_final_newline (String a t' ++ String newline "") with
              | Some u => Some (String c u)
              | None => None
              end).
      rewrite IH. reflexivity.
Qed.

Lemma strip_final_newline_inv s :
  forall s', strip_final_newline s = Some s' ->
             s = (s' ++ String newline EmptyString)%string.
Proof.
  induction s as [| c s IH]; intros s' H.
  - discriminate H.
  - destruct s as [| c2 s2].
    + simpl in H. destruct (Ascii.eqb_spec c newline) as [-> |]; [| discriminate H].
      injection H as <-. reflexivity.
    + change (strip_final_newline (String c (String c2 s2)))
        with (match strip_final_newline (String c2 s2) with
              | Some t => Some (String c t)
              | None => None
              end) in H.
      destruct (strip_final_newline (String c2 s2)) as [t |]; [| discriminate H].
      injection H as <-. simpl. rewrite <- (IH t eq_refl). reflexivity.
Qed.

Lemma strip_final_newline_iff s s' :
  strip_final_newline s = Some s' <-> s = (s' ++ String newline EmptyString)%string.
Proof.
  split; [apply strip_final_newline_inv | intros ->; apply strip_final_newline_app].
Qed.

(** [re.match] with a pattern [^R$] accepts the strings of [R], each with or
    without one final newline. *)
Lemma re_match_anchored_iff r s :
  re_match_anchored r s = true <-> up_to_newline (matches r) s.
Proof.
  unfold re_match_anchored, up_to_newline. rewrite orb_true_iff, fullmatch_iff_matches.
  split; intros [H | H]; [left; exact H | | left; exact H |].
  - destruct (strip_final_newline s) as [s' |] eqn:E; [| discriminate H].
    right. exists s'. split; [apply strip_final_newline_iff, E |].
    apply fullmatch_iff_matches, H.
  - destruct H as (s' & Hs & Hm). right.
    apply strip_final_newline_iff in Hs. rewrite Hs.
    apply fullmatch_iff_matches, Hm.
Qed.

(** ** The languages of the patterns of the source *)

Lemma matches_Chr_inv c s : matches (Chr c) s -> s = String c EmptyString.
Proof. intros H. inversion H. reflexivity. Qed.

Lemma matches_Cat_inv r1 r2 s :
  matches (Cat r1 r2) s ->
  exists s1 s2, s = (s1 ++ s2)%string /\ matches r1 s1 /\ matches r2 s2.
Proof. intros H. inversion H; subst. eauto. Qed.

Lemma matches_CharSet_inv ranges s :
  matches (CharSet ranges) s ->
  exists c, s = String c EmptyString /\ existsb (in_range c) ranges = true.
Proof. intros H. inversion H; subst. eauto. Qed.

Lemma matches_Star_CharSet ranges s :
  matches (Star (CharSet ranges)) s ->
  all_chars (fun c => existsb (in_range c) ranges) s = true.
Proof.
  intros H. remember (Star (CharSet ranges)) as r eqn:Hr.
  induction H; try discriminate Hr.
  - reflexivity.
  - injection Hr as ->. apply matches_CharSet_inv in H.
    destruct H as (c & -> & Hc). simpl.
    rewrite Hc. apply IHmatches2. reflexivity.
Qed.

Lemma matches_Plus_CharSet (p : ascii -> bool) ranges s :
  (forall c, p c = existsb (in_range c) ranges) ->
  matches (Plus (CharSet ranges)) s <-> word_of p s.
Proof.
  intros Hp. split.
  - intros H. apply matches_Cat_inv in H. destruct H as (s1 & s2 & -> & H1 & H2).
    apply matches_CharSet_inv in H1. destruct H1 as (c & -> & Hc).
    apply matches_Star_CharSet in H2.
    split; [reflexivity |]. simpl. rewrite Hp, Hc.
    rewrite (all_chars_ext _ _ _ Hp). exact H2.
  - intros H. apply fullmatch_iff_matches. exact (fullmatch_Plus_CharSet p ranges s Hp H).
Qed.

Lemma tag_char_class c :
  is_tag_char c
  = existsb (in_range c) [("a", "z"); ("A", "Z"); ("0", "9"); ("-", "-")]%char.
Proof. destruct c as [[] [] [] [] [] [] [] []]; reflexivity. Qed.

(** A pattern [op R], for a literal [op]. *)
Lemma matches_lit w s : matches (lit w) s <-> s = w.
Proof.
  revert s. induction w as [| c w IH]; intros s; simpl.
  - split; [intros H; inversion H; reflexivity | intros ->; constructor].
  - split.
    + intros H. apply matches_Cat_inv in H. destruct H as (s1 & s2 & -> & H1 & H2).
      apply matches_Chr_inv in H1. subst s1. apply IH in H2. subst s2. reflexivity.
    + intros ->. change (String c w) with (String c EmptyString ++ w)%string.
      constructor; [constructor | apply IH; reflexivity].
Qed.

Lemma matches_Alt_inv r1 r2 s : matches (Alt r1 r2) s -> matches r1 s \/ matches r2 s.
Proof. intros H. inversion H; subst; auto. Qed.

Lemma matches_one_of l s : matches (one_of l) s <-> In s l.
Proof.
  induction l as [| t l IH]; cbn [one_of In].
  - split; [intros H; inversion H | intros []].
  - split.
    + intros H. apply matches_Alt_inv in H. destruct H as [H | H].
      * left. symmetry. apply matches_lit, H.
      * right. apply IH, H.
    + intros [<- | H]; [apply MAltL, matches_lit; reflexivity | apply MAltR, IH, H].
Qed.

(** [\d] matches the decimal digits, [\d+] the decimal numbers. *)
Lemma matches_digit t : matches digit t <-> decimal_digit t.
Proof. apply matches_one_of. Qed.

Lemma matches_Star_digits s :
  matches (Star digit) s -> s = EmptyString \/ decimal_number s.
Proof.
  intros H. remember (Star digit) as r eqn:Hr.
  induction H; try discriminate Hr.
  - left. reflexivity.
  - injection Hr as ->. right. apply matches_digit in H.
    destruct (IHmatches2 eq_refl) as [-> | Hs2].
    + rewrite string_app_nil_r. apply sequence_one, H.
    + apply sequence_more; assumption.
Qed.

Lemma decimal_number_Star s : decimal_number s -> matches (Star digit) s.
Proof.
  induction 1 as [d Hd | d s Hd Hs IH].
  - rewrite <- (string_app_nil_r d).
    apply MStarApp; [apply matches_digit, Hd | apply MStarNil].
  - apply MStarApp; [apply matches_digit, Hd | exact IH].
Qed.

Lemma matches_digits s : matches (Plus digit) s <-> decimal_number s.
Proof.
  split.
  - intros H. apply matches_Cat_inv in H. destruct H as (d & s2 & -> & Hd & Hs).
    apply matches_digit in Hd. apply matches_Star_digits in Hs.
    destruct Hs as [-> | Hs].
    + rewrite string_app_nil_r. apply sequence_one, Hd.
    + apply sequence_more; assumption.
  - intros H. destruct H as [d Hd | d s Hd Hs].
    + rewrite <- (string_app_nil_r d).
      apply MCat; [apply matches_digit, Hd | apply MStarNil].
    + apply MCat; [apply matches_digit, Hd | apply decimal_number_Star, Hs].
Qed.

Lemma matches_semver_body v : matches semver_body v <-> decimal_version v.
Proof.
  split.
  - intros H. unfold semver_body in H.
    apply matches_Cat_inv in H. destruct H as (x & r1 & -> & Hx & H).
    apply matches_Cat_inv in H. destruct H as (d1 & r2 & -> & Hd1 & H).
    apply matches_Cat_inv in H. destruct H as (y & r3 & -> & Hy & H).
    apply matches_Cat_inv in H. destruct H as (d2 & z & -> & Hd2 & Hz).
    apply matches_Chr_inv in Hd1, Hd2. subst d1 d2.
    apply matches_digits in Hx, Hy, Hz.
    exists x, y, z. repeat split; assumption.
  - intros (x & y & z & Hx & Hy & Hz & ->). unfold semver_body, dot.
    apply MCat; [apply matches_digits, Hx |].
    apply (MCat (Chr ".") _ "."); [constructor |].
    apply MCat; [apply matches_digits, Hy |].
    apply (MCat (Chr ".") _ "."); [constructor |].
    apply matches_digits, Hz.
Qed.

(** The versions of the specification, in the digits [0-9], are among
    them. *)
Lemma ascii_digits_decimal s : word_of is_digit s -> decimal_number s.
Proof.
  intros H. apply matches_digits, fullmatch_iff_matches, fullmatch_Plus_digits, H.
Qed.

Lemma numeric_version_decimal v : numeric_version v -> decimal_version v.
Proof.
  intros (x & y & z & Hx & Hy & Hz & ->).
  exists x, y, z. repeat split; try apply ascii_digits_decimal; assumption.
Qed.

Lemma up_to_newline_iff (P Q : string -> Prop) s :
  (forall t, P t <-> Q t) -> up_to_newline P s <-> up_to_newline Q s.
Proof.
  intros H. unfold up_to_newline. split; intros [Hs | (s' & Hs & Hp)].
  - left. apply H, Hs.
  - right. exists s'. split; [exact Hs | apply H, Hp].
  - left. apply H, Hs.
  - right. exists s'. split; [exact Hs | apply H, Hp].
Qed.

Lemma up_to_newline_or (P Q : string -> Prop) s :
  up_to_newline (fun t => P t \/ Q t) s <-> up_to_newline P s \/ up_to_newline Q s.
Proof.
  unfold up_to_newline. split.
  - intros [[H | H] | (s' & Hs & [H | H])]; eauto 6.
  - intros [[H | (s' & Hs & H)] | [H | (s' & Hs & H)]]; eauto 6.
Qed.

Lemma matches_Chr_Cat c r t :
  matches (Cat (Chr c) r) t <-> exists v, matches r v /\ t = String c v.
Proof.
  split.
  - intros H. apply matches_Cat_inv in H. destruct H as (s1 & s2 & -> & H1 & H2).
    apply matches_Chr_inv in H1. subst s1. exists s2. split; [exact H2 | reflexivity].
  - intros (v & Hv & ->). change (String c v) with (String c EmptyString ++ v)%string.
    constructor; [constructor | exact Hv].
Qed.

Lemma matches_lit_Cat op r t :
  matches (Cat (lit op) r) t <-> exists v, matches r v /\ t = (op ++ v)%string.
Proof.
  split.
  - intros H. apply matches_Cat_inv in H. destruct H as (s1 & s2 & -> & H1 & H2).
    apply matches_lit in H1. subst s1. exists s2. split; [exact H2 | reflexivity].
  - intros (v & Hv & ->). constructor; [apply matches_lit; reflexivity | exact Hv].
Qed.

Lemma re_match_anchored_false r s :
  re_match_anchored r s = false -> ~ up_to_newline (matches r) s.
Proof.
  intros H Habs. apply re_match_anchored_iff in Habs. congruence.
Qed.

(** *** References *)

Lemma matches_reference_patterns t :
  (matches (Cat (Plus namespace_char) (Cat (Chr "/") (Plus name_char))) t
   \/ matches (Cat (Plus namespace_char)
                 (Cat (Chr "/") (Cat (Plus name_char) (Cat (Chr ":") semver_body)))) t)
  <-> reference_form t.
Proof.
  split.
  - intros [H | H].
    + apply matches_Cat_inv in H. destruct H as (ns & r1 & -> & Hns & H).
      apply matches_Chr_Cat in H. destruct H as (name & Hname & ->).
      apply (matches_Plus_CharSet is_namespace_char _ _ namespace_char_class) in Hns.
      apply (matches_Plus_CharSet is_name_char _ _ name_char_class) in Hname.
      exists ns, name. split; [exact Hns |]. split; [exact Hname |]. left. reflexivity.
    + apply matches_Cat_inv in H. destruct H as (ns & r1 & -> & Hns & H).
      apply matches_Chr_Cat in H. destruct H as (r2 & H & ->).
      apply matches_Cat_inv in H. destruct H as (name & r3 & -> & Hname & H).
      apply matches_Chr_Cat in H. destruct H as (v & Hv & ->).
      apply (matches_Plus_CharSet is_namespace_char _ _ namespace_char_class) in Hns.
      apply (matches_Plus_CharSet is_name_char _ _ name_char_class) in Hname.
      apply matches_semver_body in Hv.
      exists ns, name. split; [exact Hns |]. split; [exact Hname |].
      right. exists v. split; [exact Hv | reflexivity].
  - intros (ns & name & Hns & Hname & Hs).
    apply (matches_Plus_CharSet is_namespace_char _ _ namespace_char_class) in Hns.
    apply (matches_Plus_CharSet is_name_char _ _ name_char_class) in Hname.
    destruct Hs as [-> | (v & Hv & ->)].
    + left. constructor; [exact Hns |].
      apply matches_Chr_Cat. exists name. split; [exact Hname | reflexivity].
    + right. constructor; [exact Hns |].
      apply matches_Chr_Cat. eexists. split; [| reflexivity].
      constructor; [exact Hname |].
      apply matches_Chr_Cat. exists v. split; [apply matches_semver_body, Hv | reflexivity].
Qed.

Lemma reference_format_characterisation_rule s :
  _is_valid_reference_format s = true <-> up_to_newline reference_form s.
Proof.
  unfold _is_valid_reference_format, reference_patterns. cbn [existsb].
  rewrite !orb_true_iff, !re_match_anchored_iff.
  rewrite (up_to_newline_iff reference_form _ s
             (fun t => iff_sym (matches_reference_patterns t))).
  rewrite up_to_newline_or.
  split; [intros [H | [H | H]]; [left | right | discriminate H]; exact H
         | intros [H | H]; [left | right; left]; exact H].
Qed.

(** Every reference of the specification's grammar has the form the code
    accepts, and the form allows more: a version in the decimal digits of
    another script. *)
Lemma grammatical_reference_form s : grammatical_reference s -> reference_form s.
Proof.
  intros (ns & name & Hns & Hname & Hs). exists ns, name.
  split; [exact Hns |]. split; [exact Hname |].
  destruct Hs as [-> | (v & Hv & ->)]; [left; reflexivity |].
  right. exists v. split; [apply numeric_version_decimal, Hv | reflexivity].
Qed.

(** X1.  [_is_valid_reference_format] accepts exactly the strings
    [namespace/artifact-name] and [namespace/artifact-name:X.Y.Z], each with
    or without one final newline, where [X], [Y] and [Z] are non-empty
    sequences of decimal digits of any script ([\d] is not limited to
    [0-9]).  So it accepts every reference of the specification's grammar,
    and also [a/b:] followed by [1.2.3] written in Arabic-Indic digits. *)
Theorem reference_format_characterisation :
  (forall s, _is_valid_reference_format s = true <-> up_to_newline reference_form s)
  /\ (forall s, grammatical_reference s -> _is_valid_reference_format s = true)
  /\ _is_valid_reference_format ("a/b:" ++ arabic_indic_version) = true.
Proof.
  split; [exact reference_format_characterisation_rule |].
  split; [| vm_compute; reflexivity].
  intros s Hs. apply reference_format_characterisation_rule. left.
  apply grammatical_reference_form, Hs.
Qed.

(** *** Version constraints *)

Lemma any_match_str patterns s :
  any_match patterns (VStr s)
  = Return (existsb (fun p => re_match_anchored p s) patterns).
Proof.
  induction patterns as [| p ps IH]; simpl; [reflexivity |].
  destruct (re_match_anchored p s); [reflexivity | exact IH].
Qed.

Lemma any_match_non_string patterns v :
  is_str v = false -> patterns <> [] -> any_match patterns v = Raise TypeError.
Proof.
  intros Hv Hp. destruct patterns as [| p ps]; [congruence |].
  destruct v; try discriminate Hv; reflexivity.
Qed.

Lemma matches_version_constraint t :
  (matches semver_body t
   \/ matches (Cat (Chr "^") semver_body) t
   \/ matches (Cat (Chr "~") semver_body) t
   \/ matches (Cat (lit ">=") semver_body) t
   \/ matches (Cat (lit "<=") semver_body) t)
  <-> version_constraint t.
Proof.
  unfold version_constraint, constraint_operators.
  rewrite !matches_Chr_Cat, !matches_lit_Cat, matches_semver_body.
  split.
  - intros [H | [(v & Hv & ->) | [(v & Hv & ->) | [(v & Hv & ->) | (v & Hv & ->)]]]];
      try apply matches_semver_body in Hv.
    + exists "", t. simpl. auto.
    + exists "^", v. simpl. auto.
    + exists "~", v. simpl. auto 6.
    + exists ">=", v. simpl. auto 6.
    + exists "<=", v. simpl. auto 7.
  - intros (op & v & Hop & Hv & ->). simpl in Hop.
    destruct Hop as [<- | [<- | [<- | [<- | [<- | []]]]]].
    + left. exact Hv.
    + right. left. exists v. split; [apply matches_semver_body, Hv | reflexivity].
    + right. right. left. exists v. split; [apply matches_semver_body, Hv | reflexivity].
    + right. right. right. left. exists v.
      split; [apply matches_semver_body, Hv | reflexivity].
    + right. right. right. right. exists v.
      split; [apply matches_semver_body, Hv | reflexivity].
Qed.

Lemma version_constraint_rule s :
  existsb (fun p => re_match_anchored p s) version_constraint_patterns = true
  <-> up_to_newline version_constraint s.
Proof.
  unfold version_constraint_patterns. cbn [existsb].
  rewrite !orb_true_iff, !re_match_anchored_iff.
  rewrite (up_to_newline_iff version_constraint _ s
             (fun t => iff_sym (matches_version_constraint t))).
  rewrite !up_to_newline_or.
  intuition discriminate.
Qed.

(** X2.  [_is_valid_version_constraint] returns for every string, and
    accepts exactly a version [X.Y.Z] behind nothing, [^], [~], [>=] or
    [<=], with or without one final newline, where [X], [Y] and [Z] are
    non-empty sequences of decimal digits of any script: [1.2.3] written in
    Arabic-Indic digits is accepted like [1.2.3].  On a value that is not a
    string (a YAML number, for one) it raises [TypeError]. *)
Theorem version_constraint_characterisation :
  (forall s, exists b,
      _is_valid_version_constraint (VStr s) = Return b
      /\ (b = true <-> up_to_newline version_constraint s))
  /\ _is_valid_version_constraint (VStr arabic_indic_version) = Return true
  /\ (forall v, is_str v = false ->
                _is_valid_version_constraint v = Raise TypeError).
Proof.
  split; [| split].
  - intros s. unfold _is_valid_version_constraint. rewrite any_match_str.
    eexists. split; [reflexivity |]. apply version_constraint_rule.
  - vm_compute. reflexivity.
  - intros v Hv. apply any_match_non_string; [exact Hv | discriminate].
Qed.

(** *** Versions *)

Lemma matches_prerelease t :
  matches (Cat semver_body (Cat (Chr "-") (Plus tag_char))) t <-> prerelease_version t.
Proof.
  split.
  - intros H. apply matches_Cat_inv in H. destruct H as (v & r & -> & Hv & H).
    apply matches_Chr_Cat in H. destruct H as (tag & Htag & ->).
    apply matches_semver_body in Hv.
    apply (matches_Plus_CharSet is_tag_char _ _ tag_char_class) in Htag.
    exists v, tag. repeat split; try assumption; apply Htag.
  - intros (v & tag & Hv & Htag & ->).
    constructor; [apply matches_semver_body, Hv |].
    apply matches_Chr_Cat. exists tag. split; [| reflexivity].
    apply (matches_Plus_CharSet is_tag_char _ _ tag_char_class), Htag.
Qed.

Lemma matches_build t :
  matches (Cat semver_body (Cat (Chr "+") (Plus tag_char))) t <-> build_version t.
Proof.
  split.
  - intros H. apply matches_Cat_inv in H. destruct H as (v & r & -> & Hv & H).
    apply matches_Chr_Cat in H. destruct H as (tag & Htag & ->).
    apply matches_semver_body in Hv.
    apply (matches_Plus_CharSet is_tag_char _ _ tag_char_class) in Htag.
    exists v, tag. repeat split; try assumption; apply Htag.
  - intros (v & tag & Hv & Htag & ->).
    constructor; [apply matches_semver_body, Hv |].
    apply matches_Chr_Cat. exists tag. split; [| reflexivity].
    apply (matches_Plus_CharSet is_tag_char _ _ tag_char_class), Htag.
Qed.

Lemma re_match_anchored_spec (P : string -> Prop) r s :
  (forall t, matches r t <-> P t) ->
  (re_match_anchored r s = true <-> up_to_newline P s).
Proof.
  intros H. rewrite re_match_anchored_iff. apply up_to_newline_iff, H.
Qed.

Lemma re_match_anchored_dec (P : string -> Prop) r s :
  (forall t, matches r t <-> P t) ->
  (re_match_anchored r s = true /\ up_to_newline P s)
  \/ (re_match_anchored r s = false /\ ~ up_to_newline P s).
Proof.
  intros H. pose proof (re_match_anchored_spec P r s H) as Hiff.
  destruct (re_match_anchored r s).
  - left. split; [reflexivity | apply Hiff; reflexivity].
  - right. split; [reflexivity |]. intros Habs. apply Hiff in Habs. discriminate Habs.
Qed.

(** X3.  [_validate_version] on a string: a version [X.Y.Z] is valid
    without warning; failing that, [X.Y.Z-tag] is valid with the warning
    "Using prerelease version"; failing that, [X.Y.Z+tag] is valid with the
    warning "Using build version with metadata"; anything else is invalid
    with the single error "Invalid version format".  Each form is taken with
    or without one final newline, [X], [Y] and [Z] are non-empty sequences
    of decimal digits of any script, and [tag] is a non-empty word over
    [a-zA-Z0-9-].  A version that is not a string raises [TypeError]. *)
Theorem _validate_version_outcome :
  (forall s,
      (up_to_newline decimal_version s ->
       _validate_version (VStr s) = Return (mkSimpleResult true [] []))
      /\ (~ up_to_newline decimal_version s -> up_to_newline prerelease_version s ->
          _validate_version (VStr s)
          = Return (mkSimpleResult true [] [UsingPrereleaseVersion]))
      /\ (~ up_to_newline decimal_version s -> ~ up_to_newline prerelease_version s ->
          up_to_newline build_version s ->
          _validate_version (VStr s)
          = Return (mkSimpleResult true [] [UsingBuildVersion]))
      /\ (~ up_to_newline decimal_version s -> ~ up_to_newline prerelease_version s ->
          ~ up_to_newline build_version s ->
          _validate_version (VStr s)
          = Return (mkSimpleResult false [InvalidVersionFormat (VStr s)] [])))
  /\ (forall v, is_str v = false -> _validate_version v = Raise TypeError).
Proof.
  split.
  - intros s. unfold _validate_version, version_patterns.
    cbn [version_loop re_match bind].
    destruct (re_match_anchored_dec decimal_version semver_body s matches_semver_body)
      as [[E1 Hn] | [E1 Hn]];
    destruct (re_match_anchored_dec prerelease_version _ s matches_prerelease)
      as [[E2 Hp] | [E2 Hp]];
    destruct (re_match_anchored_dec build_version _ s matches_build)
      as [[E3 Hb] | [E3 Hb]];
    rewrite E1, ?E2, ?E3;
    cbn [bind String.eqb Ascii.eqb Bool.eqb];
    repeat split; intros; try reflexivity; try contradiction.
  - intros v Hv. destruct v; try discriminate Hv; reflexivity.
Qed.

Lemma _validate_version_outcome_witness :
  _validate_version (VStr "1.0.0") = Return (mkSimpleResult true [] [])
  /\ _validate_version (VStr "1.0.0-beta")
     = Return (mkSimpleResult true [] [UsingPrereleaseVersion])
  /\ _validate_version (VStr "1.0.0+b7")
     = Return (mkSimpleResult true [] [UsingBuildVersion])
  /\ _validate_version (VStr "invalid-version")
     = Return (mkSimpleResult false [InvalidVersionFormat (VStr "invalid-version")] [])
  /\ _validate_version (VInt 1) = Raise TypeError.
Proof.
  destruct _validate_version_outcome as [Hstr Hother].
  assert (Hnum : forall s, re_match_anchored semver_body s = false ->
                           ~ up_to_newline decimal_version s).
  { intros s H Habs.
    apply (re_match_anchored_spec decimal_version _ s matches_semver_body) in Habs.
    congruence. }
  assert (Hpre : forall s,
             re_match_anchored (Cat semver_body (Cat (Chr "-") (Plus tag_char))) s = false ->
             ~ up_to_newline prerelease_version s).
  { intros s H Habs.
    apply (re_match_anchored_spec prerelease_version _ s matches_prerelease) in Habs.
    congruence. }
  assert (Hbuild : forall s,
             re_match_anchored (Cat semver_body (Cat (Chr "+") (Plus tag_char))) s = false ->
             ~ up_to_newline build_version s).
  { intros s H Habs.
    apply (re_match_anchored_spec build_version _ s matches_build) in Habs.
    congruence. }
  split; [| split; [| split; [| split]]].
  - apply (Hstr "1.0.0").
    apply (re_match_anchored_spec decimal_version _ _ matches_semver_body). reflexivity.
  - apply (Hstr "1.0.0-beta"); [apply Hnum; reflexivity |].
    apply (re_match_anchored_spec prerelease_version _ _ matches_prerelease). reflexivity.
  - apply (Hstr "1.0.0+b7"); [apply Hnum; reflexivity | apply Hpre; reflexivity |].
    apply (re_match_anchored_spec build_version _ _ matches_build). reflexivity.
  - apply (Hstr "invalid-version");
      [apply Hnum | apply Hpre | apply Hbuild]; reflexivity.
  - apply Hother. reflexivity.
Defined.

Lemma reference_format_characterisation_witness :
  _is_valid_reference_format "com.example/config:1.0.0" = true.
Proof.
  apply (proj1 (proj2 reference_format_characterisation)).
  exists "com.example", "config".
  split; [split; reflexivity |]. split; [split; reflexivity |].
  right. exists "1.0.0". split; [| reflexivity].
  exists "1", "0", "0".
  split; [split; reflexivity |]. split; [split; reflexivity |].
  split; [split; reflexivity | reflexivity].
Defined.

Lemma version_constraint_characterisation_witness :
  (exists b, _is_valid_version_constraint (VStr "^1.0.0") = Return b
             /\ (b = true <-> up_to_newline version_constraint "^1.0.0"))
  /\ _is_valid_version_constraint (VInt 1) = Raise TypeError.
Proof.
  destruct version_constraint_characterisation as (Hstr & _ & Hother).
  split; [apply Hstr | apply Hother; reflexivity].
Defined.

(* ================================================================= *)
(** ** Dependency declarations *)

Lemma missing_fields_dict mk d :
  missing_fields mk ["artifact"; "purpose"] (VDict d)
  = Return ((if has_key "artifact" d then [] else [mk "artifact"])
            ++ (if has_key "purpose" d then [] else [mk "purpose"])).
Proof.
  unfold missing_fields. cbn [foldM py_in bind].
  destruct (has_key "artifact" d), (has_key "purpose" d); reflexivity.
Qed.

(** What [_validate_single_dependency] returns on a mapping whose [artifact]
    can be looked up in the registry and whose [version] is a string. *)
Lemma single_dependency_spec registry entry index :
  (forall a, assoc "artifact" entry = Some a -> unhashable a = false) ->
  (forall v, assoc "version" entry = Some v -> is_str v = true) ->
  exists r,
    _validate_single_dependency registry (VDict entry) index = Return r
    /\ sd_errors r =
         (if has_key "artifact" entry then []
          else [DependencyMissingRequiredField index "artifact"])
         ++ (if has_key "purpose" entry then []
             else [DependencyMissingRequiredField index "purpose"])
    /\ sd_valid r = has_key "artifact" entry && has_key "purpose" entry
    /\ sd_missing_dependencies r =
         match assoc "artifact" entry with
         | Some a =>
             if truthy registry && negb (in_str_list a (map fst registry))
             then [a] else []
         | None => []
         end
    /\ sd_warnings r =
         map DependencyNotInRegistry (sd_missing_dependencies r)
         ++ map InvalidVersionConstraint (sd_invalid_versions r)
    /\ (forall s, assoc "version" entry = Some (VStr s) ->
          (up_to_newline version_constraint s -> sd_invalid_versions r = [])
          /\ (~ up_to_newline version_constraint s ->
              sd_invalid_versions r = [VStr s]))
    /\ (assoc "version" entry = None -> sd_invalid_versions r = []).
Proof.
  intros Hartifact Hversion.
  unfold _validate_single_dependency. cbn [is_dict negb].
  rewrite missing_fields_dict. cbn [bind py_in py_getitem].
  unfold has_key.
  destruct (assoc "artifact" entry) as [a |] eqn:Ea;
    destruct (assoc "version" entry) as [v |] eqn:Ev;
    destruct (assoc "purpose" entry) as [pu |] eqn:Ep;
    destruct registry as [| kv registry];
    cbn [truthy andb bind app negb];
    try (unfold in_str_keys; rewrite (Hartifact a eq_refl); cbn [bind];
         destruct (in_str_list a _); cbn [bind]);
    try (pose proof (Hversion v eq_refl) as Hv;
         destruct v as [| | | sv | |]; try discriminate Hv;
         unfold _is_valid_version_constraint; rewrite any_match_str; cbn [bind];
         destruct (existsb _ version_constraint_patterns) eqn:E; cbn [bind]);
    eexists; (split; [reflexivity |]);
    cbn [sd_errors sd_valid sd_warnings sd_missing_dependencies sd_invalid_versions
         app map List.length truthy negb andb];
    (split; [reflexivity |]); (split; [reflexivity |]); (split; [reflexivity |]);
    (split; [reflexivity |]);
    (split;
     [ intros s Hs; first
         [ discriminate Hs
         | injection Hs as <-; split; intros Hc;
           first
             [ reflexivity
             | exfalso; apply Hc, version_constraint_rule, E
             | apply version_constraint_rule in Hc; congruence ] ]
     | intros Hn; first [reflexivity | discriminate Hn] ]).
Qed.

(** X4.  [_validate_single_dependency] on a mapping whose [artifact] is
    hashable and whose [version] is a string.  The declaration is invalid
    only for a missing [artifact] or [purpose], with one error per missing
    field.  Its artifact is recorded in [missing_dependencies] exactly when
    the registry is not empty and does not have it, and its version in
    [invalid_versions] exactly when it is not a version constraint; each
    recorded item adds its warning, and nothing else does.  An entry of
    [dependsOn] that is not a mapping is invalid with the single error
    "must be an object". *)
Theorem single_dependency_outcome registry index :
  (forall entry,
      (forall a, assoc "artifact" entry = Some a -> unhashable a = false) ->
      (forall v, assoc "version" entry = Some v -> is_str v = true) ->
      exists r,
        _validate_single_dependency registry (VDict entry) index = Return r
        /\ sd_errors r =
             (if has_key "artifact" entry then []
              else [DependencyMissingRequiredField index "artifact"])
             ++ (if has_key "purpose" entry then []
                 else [DependencyMissingRequiredField index "purpose"])
        /\ sd_valid r = has_key "artifact" entry && has_key "purpose" entry
        /\ sd_missing_dependencies r =
             match assoc "artifact" entry with
             | Some a =>
                 if truthy registry && negb (in_str_list a (map fst registry))
                 then [a] else []
             | None => []
             end
        /\ sd_warnings r =
             map DependencyNotInRegistry (sd_missing_dependencies r)
             ++ map InvalidVersionConstraint (sd_invalid_versions r)
        /\ (forall s, assoc "version" entry = Some (VStr s) ->
              (up_to_newline version_constraint s -> sd_invalid_versions r = [])
              /\ (~ up_to_newline version_constraint s ->
                  sd_invalid_versions r = [VStr s]))
        /\ (assoc "version" entry = None -> sd_invalid_versions r = []))
  /\ (forall dep, is_dict dep = false ->
         _validate_single_dependency registry dep index
         = Return (mkSingleDependencyResult false [DependencyMustBeObject index] [] [] [])).
Proof.
  split.
  - intros entry. apply single_dependency_spec.
  - intros dep Hdep. unfold _validate_single_dependency. rewrite Hdep. reflexivity.
Qed.

Lemma single_dependency_outcome_witness :
  (exists r,
      _validate_single_dependency [("com.example/artifact1", VDict [])]
        (VDict [ ("artifact", VStr "com.example/other"); ("purpose", VStr "tools");
                 ("version", VStr "latest") ]) 0 = Return r
      /\ sd_valid r = true
      /\ sd_warnings r = [ DependencyNotInRegistry (VStr "com.example/other");
                           InvalidVersionConstraint (VStr "latest") ])
  /\ _validate_single_dependency [] (VStr "artifact") 3
     = Return (mkSingleDependencyResult false [DependencyMustBeObject 3] [] [] []).
Proof.
  destruct (single_dependency_outcome [("com.example/artifact1", VDict [])] 0)
    as [Hmapping _].
  destruct (single_dependency_outcome [] 3) as [_ Hother].
  split.
  - destruct (Hmapping [ ("artifact", VStr "com.example/other"); ("purpose", VStr "tools");
                         ("version", VStr "latest") ])
      as (r & Hrun & _ & Hvalid & Hmissing & Hwarn & Hversion & _).
    + intros a Ha. injection Ha as <-. reflexivity.
    + intros v Hv. injection Hv as <-. reflexivity.
    + exists r. split; [exact Hrun |]. split; [exact Hvalid |].
      destruct (Hversion "latest" eq_refl) as [_ Hbad].
      rewrite Hwarn, Hmissing, Hbad; [reflexivity |].
      intros Hc. apply version_constraint_rule in Hc. vm_compute in Hc. discriminate Hc.
  - apply Hother. reflexivity.
Defined.

(* ================================================================= *)
(** ** What [validate_dependencies] returns, and what it leaves behind *)

(** X5.  [validate_dependencies] returns a result in two cases, and only
    in them: the empty valid result when there is no [dependsOn], and the
    result with the single error "dependsOn must be an array" when
    [dependsOn] is there and is not a list.  In both it leaves the graph as
    it was.  On a list-valued [dependsOn] it raises, so it never returns a
    result that lists a circular dependency. *)
Theorem validate_dependencies_outcome registry artifact g :
  (py_in "dependsOn" artifact = Return false ->
   validate_dependencies registry artifact g = (Return empty_dependency_result, g))
  /\ (forall v,
         py_in "dependsOn" artifact = Return true ->
         py_getitem artifact "dependsOn" = Return v ->
         (forall deps, v <> VList deps) ->
         validate_dependencies registry artifact g
         = (Return (mkDependencyResult false [DependsOnMustBeArray] [] [] [] []), g))
  /\ (forall deps,
         py_in "dependsOn" artifact = Return true ->
         py_getitem artifact "dependsOn" = Return (VList deps) ->
         exists e g', validate_dependencies registry artifact g = (Raise e, g'))
  /\ (forall r g',
         validate_dependencies registry artifact g = (Return r, g') ->
         g' = g
         /\ dr_circular_dependencies r = []
         /\ ((py_in "dependsOn" artifact = Return false /\ r = empty_dependency_result)
             \/ (exists v, py_getitem artifact "dependsOn" = Return v
                           /\ (forall deps, v <> VList deps)
                           /\ r = mkDependencyResult false [DependsOnMustBeArray]
                                    [] [] [] []))).
Proof.
  unfold validate_dependencies, bindS, liftS, retS.
  split; [| split; [| split]].
  - intros ->. reflexivity.
  - intros v -> -> Hv. cbn [negb].
    destruct v; try reflexivity. exfalso. exact (Hv l eq_refl).
  - intros deps -> ->. cbn [negb].
    destruct (artifact_node artifact) as [node | e]; [| eauto].
    destruct (add_node node g) as [[[] | e] g1]; [| eauto].
    destruct (dependencies_loop registry artifact 0 deps empty_dependency_result g1)
      as [[result | e] g2]; [| eauto].
    exists AttributeError, g2. reflexivity.
  - intros r g'.
    destruct (py_in "dependsOn" artifact) as [[|] | e]; cbn [negb].
    + destruct (py_getitem artifact "dependsOn") as [v | e]; [| discriminate].
      destruct v as [| b | z | sv | deps | dv];
        try (intros H; injection H as <- <-;
             split; [reflexivity |]; split; [reflexivity |];
             right; eexists; split; [reflexivity |];
             split; [intros deps; discriminate | reflexivity]).
      destruct (artifact_node artifact) as [node | e]; [| discriminate].
      destruct (add_node node g) as [[[] | e] g1]; [| discriminate].
      destruct (dependencies_loop registry artifact 0 deps empty_dependency_result g1)
        as [[result | e] g2]; discriminate.
    + intros H. injection H as <- <-.
      split; [reflexivity |]. split; [reflexivity |]. left. split; reflexivity.
    + discriminate.
Qed.

Lemma validate_dependencies_outcome_witness :
  validate_dependencies [] (VDict []) empty_graph
    = (Return empty_dependency_result, empty_graph)
  /\ validate_dependencies [] (VDict [("dependsOn", VStr "a")]) empty_graph
     = (Return (mkDependencyResult false [DependsOnMustBeArray] [] [] [] []), empty_graph)
  /\ exists e g',
       validate_dependencies [] artifact_a empty_graph = (Raise e, g').
Proof.
  destruct (validate_dependencies_outcome [] (VDict []) empty_graph) as (Habsent & _).
  destruct (validate_dependencies_outcome [] (VDict [("dependsOn", VStr "a")]) empty_graph)
    as (_ & Hother & _).
  destruct (validate_dependencies_outcome [] artifact_a empty_graph)
    as (_ & _ & Hraises & _).
  split; [| split].
  - apply Habsent. reflexivity.
  - apply (Hother (VStr "a")); [reflexivity | reflexivity | intros deps; discriminate].
  - eapply Hraises; reflexivity.
Defined.

Lemma has_edge_extends g g' u v :
  extends g g' -> has_edge g u v = true -> has_edge g' u v = true.
Proof.
  intros [_ He]. unfold has_edge. rewrite !existsb_exists.
  intros (x & Hin & Heq). exists x. split; [apply He, Hin | exact Heq].
Qed.

Lemma extends_add_node n g : extends g (snd (add_node n g)).
Proof. apply accumulating_add_node. Qed.

(** Adding an edge between two strings succeeds and the edge is there. *)
Lemma add_edge_str u v g :
  exists g',
    add_edge (VStr u) (VStr v) g = (Return tt, g')
    /\ extends g g'
    /\ has_edge g' (VStr u) (VStr v) = true
    /\ has_node g' (VStr v) = true.
Proof.
  pose proof (accumulating_add_edge (VStr u) (VStr v) g) as Hext.
  unfold add_edge, bindS in *.
  assert (Hnode : forall w h, exists h',
             add_node (VStr w) h = (Return tt, h') /\ has_node h' (VStr w) = true).
  { intros w h. pose proof (add_node_str w h) as Hw. unfold add_node in *.
    cbn [unhashable] in *.
    destruct (has_node h (VStr w)); simpl in *; eauto. }
  destruct (Hnode u g) as (g1 & E1 & _). rewrite E1 in *.
  destruct (Hnode v g1) as (g2 & E2 & Hv). rewrite E2 in *.
  destruct (has_edge g2 (VStr u) (VStr v)) eqn:E.
  - exists g2. simpl in Hext. repeat split; try assumption; try reflexivity; apply Hext.
  - eexists. split; [reflexivity |]. simpl in Hext.
    split; [exact Hext |]. split.
    + unfold has_edge. simpl. rewrite existsb_app. simpl.
      rewrite !String.eqb_refl. simpl. apply orb_true_r.
    + unfold has_node in *. simpl. exact Hv.
Qed.

(** The loop over well-formed declarations runs to its end and records
    every edge. *)
Lemma dependencies_loop_records_edges registry d n deps :
  artifact_node (VDict d) = Return (VStr n) ->
  Forall (fun dep => exists t, well_formed_dependency dep t) deps ->
  forall i result g,
  exists result' g',
    dependencies_loop registry (VDict d) i deps result g = (Return result', g')
    /\ extends g g'
    /\ (forall dep t, In dep deps -> well_formed_dependency dep t ->
                      has_edge g' (VStr n) (VStr t) = true
                      /\ has_node g' (VStr t) = true).
Proof.
  intros Hnode Hdeps.
  induction Hdeps as [| dep deps (t & entry & -> & Hart & Hver) _ IH]; intros i result g.
  - exists result, g. simpl. split; [reflexivity |]. split; [apply extends_refl |].
    intros dep t [].
  - cbn [dependencies_loop].
    destruct (single_dependency_spec registry entry i) as (r & Hrun & _).
    { intros a Ha. rewrite Hart in Ha. injection Ha as <-. reflexivity. }
    { exact Hver. }
    unfold bindS at 1, liftS at 1. rewrite Hrun.
    unfold bindS at 1, liftS at 1. cbn [py_in]. unfold has_key. rewrite Hart.
    unfold bindS at 1.
    unfold bindS at 1, liftS at 1. rewrite Hnode.
    unfold bindS at 1, liftS at 1. cbn [py_getitem]. rewrite Hart.
    destruct (add_edge_str n t g) as (g1 & Hedge & Hext1 & Hhas & Hhasn).
    rewrite Hedge.
    match goal with
    | |- exists result' g', dependencies_loop _ _ _ _ ?res g1 = _ /\ _ =>
        destruct (IH (S i) res g1) as (result' & g' & Hloop & Hext & Hedges)
    end.
    exists result', g'. split; [exact Hloop |].
    split; [eapply extends_trans; eassumption |].
    intros dep t' [<- | Hin] Hwf.
    + destruct Hwf as (entry' & Hentry & Hart' & _).
      injection Hentry as <-. rewrite Hart in Hart'. injection Hart' as <-.
      split; [eapply has_edge_extends | eapply has_node_extends]; eassumption.
    + exact (Hedges dep t' Hin Hwf).
Qed.

(** X6.  On an artifact with a string name and a [dependsOn] list of
    well-formed declarations, [validate_dependencies] raises
    [AttributeError], and yet the graph it leaves holds the artifact as a
    node and, for every declaration, its target as a node and the edge from
    the artifact to the target. *)
Theorem validate_dependencies_records_edges registry d n deps g :
  assoc "dependsOn" d = Some (VList deps) ->
  artifact_node (VDict d) = Return (VStr n) ->
  Forall (fun dep => exists t, well_formed_dependency dep t) deps ->
  exists g',
    validate_dependencies registry (VDict d) g = (Raise AttributeError, g')
    /\ extends g g'
    /\ has_node g' (VStr n) = true
    /\ (forall dep t, In dep deps -> well_formed_dependency dep t ->
                      has_edge g' (VStr n) (VStr t) = true
                      /\ has_node g' (VStr t) = true).
Proof.
  intros Hdeps Hnode Hwf.
  unfold validate_dependencies, bindS at 1, liftS at 1.
  cbn [py_in]. unfold has_key. rewrite Hdeps. cbn [negb].
  unfold bindS at 1, liftS at 1. cbn [py_getitem]. rewrite Hdeps.
  unfold bindS at 1, liftS at 1. rewrite Hnode.
  unfold bindS at 1.
  pose proof (add_node_str n g) as Hadded.
  pose proof (extends_add_node (VStr n) g) as Hext0.
  assert (Hret : fst (add_node (VStr n) g) = Return tt).
  { unfold add_node. cbn [unhashable]. destruct (has_node g (VStr n)); reflexivity. }
  destruct (add_node (VStr n) g) as [p g1]. simpl in Hadded, Hext0, Hret. subst p.
  destruct (dependencies_loop_records_edges registry d n deps Hnode Hwf 0
              empty_dependency_result g1) as (result & g2 & Hloop & Hext & Hedges).
  unfold bindS. rewrite Hloop.
  exists g2. split; [reflexivity |].
  split; [eapply extends_trans; eassumption |].
  split; [eapply has_node_extends; eassumption | exact Hedges].
Qed.

Lemma validate_dependencies_records_edges_witness :
  exists g',
    validate_dependencies [] artifact_a empty_graph = (Raise AttributeError, g')
    /\ has_edge g' (VStr "artifact-a") (VStr "artifact-b") = true.
Proof.
  destruct (validate_dependencies_records_edges []
              [ ("metadata", VDict [ ("name", VStr "artifact-a") ]);
                ("dependsOn", VList [ VDict [ ("artifact", VStr "artifact-b");
                                              ("purpose", VStr "reference") ] ]) ]
              "artifact-a"
              [ VDict [ ("artifact", VStr "artifact-b"); ("purpose", VStr "reference") ] ]
              empty_graph eq_refl eq_refl)
    as (g' & Hrun & _ & _ & Hedges).
  { constructor; [| constructor].
    exists "artifact-b". eexists. split; [reflexivity |]. split; [reflexivity |].
    intros v Hv. discriminate Hv. }
  exists g'. split; [exact Hrun |].
  apply (Hedges (VDict [ ("artifact", VStr "artifact-b"); ("purpose", VStr "reference") ])
           "artifact-b").
  - left. reflexivity.
  - eexists. split; [reflexivity |]. split; [reflexivity |].
    intros v Hv. discriminate Hv.
Defined.

(* ================================================================= *)
(** ** The naming section and artifact names *)

(** X7.  Whenever [metadata] is a mapping with a [name], the naming
    section returns no result: it raises, with [KeyError] on the key
    [pattern] unless the naming registry check before it raised already.
    So does [validate_artifact_extended] on every such document. *)
Theorem naming_section_never_returns_with_name d metadata :
  assoc "metadata" d = Some (VDict metadata) ->
  has_key "name" metadata = true ->
  (exists e, validate_naming_specifications (VDict d) = Raise e)
  /\ (has_key "namingRegistry" metadata = false ->
      validate_naming_specifications (VDict d) = Raise (KeyError "pattern"))
  /\ (forall self strict validate_endpoints g,
         exists e g',
           validate_artifact_extended self (Return (VDict d)) strict validate_endpoints g
           = (Raise e, g')).
Proof.
  intros Hmd Hname.
  assert (Hblock : forall acc, naming_block "name" _validate_artifact_name
                                 (VDict metadata) acc = Raise (KeyError "pattern")).
  { intros acc. unfold naming_block. cbn [py_in bind]. rewrite Hname. cbn [bind py_getitem].
    unfold has_key in Hname. destruct (assoc "name" metadata); [| discriminate Hname].
    reflexivity. }
  assert (Hraises : exists e, validate_naming_specifications (VDict d) = Raise e).
  { unfold validate_naming_specifications. cbn [py_in py_getitem bind].
    unfold has_key at 1. rewrite Hmd. cbn [negb bind].
    destruct (naming_block "namingRegistry" _validate_naming_registry (VDict metadata) _)
      as [[acc c] | e]; cbn [bind]; [| eauto].
    rewrite Hblock. cbn [bind]. eauto. }
  split; [exact Hraises |]. split.
  - intros Hnr. unfold validate_naming_specifications. cbn [py_in py_getitem bind].
    unfold has_key at 1. rewrite Hmd. cbn [negb bind].
    unfold naming_block at 1. cbn [py_in bind]. rewrite Hnr. cbn [bind].
    rewrite Hblock. reflexivity.
  - intros self strict validate_endpoints g. destruct Hraises as (e & He).
    unfold validate_artifact_extended, bindS, liftS.
    destruct (validate_dependencies (artifact_registry self) (VDict d) g)
      as [[dependency | e1] g1]; [| eauto].
    destruct (validate_semantic_consistency (VDict d)) as [semantic | e2]; [| eauto].
    rewrite He. eauto.
Qed.

Lemma naming_section_never_returns_with_name_witness :
  validate_naming_specifications
    (VDict [("metadata", VDict [("name", VStr "mcp"); ("version", VStr "1.0.0")])])
  = Raise (KeyError "pattern").
Proof.
  apply (naming_section_never_returns_with_name
           [("metadata", VDict [("name", VStr "mcp"); ("version", VStr "1.0.0")])]
           [("name", VStr "mcp"); ("version", VStr "1.0.0")] eq_refl eq_refl).
  reflexivity.
Defined.

(* ================================================================= *)
(** ** The schema of a semantic type *)

(** A loop that appends one message for each element failing a test is a
    filter. *)
Lemma foldM_filter {A : Type} (f : list Message -> A -> Py (list Message))
    (p : A -> bool) (mk : A -> Message) l :
  (forall acc x, In x l -> f acc x = Return (if p x then acc else acc ++ [mk x])) ->
  forall acc,
    foldM f acc l = Return (acc ++ map mk (filter (fun x => negb (p x)) l)).
Proof.
  induction l as [| x l IH]; intros Hf acc; simpl.
  - rewrite app_nil_r. reflexivity.
  - rewrite (Hf acc x (or_introl eq_refl)). cbn [bind].
    rewrite IH; [| intros acc0 y Hy; apply Hf; right; exact Hy].
    destruct (p x); simpl; [reflexivity |].
    rewrite <- app_assoc. reflexivity.
Qed.

Lemma filter_nil_iff {A : Type} (p : A -> bool) l :
  filter p l = [] <-> forall x, In x l -> p x = false.
Proof.
  induction l as [| y l IH]; simpl.
  - split; [intros _ x [] | reflexivity].
  - destruct (p y) eqn:E; split.
    + discriminate.
    + intros H. rewrite (H y (or_introl eq_refl)) in E. discriminate E.
    + intros H x [<- | Hx]; [exact E | apply IH; assumption].
    + intros H. apply IH. intros x Hx. apply H. right. exact Hx.
Qed.

Lemma in_str_list_In k l : in_str_list (VStr k) l = true <-> In k l.
Proof.
  unfold in_str_list. rewrite existsb_exists. split.
  - intros (x & Hx & Heq). simpl in Heq. apply String.eqb_eq in Heq. subst. exact Hx.
  - intros H. exists k. split; [exact H | simpl; apply String.eqb_refl].
Qed.

(** X8.  On a mapping and a semantic type of the table, the schema check
    returns the message "Missing required field" for each required field
    that is absent, in the order of the table, followed by the message
    "Unexpected field" for each key that is neither required, optional nor
    common, in the order of the document.  It reports nothing exactly when
    every required field is present and every key is allowed. *)
Theorem schema_check_characterisation d t sch :
  assoc t semantic_type_schemas = Some sch ->
  let allowed := required_fields sch ++ optional_fields sch ++ common_fields in
  _validate_against_semantic_schema (VDict d) (VStr t)
  = Return (map (MissingRequiredFieldFor (VStr t))
              (filter (fun f => negb (has_key f d)) (required_fields sch))
            ++ map (UnexpectedFieldFor (VStr t))
                 (filter (fun k => negb (in_str_list k allowed))
                    (map (fun kv => VStr (fst kv)) d)))
  /\ (_validate_against_semantic_schema (VDict d) (VStr t) = Return []
      <-> (forall f, In f (required_fields sch) -> has_key f d = true)
          /\ (forall k, In k (map fst d) -> In k allowed)).
Proof.
  intros Hsch. cbv zeta.
  assert (Hrun :
    _validate_against_semantic_schema (VDict d) (VStr t)
    = Return (map (MissingRequiredFieldFor (VStr t))
                (filter (fun f => negb (has_key f d)) (required_fields sch))
              ++ map (UnexpectedFieldFor (VStr t))
                   (filter (fun k => negb (in_str_list k
                              (required_fields sch ++ optional_fields sch ++ common_fields)))
                      (map (fun kv => VStr (fst kv)) d)))).
  { unfold _validate_against_semantic_schema. cbn [schemas_get bind]. rewrite Hsch.
    cbn [schema_field].
    rewrite (foldM_filter _ (fun f => has_key f d) (MissingRequiredFieldFor (VStr t)));
      [| intros acc x _; reflexivity].
    cbn [bind py_iter app].
    rewrite (foldM_filter _
               (fun k => in_str_list k
                           (required_fields sch ++ optional_fields sch ++ common_fields))
               (UnexpectedFieldFor (VStr t))).
    - reflexivity.
    - intros acc x Hx. apply in_map_iff in Hx. destruct Hx as (kv & <- & _).
      reflexivity. }
  split; [exact Hrun |].
  rewrite Hrun. split.
  - intros H. injection H as H. apply app_eq_nil in H. destruct H as [H1 H2].
    apply map_eq_nil in H1, H2. split.
    + intros f Hf. pose proof (proj1 (filter_nil_iff _ _) H1 f Hf) as Hp.
      apply negb_false_iff in Hp. exact Hp.
    + intros k Hk. apply in_str_list_In.
      assert (Hin : In (VStr k) (map (fun kv => VStr (fst kv)) d)).
      { apply in_map_iff in Hk. destruct Hk as (kv & <- & Hkv).
        apply in_map_iff. exists kv. split; [reflexivity | exact Hkv]. }
      pose proof (proj1 (filter_nil_iff _ _) H2 _ Hin) as Hp.
      apply negb_false_iff in Hp. exact Hp.
  - intros [H1 H2]. f_equal.
    assert (E1 : filter (fun f => negb (has_key f d)) (required_fields sch) = []).
    { apply filter_nil_iff. intros f Hf. rewrite (H1 f Hf). reflexivity. }
    assert (E2 : filter (fun k => negb (in_str_list k
                           (required_fields sch ++ optional_fields sch ++ common_fields)))
                   (map (fun kv => VStr (fst kv)) d) = []).
    { apply filter_nil_iff. intros x Hx. apply in_map_iff in Hx.
      destruct Hx as (kv & <- & Hkv). apply negb_false_iff, in_str_list_In, H2.
      apply in_map. exact Hkv. }
    rewrite E1, E2. reflexivity.
Qed.

Lemma schema_check_characterisation_witness :
  _validate_against_semantic_schema
    (VDict [ ("apiVersion", VStr "v1"); ("kind", VStr "Manifest");
             ("metadata", VDict []); ("extra", VInt 1) ])
    (VStr "manifest")
  = Return [ MissingRequiredFieldFor (VStr "manifest") "spec";
             UnexpectedFieldFor (VStr "manifest") (VStr "extra") ].
Proof.
  destruct (schema_check_characterisation
              [ ("apiVersion", VStr "v1"); ("kind", VStr "Manifest");
                ("metadata", VDict []); ("extra", VInt 1) ]
              "manifest"
              (mkSemanticSchema ["apiVersion"; "kind"; "metadata"; "spec"]
                 ["dependsOn"; "governance"]
                 ["schema"; "spec"; "governance"; "policy"])
              eq_refl) as [Hrun _].
  exact Hrun.
Defined.

(* ================================================================= *)
(** ** The two tables of semantic types *)

Lemma has_key_In {A : Type} k (d : list (string * A)) :
  has_key k d = true -> In k (map fst d).
Proof.
  unfold has_key. induction d as [| [k' v] d IH]; simpl.
  - discriminate.
  - destruct (String.eqb_spec k k') as [-> |]; [left; reflexivity |].
    intros H. right. apply IH, H.
Qed.

(** X9.  Every semantic type that has a schema in the extended validator is
    a valid type of the basic validator, and [taxonomy] is the only valid
    type of the basic validator without a schema: an artifact of type
    [taxonomy] gets no error from the basic semantic check and the error
    "Invalid semantic type" from the extended one. *)
Theorem semantic_type_tables :
  (forall t, has_key t semantic_type_schemas = true ->
             in_str_list (VStr t) valid_types = true)
  /\ (forall t, in_str_list (VStr t) valid_types = true ->
                has_key t semantic_type_schemas = false -> t = "taxonomy")
  /\ (forall d metadata,
         assoc "metadata" d = Some (VDict metadata) ->
         assoc "semanticType" metadata = Some (VStr "taxonomy") ->
         _validate_semantic_type (VDict d) = Return []
         /\ validate_semantic_consistency (VDict d)
            = Return (mkSemanticResult false [InvalidSemanticType (VStr "taxonomy")]
                        [] [] [])).
Proof.
  split; [| split].
  - intros t Ht. apply has_key_In in Ht. simpl in Ht.
    repeat (destruct Ht as [<- | Ht]; [reflexivity |]). destruct Ht.
  - intros t Ht Hno. apply in_str_list_In in Ht. simpl in Ht.
    repeat (destruct Ht as [<- | Ht]; [first [reflexivity | discriminate Hno] |]).
    destruct Ht.
  - intros d metadata Hmd Htype. split.
    + unfold _validate_semantic_type. cbn [py_in py_getitem bind].
      unfold has_key. rewrite Hmd. cbn [negb bind py_in py_getitem].
      unfold has_key. rewrite Htype. reflexivity.
    + unfold validate_semantic_consistency. cbn [py_in py_getitem bind].
      unfold has_key. rewrite Hmd. cbn [negb bind py_in py_getitem].
      unfold has_key. rewrite Htype. reflexivity.
Qed.

Lemma semantic_type_tables_witness :
  in_str_list (VStr "policy") valid_types = true
  /\ validate_semantic_consistency
       (VDict [("metadata", VDict [("semanticType", VStr "taxonomy")])])
     = Return (mkSemanticResult false [InvalidSemanticType (VStr "taxonomy")] [] [] []).
Proof.
  destruct semantic_type_tables as (Hsub & _ & Htaxonomy).
  split.
  - apply Hsub. reflexivity.
  - apply (Htaxonomy [("metadata", VDict [("semanticType", VStr "taxonomy")])]
             [("semanticType", VStr "taxonomy")] eq_refl eq_refl).
Defined.

(* ================================================================= *)
(** ** References *)

Lemma reference_value_at_container x v :
  reference_value_at x v -> is_dict x = true \/ exists l, x = VList l.
Proof. intros H. destruct H; [left | left | right]; eauto. Qed.

Lemma extract_container x cp :
  (is_dict x = true \/ exists l, x = VList l) ->
  match x with
  | VDict _ | VList _ => _extract_references x cp
  | _ => []
  end = _extract_references x cp.
Proof. intros [H | (l & ->)]; [destruct x; try discriminate H |]; reflexivity. Qed.

(** The references found below one entry of a mapping are among those of the
    mapping. *)
Lemma extract_dict_entry d path key x :
  In (key, x) d ->
  let cp := if nonempty path then (path ++ "." ++ key)%string else key in
  incl (if is_reference_key key then [mkReference cp x]
        else match x with
             | VDict _ | VList _ => _extract_references x cp
             | _ => []
             end)
       (_extract_references (VDict d) path).
Proof.
  intros Hin. cbv zeta. cbn [_extract_references].
  induction d as [| [k y] d IH].
  - contradiction.
  - destruct Hin as [Heq | Hin].
    + injection Heq as -> ->. apply incl_appl. apply incl_refl.
    + apply incl_appr. apply IH, Hin.
Qed.

(** The references found below one item of a list are among those of the
    list, at some path. *)
Lemma extract_list_item l path x :
  In x l ->
  exists cp,
    incl (match x with
          | VDict _ | VList _ => _extract_references x cp
          | _ => []
          end)
         (_extract_references (VList l) path).
Proof.
  intros Hin. cbn [_extract_references]. generalize 0%nat.
  induction l as [| y l IH]; intros n.
  - contradiction.
  - destruct Hin as [-> | Hin].
    + eexists. apply incl_appl. apply incl_refl.
    + destruct (IH Hin (S n)) as (cp & Hcp). exists cp. apply incl_appr. exact Hcp.
Qed.

Lemma extract_complete doc v :
  reference_value_at doc v ->
  forall path, exists field_path,
    In (mkReference field_path v) (_extract_references doc path).
Proof.
  induction 1 as [d key v Hin Hkey | d key x v Hin Hkey Hat IH | l x v Hin Hat IH];
    intros path.
  - pose proof (extract_dict_entry d path key v Hin) as Hincl. cbv zeta in Hincl.
    rewrite Hkey in Hincl. eexists. apply Hincl. left. reflexivity.
  - pose proof (extract_dict_entry d path key x Hin) as Hincl. cbv zeta in Hincl.
    rewrite Hkey in Hincl.
    rewrite (extract_container _ _ (reference_value_at_container _ _ Hat)) in Hincl.
    destruct (IH (if nonempty path then (path ++ "." ++ key)%string else key))
      as (field_path & Hf).
    exists field_path. apply Hincl, Hf.
  - destruct (extract_list_item l path x Hin) as (cp & Hincl).
    rewrite (extract_container _ _ (reference_value_at_container _ _ Hat)) in Hincl.
    destruct (IH cp) as (field_path & Hf). exists field_path. apply Hincl, Hf.
Qed.

Lemma extract_sound doc :
  forall path field_path v,
    In (mkReference field_path v) (_extract_references doc path) ->
    reference_value_at doc v.
Proof.
  induction doc as [| b | z | s | l IH | d IH] using value_nested_ind;
    intros path field_path v Hin; try contradiction.
  - cbn [_extract_references] in Hin. revert Hin. generalize 0%nat.
    induction IH as [| x l Hx _ IHl]; intros n Hin.
    + contradiction.
    + apply in_app_or in Hin. destruct Hin as [Hin | Hin].
      * apply (reference_below_item _ x); [left; reflexivity |].
        destruct x; try contradiction; eapply Hx; exact Hin.
      * specialize (IHl _ Hin). inversion IHl; subst.
        apply (reference_below_item _ x0); [right; assumption | assumption].
  - cbn [_extract_references] in Hin.
    induction IH as [| [key x] d Hx _ IHd].
    + contradiction.
    + apply in_app_or in Hin. destruct Hin as [Hin | Hin].
      * fold (is_reference_key key) in Hin.
        destruct (is_reference_key key) eqn:Hkey.
        -- destruct Hin as [Heq | []]. injection Heq as _ <-.
           apply (reference_here _ key); [left; reflexivity | exact Hkey].
        -- apply (reference_below_key _ key x); [left; reflexivity | exact Hkey |].
           simpl in Hx. destruct x; try contradiction; eapply Hx; exact Hin.
      * specialize (IHd Hin). inversion IHd; subst.
        -- apply (reference_here _ key0); [right; assumption | assumption].
        -- apply (reference_below_key _ key0 x0); [right; assumption | assumption..].
Qed.

(** X10.  [_extract_references] finds exactly the values of the reference
    keys (keys ending in [Ref] or [Reference]) that can be reached through
    keys that are not reference keys and through list items: nothing below a
    reference key is searched, and no such value is missed, at any depth. *)
Theorem extract_references_characterisation doc path v :
  (exists field_path, In (mkReference field_path v) (_extract_references doc path))
  <-> reference_value_at doc v.
Proof.
  split.
  - intros (field_path & Hin). exact (extract_sound doc path field_path v Hin).
  - intros H. apply extract_complete, H.
Qed.

Lemma extract_references_characterisation_witness :
  exists field_path,
    In (mkReference field_path (VStr "com.example/config:1.0.0"))
       (_extract_references
          (VDict [("spec", VList [VDict [("configRef", VStr "com.example/config:1.0.0")]])])
          "").
Proof.
  apply (proj2 (extract_references_characterisation _ "" _)).
  apply (reference_below_key _ "spec"
           (VList [VDict [("configRef", VStr "com.example/config:1.0.0")]]));
    [left; reflexivity | reflexivity |].
  apply (reference_below_item _ (VDict [("configRef", VStr "com.example/config:1.0.0")]));
    [left; reflexivity |].
  apply (reference_here _ "configRef"); [left; reflexivity | reflexivity].
Defined.

Lemma truthy_snoc {A : Type} (l : list A) x : truthy (l ++ [x]) = true.
Proof. destruct l; reflexivity. Qed.

Lemma fold_left_invariant {A B : Type} (P : A -> Prop) (f : A -> B -> A) l :
  (forall a b, In b l -> P a -> P (f a b)) ->
  forall a, P a -> P (fold_left f l a).
Proof.
  induction l as [| b l IH]; intros Hf a Ha; simpl.
  - exact Ha.
  - apply IH.
    + intros a0 b0 Hb0. apply Hf. right. exact Hb0.
    + apply Hf; [left; reflexivity | exact Ha].
Qed.

(** A single reference is valid exactly when its value is a string of the
    accepted format; the registry plays no part. *)
Lemma _validate_reference_valid registry ref :
  rr_valid (_validate_reference registry ref) = true
  <-> exists s, reference ref = VStr s /\ _is_valid_reference_format s = true.
Proof.
  unfold _validate_reference. destruct (reference ref) as [| | | s | |];
    try (split; [discriminate | intros (s0 & Hs & _); discriminate Hs]).
  destruct (_is_valid_reference_format s) eqn:E; cbn [rr_valid]; split.
  - intros _. exists s. split; [reflexivity | exact E].
  - reflexivity.
  - discriminate.
  - intros (s0 & Hs & Hf). injection Hs as <-. congruence.
Qed.

Lemma reference_step_valid registry refs :
  forall acc,
    rf_valid (fold_left (reference_step registry) refs acc) = true
    <-> rf_valid acc = true
        /\ forall ref, In ref refs -> rr_valid (_validate_reference registry ref) = true.
Proof.
  induction refs as [| ref refs IH]; intros acc; simpl.
  - split; [intros H; split; [exact H | intros ref []] | intros [H _]; exact H].
  - rewrite IH. unfold reference_step at 1. cbn [rf_valid].
    destruct (rr_valid (_validate_reference registry ref)) eqn:E; split.
    + intros [Hacc Hrest]. split; [exact Hacc |].
      intros r [<- | Hr]; [exact E | apply Hrest, Hr].
    + intros [Hacc Hall]. split; [exact Hacc |]. intros r Hr. apply Hall. right. exact Hr.
    + intros [Habs _]. discriminate Habs.
    + intros [_ Hall]. rewrite (Hall ref (or_introl eq_refl)) in E. discriminate E.
Qed.

(** X11.  [validate_references] reports a document valid exactly when the
    value of every reference key it can reach is a string of the form
    [namespace/artifact-name] or [namespace/artifact-name:X.Y.Z], with or
    without one final newline, [X], [Y] and [Z] being non-empty sequences
    of decimal digits of any script.  The registry has no influence on
    [valid]. *)
Theorem validate_references_valid_iff registry doc :
  rf_valid (validate_references registry doc) = true
  <-> forall v, reference_value_at doc v ->
                exists s, v = VStr s /\ up_to_newline reference_form s.
Proof.
  unfold validate_references. rewrite reference_step_valid. cbn [rf_valid].
  split.
  - intros [_ Hall] v Hat.
    destruct (extract_complete doc v Hat "") as (field_path & Hin).
    apply Hall, _validate_reference_valid in Hin. cbn [reference] in Hin.
    destruct Hin as (s & Hs & Hf). exists s. split; [exact Hs |].
    apply reference_format_characterisation_rule, Hf.
  - intros Hall. split; [reflexivity |].
    intros [field_path v] Hin. apply _validate_reference_valid. cbn [reference].
    destruct (Hall v (extract_sound doc "" field_path v Hin)) as (s & Hs & Hg).
    exists s. split; [exact Hs |]. apply reference_format_characterisation_rule, Hg.
Qed.

Lemma validate_references_valid_iff_witness :
  rf_valid (validate_references []
              (VDict [("spec", VDict [("configRef", VStr "com.example/config:1.0.0")])]))
  = true.
Proof.
  apply (proj2 (validate_references_valid_iff []
                  (VDict [("spec", VDict [("configRef", VStr "com.example/config:1.0.0")])]))).
  intros v Hat.
  inversion Hat as [d key v0 Hin Hkey | d key x v0 Hin Hkey Hx |]; subst.
  - destruct Hin as [Heq | []]. injection Heq as <- <-. discriminate Hkey.
  - destruct Hin as [Heq | []]. injection Heq as <- <-.
    inversion Hx as [d key v1 Hin1 Hkey1 | d key x1 v1 Hin1 Hkey1 Hx1 |]; subst.
    + destruct Hin1 as [Heq | []]. injection Heq as <- <-.
      eexists. split; [reflexivity |].
      apply reference_format_characterisation_rule. reflexivity.
    + destruct Hin1 as [Heq | []]. injection Heq as <- <-. discriminate Hkey1.
Defined.

(** X12.  The result of [validate_references] keeps its fields in step:
    [valid] is true exactly when there is no error; there is one error per
    broken reference and one warning per missing target; and without a
    registry there is neither a warning nor a missing target. *)
Theorem validate_references_invariants registry doc :
  let r := validate_references registry doc in
  rf_valid r = negb (truthy (rf_errors r))
  /\ List.length (rf_errors r) = List.length (rf_broken_references r)
  /\ List.length (rf_warnings r) = List.length (rf_missing_targets r)
  /\ (registry = [] -> rf_warnings r = [] /\ rf_missing_targets r = []).
Proof.
  cbv zeta. unfold validate_references.
  apply (fold_left_invariant
           (fun r => rf_valid r = negb (truthy (rf_errors r))
                     /\ List.length (rf_errors r) = List.length (rf_broken_references r)
                     /\ List.length (rf_warnings r) = List.length (rf_missing_targets r)
                     /\ (registry = [] -> rf_warnings r = [] /\ rf_missing_targets r = []))).
  - intros acc ref _ (Hvalid & Herr & Hwarn & Hnone).
    assert (Hfinish : forall (valid' : bool) errors' warnings' broken' missing',
               valid' = negb (truthy errors') ->
               List.length errors' = List.length broken' ->
               List.length warnings' = List.length missing' ->
               (registry = [] -> warnings' = [] /\ missing' = []) ->
               let r := mkReferenceResult valid' errors' warnings' broken' missing' in
               rf_valid r = negb (truthy (rf_errors r))
               /\ List.length (rf_errors r) = List.length (rf_broken_references r)
               /\ List.length (rf_warnings r) = List.length (rf_missing_targets r)
               /\ (registry = [] -> rf_warnings r = [] /\ rf_missing_targets r = [])).
    { intros. cbv zeta. cbn. auto. }
    unfold reference_step, _validate_reference.
    destruct (reference ref) as [| | | s | |];
      try (cbn [rr_valid rr_errors rr_warnings rr_broken rr_target_exists];
           apply Hfinish;
           [rewrite truthy_snoc; reflexivity
           | rewrite !length_app, Herr; reflexivity
           | rewrite app_nil_r; exact Hwarn
           | rewrite app_nil_r; exact Hnone]).
    destruct registry as [| kv registry].
    + cbn [truthy andb].
      destruct (_is_valid_reference_format s);
        cbn [rr_valid rr_errors rr_warnings rr_broken rr_target_exists negb];
        apply Hfinish;
        rewrite ?app_nil_r, ?truthy_snoc, ?length_app, ?Herr;
        try reflexivity; try assumption.
    + cbn [truthy andb].
      destruct (has_key s (kv :: registry)); cbn [negb];
        destruct (_is_valid_reference_format s);
        cbn [rr_valid rr_errors rr_warnings rr_broken rr_target_exists negb];
        apply Hfinish;
        rewrite ?app_nil_r, ?truthy_snoc, ?length_app, ?Herr, ?Hwarn;
        try reflexivity; try assumption; try discriminate.
  - repeat split; reflexivity.
Qed.

Lemma validate_references_invariants_witness :
  rf_warnings (validate_references [] (VDict [("toolRef", VStr "io.github.user/tool")])) = []
  /\ rf_missing_targets
       (validate_references [] (VDict [("toolRef", VStr "io.github.user/tool")])) = [].
Proof.
  destruct (validate_references_invariants []
              (VDict [("toolRef", VStr "io.github.user/tool")])) as (_ & _ & _ & Hnone).
  apply Hnone. reflexivity.
Defined.

(* ================================================================= *)
(** ** Reports and exit codes *)

Lemma validate_dependencies_Return_inv registry artifact g r g' :
  validate_dependencies registry artifact g = (Return r, g') ->
  g' = g /\ dr_circular_dependencies r = [].
Proof.
  unfold validate_dependencies, bindS, liftS, retS.
  destruct (py_in "dependsOn" artifact) as [[|] | e]; cbn [negb].
  - destruct (py_getitem artifact "dependsOn") as [v | e]; [| discriminate].
    destruct v as [| b | z | sv | deps | dv];
      try (intros H; injection H as <- <-; split; reflexivity).
    destruct (artifact_node artifact) as [node | e]; [| discriminate].
    destruct (add_node node g) as [[[] | e] g1]; [| discriminate].
    destruct (dependencies_loop registry artifact 0 deps empty_dependency_result g1)
      as [[result | e] g2]; discriminate.
  - intros H. injection H as <- <-. split; reflexivity.
  - discriminate.
Qed.

(** X13.  Every report that [validate_artifact_extended] returns has at
    least one error and the status [failed], reports no circular dependency,
    and was produced without touching the dependency graph: the statuses
    [passed] and [warning] are never returned. *)
Theorem returned_report_is_failed self file strict validate_endpoints g result g' :
  validate_artifact_extended self file strict validate_endpoints g = (Return result, g') ->
  errors result <> []
  /\ status result = ExtendedValidationStatus.FAILED
  /\ circular_dependency_detected result = false
  /\ g' = g.
Proof.
  intros H.
  destruct (validate_artifact_extended_reports_errors _ _ _ _ _ _ _ H) as [Herr Hstatus].
  split; [exact Herr |]. split; [exact Hstatus |].
  destruct file as [artifact | e].
  - apply validate_artifact_extended_inv in H.
    destruct H as (dependency & semantic & naming & endpoint & n_deps & n_endpoints
                   & kind & Hdep & _ & _ & _ & _ & _ & _ & Hres).
    apply validate_dependencies_Return_inv in Hdep. destruct Hdep as [Hg Hcirc].
    cbv zeta in Hres. subst result. cbn [circular_dependency_detected].
    rewrite Hcirc. split; [reflexivity | exact Hg].
  - simpl in H. unfold retS in H. injection H as <- <-. split; reflexivity.
Qed.

Lemma returned_report_is_failed_witness :
  status empty_document_report = ExtendedValidationStatus.FAILED.
Proof.
  apply (returned_report_is_failed plain_validator (Return (VDict [])) false false
           empty_graph empty_document_report empty_graph empty_document_run).
Defined.

(** X14.  The extended CLI ends with the exit status 0 only when the help
    is asked for: [--help] gives 0 and a usage error 2, both before anything
    is validated; once the command line parses, the process never ends with
    0, whatever the validator, the file and the flags (it ends with 1, or
    with an uncaught exception); and [--strict] changes neither the exit
    status nor the exception. *)
Theorem main_exits_zero_only_for_help artifact_exists validator file :
  main HelpRequested artifact_exists validator file = Return 0%Z
  /\ main UsageError artifact_exists validator file = Return 2%Z
  /\ (forall args,
         main (Parsed args) artifact_exists validator file <> Return 0%Z
         /\ forall code,
              main (Parsed args) artifact_exists validator file = Return code ->
              code = 1%Z)
  /\ (forall validate_endpoints,
         main (Parsed (mkArgs true validate_endpoints)) artifact_exists validator file
         = main (Parsed (mkArgs false validate_endpoints)) artifact_exists validator file).
Proof.
  assert (Hcode : forall self s ve r g',
             validate_artifact_extended self file s ve empty_graph
             = (Return r, g') -> exit_code r = 1%Z).
  { intros self s ve r g' H.
    destruct (validate_artifact_extended_reports_errors _ _ _ _ _ _ _ H) as [_ Hs].
    unfold exit_code. rewrite Hs. reflexivity. }
  assert (Hone : forall args code,
             main (Parsed args) artifact_exists validator file = Return code ->
             code = 1%Z).
  { intros args code. unfold main. destruct artifact_exists; cbn [negb].
    2: { intros H. injection H as <-. reflexivity. }
    destruct validator as [self | e]; cbn [bind]; [| discriminate].
    destruct (validate_artifact_extended self file (args_strict args)
                (args_validate_endpoints args) empty_graph)
      as [[r | e] g'] eqn:E; cbn [fst bind]; [| discriminate].
    rewrite (Hcode _ _ _ _ _ E). intros H. injection H as <-. reflexivity. }
  split; [reflexivity |]. split; [reflexivity |]. split.
  - intros args. split; [| apply Hone].
    intros H. apply Hone in H. discriminate H.
  - intros validate_endpoints. unfold main. cbn [args_strict args_validate_endpoints].
    destruct artifact_exists; cbn [negb]; [| reflexivity].
    destruct validator as [self | e]; cbn [bind]; [| reflexivity].
    destruct (validate_artifact_extended self file false validate_endpoints empty_graph)
      as [[r | e] g'] eqn:E.
    + destruct (validate_artifact_extended_strict _ _ _ _ _ _ E) as (r' & E' & _).
      rewrite E'. cbn [fst bind].
      rewrite (Hcode _ _ _ _ _ E), (Hcode _ _ _ _ _ E'). reflexivity.
    + rewrite (validate_artifact_extended_strict_raise _ _ _ _ _ _ E). reflexivity.
Qed.

(* ================================================================= *)
(** ** What the basic validator accepts *)

Lemma matches_qualified_name t :
  matches qualified_name_pattern t <-> qualified_name t.
Proof.
  unfold qualified_name_pattern, qualified_name. split.
  - intros H. apply matches_Cat_inv in H. destruct H as (ns & r1 & -> & Hns & H).
    apply matches_Chr_Cat in H. destruct H as (name & Hname & ->).
    apply (matches_Plus_CharSet is_namespace_char _ _ namespace_char_class) in Hns.
    apply (matches_Plus_CharSet is_name_char _ _ name_char_class) in Hname.
    exists ns, name. repeat split; try apply Hns; try apply Hname.
  - intros (ns & name & Hns & Hname & ->).
    apply (matches_Plus_CharSet is_namespace_char _ _ namespace_char_class) in Hns.
    apply (matches_Plus_CharSet is_name_char _ _ name_char_class) in Hname.
    constructor; [exact Hns |].
    apply matches_Chr_Cat. exists name. split; [exact Hname | reflexivity].
Qed.

Lemma status_passed_iff errors warnings strict :
  basic_status errors warnings strict = ValidationStatus.PASSED
  <-> errors = [] /\ warnings = [].
Proof.
  unfold basic_status. destruct errors, warnings, strict; simpl;
    split; try discriminate; try (intros [? ?]; discriminate); auto.
Qed.

Lemma app_nil_4 {A : Type} (a b c e : list A) :
  ((a ++ b) ++ c) ++ e = [] <-> a = [] /\ b = [] /\ c = [] /\ e = [].
Proof.
  split.
  - intros H. apply app_eq_nil in H. destruct H as [H ->].
    apply app_eq_nil in H. destruct H as [H ->].
    apply app_eq_nil in H. destruct H as [-> ->]. auto.
  - intros (-> & -> & -> & ->). reflexivity.
Qed.

(** With no schema loaded, the basic validation passes exactly when its
    four checks each return without a message. *)
Lemma validate_artifact_passed_iff d strict :
  vr_status (validate_artifact None (Return (VDict d)) strict) = ValidationStatus.PASSED
  <-> _validate_structure (VDict d) = Return []
      /\ _validate_naming (VDict d) = Return ([], [])
      /\ _validate_dependencies (VDict d) = Return []
      /\ _validate_semantic_type (VDict d) = Return [].
Proof.
  unfold validate_artifact, load_failure.
  assert (Hkind : exists k, py_get (VDict d) "kind" (VStr "Unknown") = Return k).
  { simpl. destruct (assoc "kind" d); eauto. }
  destruct Hkind as (k & ->).
  destruct (_validate_structure (VDict d)) as [se | e1];
    [| split; [discriminate | intros (H & _); discriminate H]].
  destruct (_validate_naming (VDict d)) as [[ne nw] | e2];
    [| split; [discriminate | intros (_ & H & _); discriminate H]].
  destruct (_validate_dependencies (VDict d)) as [de | e3];
    [| split; [discriminate | intros (_ & _ & H & _); discriminate H]].
  destruct (_validate_semantic_type (VDict d)) as [te | e4];
    [| split; [discriminate | intros (_ & _ & _ & H); discriminate H]].
  cbn [vr_status]. rewrite status_passed_iff, app_nil_4. split.
  - intros ((-> & -> & -> & ->) & ->). repeat split; reflexivity.
  - intros (H1 & H2 & H3 & H4).
    injection H1 as ->. injection H2 as -> ->. injection H3 as ->. injection H4 as ->.
    repeat split; reflexivity.
Qed.

Lemma _validate_structure_clean_iff d :
  _validate_structure (VDict d) = Return []
  <-> has_key "apiVersion" d = true
      /\ has_key "kind" d = true
      /\ exists m, assoc "metadata" d = Some m
                   /\ py_in "name" m = Return true
                   /\ py_in "version" m = Return true
                   /\ py_in "semanticType" m = Return true.
Proof.
  unfold _validate_structure, missing_fields. cbn [foldM py_in bind py_getitem].
  unfold has_key.
  destruct (assoc "apiVersion" d), (assoc "kind" d),
           (assoc "metadata" d) as [m |]; cbn [bind app];
    try (split; [discriminate | intros (H1 & H2 & (m0 & H3 & _)); congruence]);
    destruct (py_in "name" m) as [[|] | e1] eqn:E1; cbn [bind app];
    destruct (py_in "version" m) as [[|] | e2] eqn:E2; cbn [bind app];
    destruct (py_in "semanticType" m) as [[|] | e3] eqn:E3; cbn [bind app];
    (split;
     [ first [ discriminate
             | intros _; split; [reflexivity |]; split; [reflexivity |];
               exists m; repeat split; assumption ]
     | intros (H1 & H2 & (m0 & Hm & H3 & H4 & H5));
       try injection Hm as <-; congruence ]).
Qed.

Lemma eq_str_true v s : eq_str v s = true <-> v = VStr s.
Proof.
  destruct v; simpl; try (split; [discriminate | intros H; discriminate H]).
  rewrite String.eqb_eq. split; [intros ->; reflexivity | intros H; injection H; auto].
Qed.

(** A field that must be a string matching a pattern: the check returns no
    message exactly for the strings the pattern accepts. *)
Lemma field_pattern_check md key r (P : string -> Prop) (mk : value -> Message) :
  (forall t, matches r t <-> P t) ->
  has_key key md = true ->
  (x <- py_getitem (VDict md) key ;;
   ok <- re_match r x ;;
   Return (if ok then [] else [mk x])) = Return []
  <-> exists s, assoc key md = Some (VStr s) /\ up_to_newline P s.
Proof.
  intros HP Hkey. unfold has_key in Hkey. cbn [py_getitem].
  destruct (assoc key md) as [x |]; [| discriminate Hkey]. cbn [bind].
  destruct x as [| b | z | s | l | e]; cbn [re_match bind];
    try (split; [discriminate | intros (s0 & Hs & _); discriminate Hs]).
  destruct (re_match_anchored_dec P r s HP) as [[-> Hp] | [-> Hp]]; split.
  - intros _. exists s. split; [reflexivity | exact Hp].
  - reflexivity.
  - discriminate.
  - intros (s0 & Hs & Hp0). injection Hs as <-. contradiction.
Qed.

Lemma _validate_naming_clean_iff d md :
  assoc "metadata" d = Some (VDict md) ->
  has_key "name" md = true ->
  has_key "version" md = true ->
  _validate_naming (VDict d) = Return ([], []) <-> acceptable_metadata_naming md.
Proof.
  intros Hmd Hname Hversion.
  pose proof (field_pattern_check md "name" qualified_name_pattern qualified_name
                InvalidNameFormat matches_qualified_name Hname) as Hn.
  pose proof (field_pattern_check md "version" semver_pattern decimal_version
                InvalidSemverFormat matches_semver_body Hversion) as Hv.
  unfold _validate_naming. cbn [py_in bind]. unfold has_key at 1. rewrite Hmd.
  cbn [negb bind py_getitem]. rewrite Hmd. cbn [bind py_in].
  rewrite Hname, Hversion.
  unfold acceptable_metadata_naming.
  destruct (x <- py_getitem (VDict md) "name" ;;
            ok <- re_match qualified_name_pattern x ;;
            Return (if ok then [] else [InvalidNameFormat x])) as [errors1 | e1] eqn:E1;
    cbn [bind].
  2: { split; [discriminate |]. intros (H & _). apply Hn in H. discriminate H. }
  destruct (x <- py_getitem (VDict md) "version" ;;
            ok <- re_match semver_pattern x ;;
            Return (if ok then [] else [InvalidSemverFormat x])) as [errors2 | e2] eqn:E2;
    cbn [bind].
  2: { split; [discriminate |]. intros (_ & H & _). apply Hv in H. discriminate H. }
  unfold has_key. cbn [py_getitem].
  destruct (assoc "namingRegistry" md) as [nr |] eqn:Enr; cbn [bind].
  - destruct nr as [| b | z | s | l | registry]; cbn [py_get bind];
      try (split; [discriminate
                  | intros (_ & _ & [H | (r0 & H & _)]); discriminate H]).
    destruct (assoc "format" registry) as [fmt |] eqn:Ef; cbn [bind].
    + destruct (eq_str fmt "reverse-DNS") eqn:Eq.
      * apply eq_str_true in Eq. subst fmt. split.
        -- intros H. injection H as H. apply app_eq_nil in H. destruct H as [-> ->].
           split; [apply Hn; reflexivity |]. split; [apply Hv; reflexivity |].
           right. exists registry. split; [reflexivity | exact Ef].
        -- intros (H1 & H2 & _). apply Hn in H1. apply Hv in H2.
           injection H1 as ->. injection H2 as ->. reflexivity.
      * split; [discriminate |].
        intros (_ & _ & [H | (r0 & H & Hf)]); [discriminate H |].
        injection H as <-. rewrite Ef in Hf. injection Hf as ->.
        simpl in Eq. discriminate Eq.
    + split; [discriminate |].
      intros (_ & _ & [H | (r0 & H & Hf)]); [discriminate H |].
      injection H as <-. rewrite Ef in Hf. discriminate Hf.
  - split.
    + intros H. injection H as H. apply app_eq_nil in H. destruct H as [-> ->].
      split; [apply Hn; reflexivity |]. split; [apply Hv; reflexivity |].
      left. reflexivity.
    + intros (H1 & H2 & _). apply Hn in H1. apply Hv in H2.
      injection H1 as ->. injection H2 as ->. reflexivity.
Qed.

(** The loop of the basic dependency check never raises, and returns no
    message exactly when every entry is a mapping with [artifact] and
    [purpose]. *)
Lemma basic_dependencies_loop_clean_iff deps :
  forall i,
    (exists errs, basic_dependencies_loop i deps = Return errs)
    /\ (basic_dependencies_loop i deps = Return []
        <-> Forall acceptable_dependency deps).
Proof.
  induction deps as [| dep deps IH]; intros i; simpl.
  - split; [eauto |]. split; [constructor | reflexivity].
  - destruct (IH (S i)) as ((rest & Hrest) & Hiff). rewrite Hrest in *.
    unfold basic_dependency_errors.
    destruct dep as [| b | z | s | l | entry]; cbn [is_dict negb bind py_in];
      try (split; [eauto |]; split;
           [discriminate
           | intros H; inversion H as [| ? ? (e0 & He0 & _) _]; discriminate He0]).
    split; [eauto |].
    destruct (has_key "artifact" entry) eqn:Ea, (has_key "purpose" entry) eqn:Ep;
      cbn [app]; split;
      try discriminate;
      try (intros H; inversion H as [| ? ? (e0 & He0 & Ha0 & Hp0) _];
           injection He0 as <-; congruence).
    + intros H. injection H as ->. constructor.
      * exists entry. repeat split; assumption.
      * apply Hiff. reflexivity.
    + intros H. inversion H as [| ? ? _ Hall]. apply Hiff in Hall.
      injection Hall as ->. reflexivity.
Qed.

Lemma _validate_dependencies_clean_iff d :
  _validate_dependencies (VDict d) = Return []
  <-> assoc "dependsOn" d = None
      \/ exists deps, assoc "dependsOn" d = Some (VList deps)
                      /\ Forall acceptable_dependency deps.
Proof.
  unfold _validate_dependencies. cbn [py_in bind py_getitem]. unfold has_key.
  destruct (assoc "dependsOn" d) as [v |]; cbn [negb bind].
  - destruct v as [| b | z | s | deps | e];
      try (split; [discriminate
                  | intros [H | (deps0 & H & _)]; discriminate H]).
    destruct (basic_dependencies_loop_clean_iff deps 0) as [_ Hiff]. rewrite Hiff.
    split.
    + intros H. right. exists deps. split; [reflexivity | exact H].
    + intros [H | (deps0 & H & Hall)]; [discriminate H |].
      injection H as <-. exact Hall.
  - split; [intros _; left; reflexivity | reflexivity].
Qed.

Lemma _validate_semantic_type_clean_iff d md :
  assoc "metadata" d = Some (VDict md) ->
  has_key "semanticType" md = true ->
  _validate_semantic_type (VDict d) = Return []
  <-> exists t, assoc "semanticType" md = Some (VStr t) /\ In t valid_types.
Proof.
  intros Hmd Htype. unfold _validate_semantic_type. cbn [py_in bind py_getitem].
  unfold has_key at 1. rewrite Hmd. cbn [negb bind py_in py_getitem].
  rewrite Htype. cbn [negb bind]. unfold has_key in Htype.
  destruct (assoc "semanticType" md) as [sv |]; [| discriminate Htype]. cbn [bind].
  destruct (in_str_list sv valid_types) eqn:E; split.
  - intros _. destruct sv as [| b | z | t | l | e];
      try (unfold in_str_list in E; apply existsb_exists in E;
           destruct E as (x & _ & Hx); discriminate Hx).
    exists t. split; [reflexivity | apply in_str_list_In, E].
  - reflexivity.
  - discriminate.
  - intros (t & Ht & Hin). injection Ht as ->.
    apply in_str_list_In in Hin. congruence.
Qed.

Lemma basic_acceptance_rule d strict :
  vr_status (validate_artifact None (Return (VDict d)) strict) = ValidationStatus.PASSED
  <-> basic_acceptable d.
Proof.
  rewrite validate_artifact_passed_iff, _validate_structure_clean_iff,
    _validate_dependencies_clean_iff.
  unfold basic_acceptable, acceptable_metadata. split.
  - intros ((Hapi & Hkind & (m & Hm & Hname & Hversion & Htype)) & Hnaming & Hdeps & Hsem).
    split; [exact Hapi |]. split; [exact Hkind |]. split; [| exact Hdeps].
    assert (Hdict : exists md, m = VDict md).
    { unfold _validate_naming in Hnaming. cbn [py_in bind py_getitem] in Hnaming.
      unfold has_key in Hnaming. rewrite Hm in Hnaming.
      cbn [negb bind] in Hnaming. rewrite Hname in Hnaming. cbn [bind] in Hnaming.
      destruct m as [| b | z | s | l | md]; try discriminate Hnaming. eauto. }
    destruct Hdict as (md & ->). cbn [py_in] in Hname, Hversion, Htype.
    injection Hname as Hname. injection Hversion as Hversion. injection Htype as Htype.
    exists md. split; [exact Hm |]. split.
    + apply (_validate_naming_clean_iff d md Hm Hname Hversion), Hnaming.
    + apply (_validate_semantic_type_clean_iff d md Hm Htype), Hsem.
  - intros (Hapi & Hkind & (md & Hm & Hnaming & Hsem) & Hdeps).
    assert (Hname : has_key "name" md = true).
    { destruct Hnaming as ((n & Hn & _) & _). unfold has_key. rewrite Hn. reflexivity. }
    assert (Hversion : has_key "version" md = true).
    { destruct Hnaming as (_ & (v & Hv & _) & _). unfold has_key. rewrite Hv. reflexivity. }
    assert (Htype : has_key "semanticType" md = true).
    { destruct Hsem as (t & Ht & _). unfold has_key. rewrite Ht. reflexivity. }
    split; [| split; [| split]].
    + split; [exact Hapi |]. split; [exact Hkind |].
      exists (VDict md). cbn [py_in]. rewrite Hname, Hversion, Htype. auto.
    + apply (_validate_naming_clean_iff d md Hm Hname Hversion), Hnaming.
    + exact Hdeps.
    + apply (_validate_semantic_type_clean_iff d md Hm Htype), Hsem.
Qed.

(** X15.  With no schema loaded, the basic validator gives a mapping the
    status [passed] exactly when: [apiVersion] and [kind] are present;
    [metadata] is a mapping whose [name] is a string
    [namespace/artifact-name], whose [version] is a string [X.Y.Z], whose
    [semanticType] is one of the ten valid types and whose [namingRegistry],
    if any, is a mapping with the format ["reverse-DNS"]; and [dependsOn],
    if any, is a list of mappings that each have [artifact] and [purpose].
    The name and the version are accepted with or without one final
    newline, and [X], [Y] and [Z] are non-empty sequences of decimal digits
    of any script, not only of [0-9].  Strict mode plays no part. *)
Theorem basic_validation_passes_iff d strict :
  vr_status (validate_artifact None (Return (VDict d)) strict) = ValidationStatus.PASSED
  <-> basic_acceptable d.
Proof. apply basic_acceptance_rule. Qed.


Lemma qualified_document_acceptable : basic_acceptable qualified_document.
Proof.
  unfold basic_acceptable, qualified_document.
  split; [reflexivity |]. split; [reflexivity |]. split.
  - eexists. split; [reflexivity |]. split; [split; [| split] |].
    + exists "io.github.user/tool". split; [reflexivity |].
      apply (re_match_anchored_spec qualified_name _ _ matches_qualified_name).
      reflexivity.
    + exists "2.1.0". split; [reflexivity |].
      apply (re_match_anchored_spec decimal_version _ _ matches_semver_body).
      reflexivity.
    + left. reflexivity.
    + exists "toolchain". split; [reflexivity |]. simpl. tauto.
  - right. eexists. split; [reflexivity |].
    constructor; [| constructor].
    eexists. split; [reflexivity |]. split; reflexivity.
Qed.

Lemma basic_validation_passes_iff_witness :
  vr_status (validate_artifact None (Return (VDict qualified_document)) true)
  = ValidationStatus.PASSED.
Proof.
  apply (proj2 (basic_validation_passes_iff qualified_document true)).
  exact qualified_document_acceptable.
Defined.




(** X17.  The basic validator turns every exception into a report.  A
    file that fails to load, a document that is not a mapping, and a mapping
    whose [metadata] is null, a boolean or a number each give the status
    [failed] with the single error "Failed to load artifact" and no warning;
    in the last case the missing top-level fields are not reported. *)
Theorem basic_validation_load_failures sch strict :
  (forall e,
      validate_artifact sch (Raise e) strict
      = mkValidationResult ValidationStatus.FAILED [FailedToLoadArtifact e] [] None)
  /\ (forall artifact,
         is_dict artifact = false ->
         validate_artifact sch (Return artifact) strict
         = mkValidationResult ValidationStatus.FAILED
             [FailedToLoadArtifact AttributeError] [] None)
  /\ (forall d m,
         assoc "metadata" d = Some m ->
         unhashable m = false -> is_str m = false ->
         validate_artifact sch (Return (VDict d)) strict
         = mkValidationResult ValidationStatus.FAILED
             [FailedToLoadArtifact TypeError] []
             (Some (match assoc "kind" d with Some k => k | None => VStr "Unknown" end))).
Proof.
  split; [| split].
  - intros e. reflexivity.
  - intros artifact Hnd. destruct artifact; try discriminate Hnd; reflexivity.
  - intros d m Hm Hh Hs. unfold validate_artifact. cbn [py_get].
    assert (Hstructure : _validate_structure (VDict d) = Raise TypeError).
    { unfold _validate_structure, missing_fields. cbn [foldM py_in bind py_getitem].
      unfold has_key. rewrite Hm.
      destruct (assoc "apiVersion" d), (assoc "kind" d); cbn [bind];
        destruct m; try discriminate Hh; try discriminate Hs; reflexivity. }
    destruct (assoc "kind" d); rewrite Hstructure; reflexivity.
Qed.

Lemma basic_validation_load_failures_witness :
  validate_artifact None (Return (VList [])) false
  = mkValidationResult ValidationStatus.FAILED [FailedToLoadArtifact AttributeError] [] None
  /\ validate_artifact None (Return (VDict [("metadata", VNone)])) false
     = mkValidationResult ValidationStatus.FAILED [FailedToLoadArtifact TypeError] []
         (Some (VStr "Unknown")).
Proof.
  destruct (basic_validation_load_failures None false) as (_ & Hnon & Hmeta).
  split.
  - apply Hnon. reflexivity.
  - apply (Hmeta [("metadata", VNone)] VNone); reflexivity.
Defined.

(* ================================================================= *)
(** ** Endpoints *)

Lemma probe_endpoint_valid http url :
  let r := probe_endpoint http url in
  se_valid r = negb (truthy (se_errors r))
  /\ (se_valid r = true
      <-> exists status_code elapsed body,
            http url = HttpResponse status_code elapsed body
            /\ (status_code < 400)%Z
            /\ (forall text, body <> JsonRaises text)).
Proof.
  cbv zeta. unfold probe_endpoint.
  destruct (http url) as [| | text | status_code elapsed body];
    try (split; [reflexivity |]; split;
         [discriminate | intros (c & t & b & H & _); discriminate H]).
  destruct (Z.leb_spec 400 status_code) as [Hge | Hlt];
    destruct body as [| | | text]; cbn [negb se_valid se_errors truthy app];
    (split; [reflexivity |]); split; try discriminate;
    try (intros (c & t & b & H & Hc & Hb); injection H as <- <- <-;
         first [ exfalso; apply (Hb text); reflexivity | lia ]);
    intros _; do 3 eexists; (split; [reflexivity |]); (split; [lia |]);
    intros text0; discriminate.
Qed.

Lemma _validate_single_endpoint_valid http endpoint base_url r :
  _validate_single_endpoint http endpoint base_url = Return r ->
  se_valid r = negb (truthy (se_errors r))
  /\ (se_valid r = true <-> endpoint_answers http base_url endpoint).
Proof.
  unfold _validate_single_endpoint, endpoint_answers. intros H.
  apply bind_Return in H. destruct H as (has_url & Hin & H).
  destruct has_url; cbn [negb] in H.
  - apply bind_Return in H. destruct H as (url & Hget & H).
    destruct url as [| | | u | |]; try discriminate H. injection H as <-.
    destruct (probe_endpoint_valid http (effective_url base_url u)) as [Hinv Hiff].
    cbv zeta in Hinv, Hiff. split; [exact Hinv |]. rewrite Hiff. split.
    + intros (c & t & b & Hh & Hc & Hb). exists u, c, t, b. auto.
    + intros (u0 & c & t & b & _ & Hu & Hh & Hc & Hb).
      rewrite Hget in Hu. injection Hu as <-. exists c, t, b. auto.
  - injection H as <-. split; [reflexivity |]. split; [discriminate |].
    intros (u & c & t & b & Hin' & _). congruence.
Qed.

Lemma endpoint_loop_valid http base_url l :
  forall acc r,
    er_valid acc = negb (truthy (er_errors acc)) ->
    foldM (endpoint_step http base_url) acc l = Return r ->
    er_valid r = negb (truthy (er_errors r))
    /\ (er_valid r = true
        <-> er_valid acc = true /\ Forall (endpoint_answers http base_url) l).
Proof.
  induction l as [| endpoint l IH]; intros acc r Hacc H.
  - injection H as <-. split; [exact Hacc |].
    split; [intros Hv; split; [exact Hv | constructor] | intros [Hv _]; exact Hv].
  - rewrite foldM_cons in H. apply bind_Return in H. destruct H as (acc' & Hstep & H).
    unfold endpoint_step in Hstep.
    apply bind_Return in Hstep. destruct Hstep as (sr & Hsr & Hstep).
    apply bind_Return in Hstep. destruct Hstep as (name & _ & Hstep).
    apply bind_Return in Hstep. destruct Hstep as (statuses & _ & Hstep).
    apply bind_Return in Hstep. destruct Hstep as (times & _ & Hstep).
    injection Hstep as <-.
    destruct (_validate_single_endpoint_valid _ _ _ _ Hsr) as [Hinv Hiff].
    match type of H with
    | foldM _ ?a _ = _ => destruct (IH a r) as [Hr Hriff]; [| exact H |]
    end.
    { cbn [er_valid er_errors]. destruct (se_valid sr) eqn:E; [exact Hacc |].
      symmetry in Hinv. apply negb_false_iff in Hinv.
      destruct (se_errors sr); [discriminate Hinv |].
      destruct (er_errors acc); reflexivity. }
    split; [exact Hr |]. rewrite Hriff. cbn [er_valid].
    destruct (se_valid sr) eqn:E; split.
    + intros [Hv Hall]. split; [exact Hv |].
      constructor; [apply Hiff; reflexivity | exact Hall].
    + intros [Hv Hall]. split; [exact Hv |]. inversion Hall; assumption.
    + intros [Hv _]. discriminate Hv.
    + intros [_ Hall]. inversion Hall as [| ? ? Hhead _].
      apply Hiff in Hhead. discriminate Hhead.
Qed.

(** X18.  Whenever [validate_endpoints] returns, [valid] is true exactly
    when there is no error, and exactly when the artifact has no
    [endpoints], or [endpoints] is a list in which every endpoint answers:
    its [url] is a string and the request to it (to [base_url] followed by
    it, unless it starts with [http://] or [https://]) gets a response with
    a status below 400, and reading its body raises nothing but a JSON
    decode error.  A body that is not JSON leaves [valid] alone. *)
Theorem validate_endpoints_valid_iff http artifact base_url r :
  validate_endpoints http artifact base_url = Return r ->
  er_valid r = negb (truthy (er_errors r))
  /\ (er_valid r = true
      <-> py_in "endpoints" artifact = Return false
          \/ exists l, py_getitem artifact "endpoints" = Return (VList l)
                       /\ Forall (endpoint_answers http base_url) l).
Proof.
  unfold validate_endpoints. intros H.
  apply bind_Return in H. destruct H as (has_endpoints & Hin & H).
  destruct has_endpoints; cbn [negb] in H.
  - apply bind_Return in H. destruct H as (endpoints & Hget & H).
    destruct endpoints as [| b | z | s | l | e];
      try (injection H as <-; split; [reflexivity |]; split;
           [discriminate | intros [Hf | (l0 & Hl & _)]; congruence]).
    destruct (endpoint_loop_valid http base_url l
                (mkEndpointResult true [] [] [] []) r eq_refl H) as [Hinv Hiff].
    split; [exact Hinv |]. rewrite Hiff. cbn [er_valid]. split.
    + intros [_ Hall]. right. exists l. split; [exact Hget | exact Hall].
    + intros [Hf | (l0 & Hl & Hall)]; [congruence |].
      rewrite Hget in Hl. injection Hl as <-. split; [reflexivity | exact Hall].
  - injection H as <-. split; [reflexivity |].
    split; [intros _; left; exact Hin | reflexivity].
Qed.

Lemma validate_endpoints_valid_iff_witness :
  er_valid (mkEndpointResult false
              [EndpointMessage "Endpoint returned error status: 404"]
              [EndpointMessage "Endpoint response is not valid JSON"]
              [(VStr "status", "200"); (VStr "missing", "404")]
              [(VStr "status", 1500%N); (VStr "missing", 900%N)])
  = negb (truthy [EndpointMessage "Endpoint returned error status: 404"]).
Proof.
  apply (validate_endpoints_valid_iff sample_http
           (VDict [("endpoints",
                    VList [ VDict [("name", VStr "status"); ("url", VStr "/api/v1/status")];
                            VDict [("name", VStr "missing");
                                   ("url", VStr "http://localhost:8080/nothing")] ])])
           "http://localhost:8080").
  vm_compute. reflexivity.
Defined.

Lemma node_eqb_refl_hashable k : unhashable k = false -> node_eqb k k = true.
Proof.
  destruct k as [| b | z | s | l | d]; cbn; intros H; try discriminate H;
    [reflexivity | apply Bool.eqb_reflx | apply Z.eqb_refl | apply String.eqb_refl].
Qed.

Lemma dict_update_lookup_same {A : Type} key (v : A) d :
  unhashable key = false -> dict_lookup key (dict_update key v d) = Some v.
Proof.
  intros Hk. induction d as [| [k x] d IH]; cbn [dict_update dict_lookup].
  - rewrite (node_eqb_refl_hashable _ Hk). reflexivity.
  - destruct (node_eqb key k) eqn:E; cbn [dict_lookup]; rewrite E;
      [reflexivity | exact IH].
Qed.

Lemma dict_update_has {A : Type} k key (v : A) d :
  dict_has k d -> dict_has k (dict_update key v d).
Proof.
  unfold dict_has. induction d as [| [k' x] d IH]; cbn [dict_update dict_lookup].
  - intros H. contradiction.
  - destruct (node_eqb key k') eqn:E; cbn [dict_lookup];
      destruct (node_eqb k k') eqn:E'; intros H; try discriminate; auto.
Qed.

Lemma dict_update_has_inv {A : Type} k key (v : A) d :
  dict_has k (dict_update key v d) -> dict_has k d \/ node_eqb k key = true.
Proof.
  unfold dict_has. induction d as [| [k' x] d IH]; cbn [dict_update dict_lookup].
  - destruct (node_eqb k key); intros H; [right; reflexivity | contradiction].
  - destruct (node_eqb key k') eqn:E; cbn [dict_lookup];
      destruct (node_eqb k k') eqn:E'; intros H;
      try (left; discriminate); auto.
Qed.

Lemma dict_has_eqb {A : Type} k key (d : list (value * A)) :
  node_eqb k key = true -> unhashable key = false ->
  dict_has key d -> dict_has k d.
Proof.
  unfold dict_has. intros Hk Hh. induction d as [| [k' x] d IH]; cbn [dict_lookup].
  - auto.
  - destruct (node_eqb key k') eqn:E.
    + assert (node_eqb k k' = true) as ->; [| discriminate].
      destruct k, key, k'; cbn in *; try discriminate;
        repeat match goal with
               | b : bool |- _ => destruct b
               | H : Bool.eqb _ _ = true |- _ => apply Bool.eqb_prop in H; subst
               | H : Z.eqb _ _ = true |- _ => apply Z.eqb_eq in H; subst
               | H : String.eqb _ _ = true |- _ => apply String.eqb_eq in H; subst
               end;
        try discriminate; try reflexivity;
        first [apply Z.eqb_refl | apply String.eqb_refl | apply Bool.eqb_reflx].
    + intros H. destruct (node_eqb k k'); [discriminate | auto].
Qed.

Lemma dict_update_length {A : Type} key (v : A) d :
  List.length (dict_update key v d) <= S (List.length d).
Proof.
  induction d as [| [k x] d IH]; cbn [dict_update List.length]; [lia |].
  destruct (node_eqb key k); cbn [List.length]; lia.
Qed.

Lemma endpoint_loop_tables http base_url l :
  forall acc r,
    (forall k, dict_has k (er_response_times acc) ->
               dict_has k (er_endpoint_status acc)) ->
    foldM (endpoint_step http base_url) acc l = Return r ->
    (forall k, dict_has k (er_endpoint_status acc) ->
               dict_has k (er_endpoint_status r))
    /\ (forall endpoint, In endpoint l ->
          exists name, py_get endpoint "name" (VStr "unknown") = Return name
                       /\ dict_has name (er_endpoint_status r))
    /\ (forall k, dict_has k (er_response_times r) ->
                  dict_has k (er_endpoint_status r))
    /\ List.length (er_endpoint_status r)
       <= List.length (er_endpoint_status acc) + List.length l.
Proof.
  induction l as [| endpoint l IH]; intros acc r Hacc H.
  - injection H as <-. repeat split; auto; [intros e [] | cbn; lia].
  - rewrite foldM_cons in H. apply bind_Return in H. destruct H as (acc' & Hstep & H).
    unfold endpoint_step in Hstep.
    apply bind_Return in Hstep. destruct Hstep as (sr & _ & Hstep).
    apply bind_Return in Hstep. destruct Hstep as (name & Hname & Hstep).
    apply bind_Return in Hstep. destruct Hstep as (statuses & Hst & Hstep).
    apply bind_Return in Hstep. destruct Hstep as (times & Htimes & Hstep).
    unfold dict_set in Hst. destruct (unhashable name) eqn:Hh; [discriminate Hst |].
    injection Hst as <-.
    assert (Htimes' : forall k, dict_has k times ->
                                dict_has k (er_response_times acc)
                                \/ node_eqb k name = true).
    { destruct (se_response_time sr) as [t |].
      - destruct (elapsed_truthy (Some t)).
        + rewrite Hname in Htimes. cbn [bind] in Htimes. unfold dict_set in Htimes.
          rewrite Hh in Htimes. injection Htimes as <-.
          intros k. apply dict_update_has_inv.
        + injection Htimes as <-. auto.
      - injection Htimes as <-. auto. }
    injection Hstep as <-.
    match type of H with
    | foldM _ ?a _ = _ =>
        destruct (IH a r) as (Hmono & Hall & Hsub & Hlen); [| exact H |]
    end.
    { cbn [er_response_times er_endpoint_status]. intros k Hk.
      destruct (Htimes' k Hk) as [Hk' | Hk'].
      - apply dict_update_has, Hacc, Hk'.
      - apply (dict_has_eqb k name _ Hk' Hh). unfold dict_has.
        rewrite (dict_update_lookup_same _ _ _ Hh). discriminate. }
    cbn [er_endpoint_status] in Hmono, Hlen.
    split; [| split; [| split]].
    + intros k Hk. apply Hmono, dict_update_has, Hk.
    + intros e [<- | Hin]; [| exact (Hall e Hin)].
      exists name. split; [exact Hname |]. apply Hmono. unfold dict_has.
      rewrite (dict_update_lookup_same _ _ _ Hh). discriminate.
    + exact Hsub.
    + pose proof (dict_update_length name (se_status sr) (er_endpoint_status acc)).
      cbn [List.length]. lia.
Qed.

(** X19.  Whenever [validate_endpoints] returns for a list of endpoints,
    [endpoint_status] has an entry for the name of every endpoint of the
    list ([unknown] where an endpoint has no [name]), every name with a
    response time also has a status, and the table never has more entries
    than the list has endpoints (endpoints of the same name share one). *)
Theorem validate_endpoints_status_table http artifact base_url l r :
  py_getitem artifact "endpoints" = Return (VList l) ->
  validate_endpoints http artifact base_url = Return r ->
  (forall endpoint, In endpoint l ->
     exists name, py_get endpoint "name" (VStr "unknown") = Return name
                  /\ dict_has name (er_endpoint_status r))
  /\ (forall k, dict_has k (er_response_times r) ->
                dict_has k (er_endpoint_status r))
  /\ List.length (er_endpoint_status r) <= List.length l.
Proof.
  intros Hget H. unfold validate_endpoints in H.
  apply bind_Return in H. destruct H as (has_endpoints & Hin & H).
  destruct has_endpoints; cbn [negb] in H.
  - rewrite Hget in H. cbn [bind] in H.
    destruct (endpoint_loop_tables http base_url l
                (mkEndpointResult true [] [] [] []) r) as (_ & Hall & Hsub & Hlen);
      [intros k Hk; exfalso; apply Hk; reflexivity | exact H |].
    cbn [er_endpoint_status List.length] in Hlen.
    split; [exact Hall | split; [exact Hsub | lia]].
  - destruct artifact as [| b | z | s | l0 | d]; try discriminate Hget.
    cbn [py_in] in Hin. cbn [py_getitem] in Hget. unfold has_key in Hin.
    destruct (assoc "endpoints" d); discriminate.
Qed.

Lemma validate_endpoints_status_table_witness :
  exists r,
    validate_endpoints sample_http
      (VDict [("endpoints",
               VList [ VDict [("url", VStr "/api/v1/status")];
                       VDict [("url", VStr "/api/v1/other")] ])])
      "http://localhost:8080" = Return r
    /\ List.length (er_endpoint_status r) <= 2.
Proof.
  eexists. split; [reflexivity |].
  apply (validate_endpoints_status_table sample_http
           (VDict [("endpoints",
                    VList [ VDict [("url", VStr "/api/v1/status")];
                            VDict [("url", VStr "/api/v1/other")] ])])
           "http://localhost:8080"
           [ VDict [("url", VStr "/api/v1/status")];
             VDict [("url", VStr "/api/v1/other")] ]);
    reflexivity.
Defined.
